(** * The Baconian cipher codec and puzzle controller of the OSI-model site

    A shallow embedding of [baconian.js] (the codec and its self-test) and
    of [app.js] (the puzzle controller, the theme switch, the navigation
    marks and the handler of [DOMContentLoaded]), followed by the properties
    the written specification states about them and by further properties
    of the code.

    JavaScript strings are sequences of UTF-16 code units; a code unit is a
    number of type [N].  The Unicode case tables are not part of the
    repository: the upper-case mapping of the code points outside ASCII is a
    parameter, [unicodeUpper], of everything that calls [toUpperCase]. *)

From Stdlib Require Import ZArith NArith List Bool Ascii String Lia Sorted DecimalString.
From stdpp Require Import base numbers option list strings gmap.

Local Open Scope N_scope.
Local Set Warnings "-register-all".

(** ** JavaScript values *)

Abbreviation jsstring := (list N).

(** A string literal of the source, as code units. *)
Definition js (s : string) : jsstring :=
  map N_of_ascii (list_ascii_of_string s).

(** The values the codec can be handed.  An array is a list of slots; a
    slot of a sparse array can be a hole ([None]). *)
Inductive JSValue : Type :=
| JSUndefined
| JSNull
| JSBoolean (b : bool)
| JSNumber (z : Z)
| JSString (s : jsstring)
| JSArray (elems : list (option JSValue))
| JSObject.

(** [ToBoolean]: what [!v] negates. *)
Definition ToBoolean (v : JSValue) : bool :=
  match v with
  | JSUndefined | JSNull => false
  | JSBoolean b => b
  | JSNumber z => negb (z =? 0)%Z
  | JSString s => negb (Nat.eqb (length s) 0)
  | JSArray _ | JSObject => true
  end.

Definition typeofIsString (v : JSValue) : bool :=
  match v with JSString _ => true | _ => false end.

Definition isArray (v : JSValue) : bool :=
  match v with JSArray _ => true | _ => false end.

(** Abrupt completion: the only exception the modelled code could meet is
    the [TypeError] of a property access on [undefined] or [null]. *)
Inductive Completion (A : Type) : Type :=
| Normal (a : A)
| Throw.
Arguments Normal {A} a.
Arguments Throw {A}.

(** ** Strings: code points, case mapping *)

Definition isLeadSurrogate (c : N) : bool := (0xD800 <=? c) && (c <=? 0xDBFF).
Definition isTrailSurrogate (c : N) : bool := (0xDC00 <=? c) && (c <=? 0xDFFF).

Definition UTF16SurrogatePairToCodePoint (lead trail : N) : N :=
  (lead - 0xD800) * 0x400 + (trail - 0xDC00) + 0x10000.

(** A lead surrogate followed by a trail surrogate is one code point; any
    other code unit, a lone surrogate included, is a code point by itself. *)
Fixpoint StringToCodePoints (s : jsstring) : list N :=
  match s with
  | [] => []
  | c :: rest =>
      match rest with
      | d :: rest' =>
          if isLeadSurrogate c && isTrailSurrogate d
          then UTF16SurrogatePairToCodePoint c d :: StringToCodePoints rest'
          else c :: StringToCodePoints rest
      | [] => [c]
      end
  end.

Definition CodePointToUTF16 (cp : N) : jsstring :=
  if cp <? 0x10000 then [cp]
  else [(cp - 0x10000) / 0x400 + 0xD800; (cp - 0x10000) mod 0x400 + 0xDC00].

Definition isAsciiLower (c : N) : bool := (97 <=? c) && (c <=? 122).
Definition isAsciiUpper (c : N) : bool := (65 <=? c) && (c <=? 90).

(** The character class [a-zA-Z] of [normalizePlaintext]'s pattern. *)
Definition isAsciiLetter (c : N) : bool := isAsciiLower c || isAsciiUpper c.

Definition asciiToUpper (c : N) : N := if isAsciiLower c then c - 32 else c.

Definition charA : N := 65.
Definition charB : N := 66.
Definition unknown : jsstring := js "?".

(** A fragment of the Unicode table, enough to run the codec on Latin-1
    text: U+00B5, U+00DF, U+00FF and the accented lower-case letters. *)
Definition latin1Upper (c : N) : list N :=
  if c =? 0xB5 then [0x39C]
  else if c =? 0xDF then [83; 83]
  else if c =? 0xFF then [0x178]
  else if (0xE0 <=? c) && (c <=? 0xFE) && negb (c =? 0xF7) then [c - 32]
  else [c].

Section Site.

(** The full upper-case mapping of a code point outside ASCII (one code
    point can map to several, as U+00DF does). *)
Variable unicodeUpper : N -> list N.

Definition toUppercaseCodePoint (cp : N) : list N :=
  if cp <? 128 then [asciiToUpper cp] else unicodeUpper cp.

(** [String.prototype.toUpperCase]: the string is read as code points, each
    is replaced by its upper-case mapping, the result is encoded again. *)
Definition toUpperCase (s : jsstring) : jsstring :=
  flat_map CodePointToUTF16
    (flat_map toUppercaseCodePoint (StringToCodePoints s)).

(** ** baconian.js *)

(** [parseInt(s, 2)] on a string that starts with binary digits: the value
    of the longest prefix of digits, [None] (NaN) when there is none.  The
    white space and sign that [parseInt] also skips do not occur in the
    digit strings [decodeGroup] builds. *)
Fixpoint parseBinaryDigits (s : jsstring) (acc : option Z) : option Z :=
  match s with
  | [] => acc
  | c :: s' =>
      if c =? 48 then parseBinaryDigits s' (Some (2 * default 0 acc)%Z)
      else if c =? 49 then parseBinaryDigits s' (Some (2 * default 0 acc + 1)%Z)
      else acc
  end.

Definition parseInt2 (s : jsstring) : option Z := parseBinaryDigits s None.

(** [String.fromCharCode]: the argument is taken modulo 2^16, NaN as 0. *)
Definition fromCharCode (n : option Z) : jsstring :=
  match n with
  | None => [0]
  | Some z => [Z.to_N (z mod 65536)]
  end.

(** The loop of [decodeGroup], from index [i] with [n] rounds to go;
    [None] is the early [return '?']. *)
Fixpoint decodeLoop (normalized : jsstring) (i n : nat) (binaryStr : jsstring)
  : option jsstring :=
  match n with
  | O => Some binaryStr
  | S n' =>
      match normalized !! i with
      | Some c =>
          if c =? charA then decodeLoop normalized (S i) n' (binaryStr ++ js "0")
          else if c =? charB then decodeLoop normalized (S i) n' (binaryStr ++ js "1")
          else None
      | None => None
      end
  end.

Definition decodeGroup (abGroup : JSValue) : jsstring :=
  if negb (ToBoolean abGroup) || negb (typeofIsString abGroup) then unknown
  else
    match abGroup with
    | JSString s =>
        let normalized := toUpperCase s in
        if negb (Nat.eqb (length normalized) 5) then unknown
        else
          match decodeLoop normalized 0 5 [] with
          | None => unknown
          | Some binaryStr =>
              let index := parseInt2 binaryStr in
              match index with
              | Some z =>
                  if (z <? 0)%Z || (25 <? z)%Z then unknown
                  else fromCharCode (Some (65 + z)%Z)
              | None => fromCharCode None
              end
          end
    | _ => unknown
    end.

(** [Array.prototype.join('')] on an array of strings: a hole contributes
    the empty string. *)
Definition joinEmpty (elems : list (option jsstring)) : jsstring :=
  flat_map (fun e => match e with Some s => s | None => [] end) elems.

(** [Array.prototype.map] keeps the holes of its receiver. *)
Definition decodeGroups (groups : JSValue) : jsstring :=
  match groups with
  | JSArray elems => joinEmpty (map (option_map decodeGroup) elems)
  | _ => []
  end.

(** [input.replace(/[^a-zA-Z]/g, '')] drops every code unit outside the
    class. *)
Definition normalizePlaintext (input : JSValue) : jsstring :=
  if negb (ToBoolean input) || negb (typeofIsString input) then []
  else
    match input with
    | JSString s => toUpperCase (List.filter isAsciiLetter s)
    | _ => []
    end.

(** The loop of [isValidGroup]; [group[i]] of an index past the end is
    [undefined], whose [toUpperCase] is a [TypeError]. *)
Fixpoint validLoop (group : jsstring) (i n : nat) : Completion bool :=
  match n with
  | O => Normal true
  | S n' =>
      match group !! i with
      | Some c =>
          let char := toUpperCase [c] in
          if negb (bool_decide (char = [charA])) && negb (bool_decide (char = [charB]))
          then Normal false
          else validLoop group (S i) n'
      | None => Throw
      end
  end.

Definition isValidGroup (group : JSValue) : Completion bool :=
  match group with
  | JSString s =>
      if negb (ToBoolean group) || negb (Nat.eqb (length s) 5) then Normal false
      else validLoop s 0 5
  | _ => Normal false
  end.

(** ** The specification's reading of a cipher group *)

(** A symbol of the two-letter alphabet, upper case. *)
Definition isAB (c : N) : bool := (c =? charA) || (c =? charB).

(** A symbol of the two-letter alphabet in either case. *)
Definition isABAnyCase (c : N) : bool :=
  (c =? 65) || (c =? 66) || (c =? 97) || (c =? 98).

(** The binary digit [decodeGroup] writes for a symbol. *)
Definition bitDigit (c : N) : N := if c =? charA then 48 else 49.

(** A = 0, B = 1. *)
Definition abBit (c : N) : Z := if c =? charB then 1%Z else 0%Z.

(** The group read as a binary number, most significant digit first. *)
Definition groupValue (g : jsstring) : Z :=
  fold_left (fun v c => (2 * v + abBit c)%Z) g 0%Z.

(** The letter at offset [v] from 'A'. *)
Definition letterAt (v : Z) : jsstring := [Z.to_N (65 + v)].

(** What the specification calls an invalid group, on the normalized
    (upper-cased) string. *)
Definition invalidGroup (normalized : jsstring) : Prop :=
  length normalized <> 5%nat
  \/ (exists c, c ∈ normalized /\ c <> charA /\ c <> charB)
  \/ (26 <= groupValue normalized <= 31)%Z.

(** The assumption on the Unicode table under which upper-casing cannot
    turn a character outside ASCII into a string of cipher symbols: every
    such mapping keeps a code point that is neither 'A' nor 'B'. *)
Definition upperKeepsNonAB (upper : N -> list N) : Prop :=
  forall cp, 128 <= cp -> exists x, x ∈ upper cp /\ x <> charA /\ x <> charB.

(** ** The page: elements, timers, listeners *)

(** An element.  The page keeps every element the script can hold a
    reference to, in document order, and an element is referred to by its
    position, which never changes.  [elParent] is the position of the
    parent element, [None] for an element just below the root and for the
    top of a subtree that was taken out of the document.  [elConnected]
    says whether the element is in the document: [getElementById] and
    [document.querySelectorAll] see connected elements only, while a
    reference the script holds works on an element that was taken out as
    on any other.  [elTextContent] is the text the element itself holds;
    [elValue] is the [value] property, which only form controls have. *)
Record Element : Type := mkElement {
  elTagName : jsstring;
  elId : option jsstring;
  elParent : option nat;
  elClassList : list jsstring;
  elAttributes : gmap string jsstring;
  elTextContent : jsstring;
  elValue : option jsstring;
  elDisplay : jsstring;
  elConnected : bool
}.

(** The callback [revealAllChips] hands to [setTimeout], with the card it
    closes over. *)
Inductive TimerCallback : Type :=
| RevealCard (card : nat).

Record Timer : Type := mkTimer {
  timerCallback : TimerCallback;
  timerDelay : Z
}.

(** The listeners [initializePuzzle] registers, each with what it closes
    over. *)
Inductive Listener : Type :=
| ChipClick (card : nat)
| ChipKeydown (card : nat)
| RevealAllClick (containerId : jsstring)
| RevealAllKeydown (containerId : jsstring)
| CheckGuessClick (layerName expectedPlaintext : jsstring)
| GuessKeypress (layerName expectedPlaintext : jsstring)
| HintClick (layerName : jsstring)
| GuessInput (layerName : jsstring).

Inductive EventTarget : Type :=
| OnDocument
| OnElement (el : nat).

Record Registration : Type := mkRegistration {
  regTarget : EventTarget;
  regType : string;
  regListener : Listener
}.

Record Page : Type := mkPage {
  elements : list Element;
  activeElement : option nat;
  prefersReducedMotion : bool;
  timers : list Timer;
  listeners : list Registration;
  consoleWarnings : list jsstring
}.

Definition setClassList (l : list jsstring) (e : Element) : Element :=
  mkElement (elTagName e) (elId e) (elParent e) l (elAttributes e)
    (elTextContent e) (elValue e) (elDisplay e) (elConnected e).

Definition setAttributes (a : gmap string jsstring) (e : Element) : Element :=
  mkElement (elTagName e) (elId e) (elParent e) (elClassList e) a
    (elTextContent e) (elValue e) (elDisplay e) (elConnected e).

Definition setText (t : jsstring) (e : Element) : Element :=
  mkElement (elTagName e) (elId e) (elParent e) (elClassList e) (elAttributes e)
    t (elValue e) (elDisplay e) (elConnected e).

Definition setDisplay (d : jsstring) (e : Element) : Element :=
  mkElement (elTagName e) (elId e) (elParent e) (elClassList e) (elAttributes e)
    (elTextContent e) (elValue e) d (elConnected e).

Definition setParent (q : option nat) (e : Element) : Element :=
  mkElement (elTagName e) (elId e) q (elClassList e) (elAttributes e)
    (elTextContent e) (elValue e) (elDisplay e) (elConnected e).

Definition setConnected (c : bool) (e : Element) : Element :=
  mkElement (elTagName e) (elId e) (elParent e) (elClassList e) (elAttributes e)
    (elTextContent e) (elValue e) (elDisplay e) c.

Definition setElements (els : list Element) (p : Page) : Page :=
  mkPage els (activeElement p) (prefersReducedMotion p) (timers p)
    (listeners p) (consoleWarnings p).

Definition setActiveElement (a : option nat) (p : Page) : Page :=
  mkPage (elements p) a (prefersReducedMotion p) (timers p)
    (listeners p) (consoleWarnings p).

Definition setTimers (ts : list Timer) (p : Page) : Page :=
  mkPage (elements p) (activeElement p) (prefersReducedMotion p) ts
    (listeners p) (consoleWarnings p).

Definition setListeners (ls : list Registration) (p : Page) : Page :=
  mkPage (elements p) (activeElement p) (prefersReducedMotion p) (timers p)
    ls (consoleWarnings p).

Definition setConsoleWarnings (ws : list jsstring) (p : Page) : Page :=
  mkPage (elements p) (activeElement p) (prefersReducedMotion p) (timers p)
    (listeners p) ws.

(** ** Page computations *)

(** A computation reads and updates the page and can end in an exception. *)
Definition M (A : Type) : Type := Page -> Completion (A * Page).

Definition ret {A : Type} (a : A) : M A := fun p => Normal (a, p).

Definition bind {A B : Type} (c : M A) (k : A -> M B) : M B :=
  fun p => match c p with
           | Normal (a, p') => k a p'
           | Throw => Throw
           end.

Notation "'let*' x ':=' c 'in' k" := (bind c (fun x => k))
  (at level 10, x name, c at level 200, k at level 200).
Notation "c ';;;' k" := (bind c (fun _ => k))
  (at level 100, k at level 200, right associativity).

(** A reference held in a variable is an element or [null]. *)
Definition Ref : Type := option nat.

Definition truthy (r : Ref) : bool :=
  match r with Some _ => true | None => false end.

(** Reading a property of [r]: a [TypeError] when [r] is [null]. *)
Definition readElement {A : Type} (r : Ref) (f : Element -> A) : M A :=
  fun p => match r with
           | Some n => match elements p !! n with
                       | Some e => Normal (f e, p)
                       | None => Throw
                       end
           | None => Throw
           end.

(** Writing a property of [r]: a [TypeError] when [r] is [null]. *)
Definition writeElement (r : Ref) (f : Element -> Element) : M unit :=
  fun p => match r with
           | Some n => match elements p !! n with
                       | Some e => Normal (tt, setElements (<[n := f e]> (elements p)) p)
                       | None => Throw
                       end
           | None => Throw
           end.

Definition hasId (id : jsstring) (e : Element) : bool :=
  bool_decide (elId e = Some id).

Definition hasClass (cls : jsstring) (e : Element) : bool :=
  bool_decide (cls ∈ elClassList e).

(** The position of the first element that satisfies [f], from [i] on. *)
Fixpoint findFrom (f : Element -> bool) (els : list Element) (i : nat) : option nat :=
  match els with
  | [] => None
  | e :: els' => if f e then Some i else findFrom f els' (S i)
  end.

(** [document.getElementById]: the first element of the document, in
    document order, with that id, or [null]. *)
Definition elementById (p : Page) (id : jsstring) : Ref :=
  findFrom (fun e => elConnected e && hasId id e) (elements p) 0.

Definition getElementById (id : jsstring) : M Ref :=
  fun p => Normal (elementById p id, p).

(** Whether [anc] is reached from [n] by following parents. *)
Fixpoint isDescendantOf (els : list Element) (fuel n anc : nat) : bool :=
  match fuel with
  | O => false
  | S fuel' =>
      match els !! n with
      | Some e =>
          match elParent e with
          | Some q => Nat.eqb q anc || isDescendantOf els fuel' q anc
          | None => false
          end
      | None => false
      end
  end.

Definition matchesUnder (els : list Element) (root : nat) (cls : jsstring) (n : nat) : bool :=
  isDescendantOf els (length els) n root
  && match els !! n with Some e => hasClass cls e | None => false end.

Definition selectAll (els : list Element) (root : nat) (cls : jsstring) : list nat :=
  List.filter (matchesUnder els root cls) (seq 0 (length els)).

(** [root.querySelectorAll('.cls')]: the descendants of [root] of that
    class, in document order. *)
Definition querySelectorAll (root : Ref) (cls : jsstring) : M (list nat) :=
  fun p => match root with
           | Some r => Normal (selectAll (elements p) r cls, p)
           | None => Throw
           end.

(** [root.querySelector('.cls')]: the first of them, or [null]. *)
Definition querySelector (root : Ref) (cls : jsstring) : M Ref :=
  let* all := querySelectorAll root cls in ret (head all).

Definition classList_contains (r : Ref) (tok : jsstring) : M bool :=
  readElement r (hasClass tok).

Definition removeToken (tok : jsstring) (l : list jsstring) : list jsstring :=
  List.filter (fun t => negb (bool_decide (t = tok))) l.

Definition addToken (tok : jsstring) (l : list jsstring) : list jsstring :=
  if bool_decide (tok ∈ l) then l else l ++ [tok].

Definition classList_add (r : Ref) (tok : jsstring) : M unit :=
  writeElement r (fun e => setClassList (addToken tok (elClassList e)) e).

(** [classList.toggle(tok)]: removes the token when present and answers
    [false], adds it otherwise and answers [true]. *)
Definition classList_toggle (r : Ref) (tok : jsstring) : M bool :=
  let* present := classList_contains r tok in
  if present
  then (writeElement r (fun e => setClassList (removeToken tok (elClassList e)) e);;; ret false)
  else (writeElement r (fun e => setClassList (elClassList e ++ [tok]) e);;; ret true).

Definition setAttribute (r : Ref) (name : string) (v : jsstring) : M unit :=
  writeElement r (fun e => setAttributes (<[name := v]> (elAttributes e)) e).

Definition getAttribute (r : Ref) (name : string) : M (option jsstring) :=
  readElement r (fun e => elAttributes e !! name).

(** Assigning [className] a literal: the literal's tokens become the class
    list. *)
Definition set_className (r : Ref) (tokens : list jsstring) : M unit :=
  writeElement r (setClassList tokens).

(** Assigning [textContent] replaces the children of the element by one
    text node.  The child elements leave the document, each with the
    subtree below it: a child loses its parent, and every element below
    the written one is no longer connected.  The script's references to
    them stay good.  When the focused element leaves the document the
    focus goes back to the body. *)
Definition isChildOf (els : list Element) (r n : nat) : bool :=
  negb (Nat.eqb n r)
  && match els !! n with
     | Some e => bool_decide (elParent e = Some r)
     | None => false
     end.

Definition isBelow (els : list Element) (r n : nat) : bool :=
  negb (Nat.eqb n r) && isDescendantOf els (length els) n r.

(** Whether [r] has no child element, as an element that holds text only. *)
Definition hasNoChild (els : list Element) (r : nat) : bool :=
  forallb (fun n => negb (isChildOf els r n)) (seq 0 (length els)).

Definition detachBelow (els : list Element) (r n : nat) (e : Element) : Element :=
  if isChildOf els r n then setConnected false (setParent None e)
  else if isBelow els r n then setConnected false e
  else e.

Definition removeChildren (els : list Element) (r : nat) : list Element :=
  imap (detachBelow els r) els.

Definition focusAfter (els : list Element) (r : nat) (active : option nat) : option nat :=
  match active with
  | Some a => if isBelow els r a then None else Some a
  | None => None
  end.

(** The page after the text [t] was assigned to [r], which was [e]. *)
Definition writeText (p : Page) (r : nat) (e : Element) (t : jsstring) : Page :=
  setActiveElement (focusAfter (elements p) r (activeElement p))
    (setElements (<[r := setText t e]> (removeChildren (elements p) r)) p).

Definition set_textContent (r : Ref) (t : jsstring) : M unit :=
  fun p => match r with
           | Some n =>
               match elements p !! n with
               | Some e => Normal (tt, writeText p n e t)
               | None => Throw
               end
           | None => Throw
           end.

Definition set_style_display (r : Ref) (d : jsstring) : M unit :=
  writeElement r (setDisplay d).

(** [r.value]: a string on a form control, [undefined] elsewhere. *)
Definition valueOf (e : Element) : JSValue :=
  match elValue e with
  | Some v => JSString v
  | None => JSUndefined
  end.

Definition get_value (r : Ref) : M JSValue := readElement r valueOf.

Definition matchMediaReducedMotion : M bool :=
  fun p => Normal (prefersReducedMotion p, p).

Definition setTimeout (cb : TimerCallback) (delay : Z) : M unit :=
  fun p => Normal (tt, setTimers (timers p ++ [mkTimer cb delay]) p).

Definition addEventListener (t : EventTarget) (type : string) (l : Listener) : M unit :=
  fun p => Normal (tt, setListeners (listeners p ++ [mkRegistration t type l]) p).

Definition console_warn (msg : jsstring) : M unit :=
  fun p => Normal (tt, setConsoleWarnings (consoleWarnings p ++ [msg]) p).

(** [list.forEach((x, index) => body)], from index [i] on. *)
Fixpoint forEachFrom {A : Type} (body : A -> nat -> M unit) (l : list A) (i : nat) : M unit :=
  match l with
  | [] => ret tt
  | x :: l' => body x i;;; forEachFrom body l' (S i)
  end.

Definition forEach {A : Type} (l : list A) (body : A -> nat -> M unit) : M unit :=
  forEachFrom body l 0.

Definition boolToString (b : bool) : jsstring := if b then js "true" else js "false".

Definition revealed : jsstring := js "revealed".
Definition chipCardClass : jsstring := js "chip-card".

(** The feedback classes and texts [checkGuess] assigns.  The source file
    holds the leading mark of each message as three characters. *)
Definition feedbackSuccess : list jsstring := [js "feedback-area"; js "success"].
Definition feedbackHidden : list jsstring := [js "feedback-area"; js "hidden"].
Definition feedbackError : list jsstring := [js "feedback-area"; js "error"].

Definition correctMessage (expectedPlaintext : jsstring) : jsstring :=
  [0xE2; 0x153; 0x201C] ++ js " Correct! The answer is " ++ [34] ++ expectedPlaintext
    ++ [34] ++ js ". Well done!".

Definition incorrectMessage : jsstring :=
  [0xE2; 0x153; 0x2014] ++ js " That's not quite right. Try again!".

(** ** app.js: the puzzle controller *)

Definition toggleChip (chipCard : Ref) : M unit :=
  if negb (truthy chipCard) then ret tt
  else
    let* isRevealed := classList_toggle chipCard revealed in
    setAttribute chipCard "aria-pressed" (boolToString isRevealed).

(** What a timer of [revealAllChips] does when it fires. *)
Definition runTimerCallback (cb : TimerCallback) : M unit :=
  match cb with
  | RevealCard card =>
      classList_add (Some card) revealed;;;
      setAttribute (Some card) "aria-pressed" (js "true")
  end.

Definition revealAllChips (containerId : jsstring) : M unit :=
  let* container := getElementById containerId in
  if negb (truthy container) then ret tt
  else
    let* chipCards := querySelectorAll container chipCardClass in
    let* prefersReduced := matchMediaReducedMotion in
    forEach chipCards (fun card index =>
      let* isRevealed := classList_contains (Some card) revealed in
      if negb isRevealed
      then
        let delay := if prefersReduced then 0%Z else (Z.of_nat index * 60)%Z in
        setTimeout (RevealCard card) delay
      else ret tt).

(** A non-empty attribute value is the only truthy result of
    [getAttribute]. *)
Definition attributeTruthy (a : option jsstring) : bool :=
  match a with
  | Some (_ :: _) => true
  | _ => false
  end.

Definition attributeValue (a : option jsstring) : JSValue :=
  match a with
  | Some v => JSString v
  | None => JSNull
  end.

(** The loop of [getDecodedText], threading the local [plaintext]. *)
Fixpoint decodedTextLoop (cards : list nat) (plaintext : jsstring) : M jsstring :=
  match cards with
  | [] => ret plaintext
  | card :: cards' =>
      let* encoded := getAttribute (Some card) "data-group" in
      if attributeTruthy encoded
      then decodedTextLoop cards' (plaintext ++ decodeGroup (attributeValue encoded))
      else decodedTextLoop cards' plaintext
  end.

Definition getDecodedText (containerId : jsstring) : M jsstring :=
  let* container := getElementById containerId in
  if negb (truthy container) then ret []
  else
    let* chipCards := querySelectorAll container chipCardClass in
    decodedTextLoop chipCards [].

Definition checkGuess (layerName expectedPlaintext : jsstring) : M unit :=
  let* guessInput := getElementById (layerName ++ js "Guess") in
  let* feedbackArea := getElementById (layerName ++ js "Feedback") in
  let* hintButton := getElementById (layerName ++ js "Hint") in
  if negb (truthy guessInput) || negb (truthy feedbackArea) then ret tt
  else
    let* value := get_value guessInput in
    let userGuess := normalizePlaintext value in
    let normalizedExpected := normalizePlaintext (JSString expectedPlaintext) in
    if bool_decide (userGuess = normalizedExpected) then
      set_className feedbackArea feedbackSuccess;;;
      set_textContent feedbackArea (correctMessage expectedPlaintext);;;
      if truthy hintButton then set_style_display hintButton (js "none") else ret tt
    else if bool_decide (userGuess = []) then
      set_className feedbackArea feedbackHidden;;;
      set_textContent feedbackArea []
    else
      set_className feedbackArea feedbackError;;;
      set_textContent feedbackArea incorrectMessage;;;
      if truthy hintButton then set_style_display hintButton (js "inline-block") else ret tt.

Definition showHint (layerName : jsstring) : M unit :=
  let* chipContainer := getElementById (layerName ++ js "Chips") in
  if negb (truthy chipContainer) then ret tt
  else
    let* firstCard := querySelector chipContainer chipCardClass in
    if truthy firstCard then
      let* isRevealed := classList_contains firstCard revealed in
      if negb isRevealed then toggleChip firstCard else ret tt
    else ret tt.

Definition initializePuzzle (layerName expectedPlaintext : jsstring) : M unit :=
  let* chipsContainer := getElementById (layerName ++ js "Chips") in
  let* revealAllBtn := getElementById (layerName ++ js "RevealAll") in
  let* checkGuessBtn := getElementById (layerName ++ js "CheckGuess") in
  let* hintBtn := getElementById (layerName ++ js "Hint") in
  let* guessInput := getElementById (layerName ++ js "Guess") in
  if negb (truthy chipsContainer) then
    console_warn (js "Puzzle container not found for " ++ layerName)
  else
    let* chipCards := querySelectorAll chipsContainer chipCardClass in
    forEach chipCards (fun card _ =>
      let* encoded := getAttribute (Some card) "data-group" in
      if attributeTruthy encoded then
        let decoded := decodeGroup (attributeValue encoded) in
        let* backFace := querySelector (Some card) (js "chip-back") in
        if truthy backFace then set_textContent backFace decoded else ret tt
      else ret tt);;;
    forEach chipCards (fun card _ =>
      addEventListener (OnElement card) "click" (ChipClick card);;;
      addEventListener (OnElement card) "keydown" (ChipKeydown card));;;
    match revealAllBtn with
    | Some btn =>
        addEventListener (OnElement btn) "click" (RevealAllClick (layerName ++ js "Chips"));;;
        addEventListener OnDocument "keydown" (RevealAllKeydown (layerName ++ js "Chips"))
    | None => ret tt
    end;;;
    match checkGuessBtn with
    | Some btn =>
        addEventListener (OnElement btn) "click" (CheckGuessClick layerName expectedPlaintext);;;
        match guessInput with
        | Some input =>
            addEventListener (OnElement input) "keypress"
              (GuessKeypress layerName expectedPlaintext)
        | None => ret tt
        end
    | None => ret tt
    end;;;
    match hintBtn with
    | Some btn => addEventListener (OnElement btn) "click" (HintClick layerName)
    | None => ret tt
    end;;;
    match guessInput with
    | Some input => addEventListener (OnElement input) "input" (GuessInput layerName)
    | None => ret tt
    end.

(** [isTextInputFocused]: the focused element is an input or a text area. *)
Definition isTextInputFocused : M bool :=
  fun p => match activeElement p with
           | Some n =>
               match elements p !! n with
               | Some e => Normal (bool_decide (elTagName e = js "INPUT")
                                   || bool_decide (elTagName e = js "TEXTAREA"), p)
               | None => Throw
               end
           | None => Normal (false, p)
           end.

(** The body of each registered listener, run on an event whose [key] is
    given (the click and input listeners do not read it; [preventDefault]
    leaves the page as modelled here alone). *)
Definition runListener (l : Listener) (key : jsstring) : M unit :=
  match l with
  | ChipClick card => toggleChip (Some card)
  | ChipKeydown card =>
      if bool_decide (key = js " ") || bool_decide (key = js "Enter")
      then toggleChip (Some card) else ret tt
  | RevealAllClick containerId => revealAllChips containerId
  | RevealAllKeydown containerId =>
      if bool_decide (key = js "r") || bool_decide (key = js "R") then
        let* focused := isTextInputFocused in
        if negb focused then revealAllChips containerId else ret tt
      else ret tt
  | CheckGuessClick layerName expectedPlaintext => checkGuess layerName expectedPlaintext
  | GuessKeypress layerName expectedPlaintext =>
      if bool_decide (key = js "Enter") then checkGuess layerName expectedPlaintext
      else ret tt
  | HintClick layerName => showHint layerName
  | GuessInput layerName =>
      let* feedbackArea := getElementById (layerName ++ js "Feedback") in
      if truthy feedbackArea then
        set_className feedbackArea feedbackHidden;;;
        set_textContent feedbackArea []
      else ret tt
  end.

(** ** Reading the puzzle state *)

(** A chip is Revealed when its card carries the class [revealed]. *)
Definition isRevealed (p : Page) (card : nat) : bool :=
  match elements p !! card with
  | Some e => hasClass revealed e
  | None => false
  end.

(** The feedback state of the specification, read off the feedback area. *)
Inductive Feedback : Type := FeedbackNone | FeedbackCorrect | FeedbackIncorrect | FeedbackOther.

Definition feedbackOf (e : Element) : Feedback :=
  if bool_decide (elClassList e = feedbackSuccess) then FeedbackCorrect
  else if bool_decide (elClassList e = feedbackError) then FeedbackIncorrect
  else if bool_decide (elClassList e = feedbackHidden) && bool_decide (elTextContent e = [])
  then FeedbackNone
  else FeedbackOther.

(** ** A page to run the controller on *)

Definition sampleElement (tag : string) (id : option string) (parent : option nat)
    (classes : list string) (group : option string) (value : option jsstring) : Element :=
  mkElement (js tag) (js <$> id) parent (js <$> classes)
    (match group with Some g => {["data-group" := js g]} | None => ∅ end)
    [] value [] true.

(** The puzzle of layer 4 cut down to two chips, the first one already
    revealed, with [guess] typed into the input. *)
Definition samplePage (guess : jsstring) : Page :=
  mkPage
    [ sampleElement "DIV" (Some "layer4Chips") None ["chip-container"] None None;
      sampleElement "BUTTON" None (Some 0%nat) ["chip-card"; "revealed"] (Some "BAAAB") None;
      sampleElement "SPAN" None (Some 1%nat) ["chip-back"] None None;
      sampleElement "BUTTON" None (Some 0%nat) ["chip-card"] (Some "AABAA") None;
      sampleElement "SPAN" None (Some 3%nat) ["chip-back"] None None;
      sampleElement "INPUT" (Some "layer4Guess") None [] None (Some guess);
      sampleElement "DIV" (Some "layer4Feedback") None ["feedback-area"; "hidden"] None None;
      sampleElement "BUTTON" (Some "layer4Hint") None [] None None ]%string
    None false [] [] [].

(** ** Timers firing, and what the controller leaves on a card *)

(** Timers fire in the order of their delays, timers of the same delay in
    the order they were set. *)
Fixpoint insertTimer (t : Timer) (ts : list Timer) : list Timer :=
  match ts with
  | [] => [t]
  | u :: ts' =>
      if (timerDelay t <? timerDelay u)%Z then t :: u :: ts'
      else u :: insertTimer t ts'
  end.

Definition firingOrder (ts : list Timer) : list Timer :=
  fold_left (fun fired t => insertTimer t fired) ts [].

Fixpoint runCallbacks (ts : list Timer) : M unit :=
  match ts with
  | [] => ret tt
  | t :: ts' => runTimerCallback (timerCallback t);;; runCallbacks ts'
  end.

(** The event loop running every pending timer of the page. *)
Definition runPendingTimers : M unit :=
  fun p => runCallbacks (firingOrder (timers p)) (setTimers [] p).

(** A card as [toggleChip] leaves it. *)
Definition toggledCard (e : Element) : Element :=
  if hasClass revealed e
  then setAttributes (<["aria-pressed" := js "false"]> (elAttributes e))
         (setClassList (removeToken revealed (elClassList e)) e)
  else setAttributes (<["aria-pressed" := js "true"]> (elAttributes e))
         (setClassList (elClassList e ++ [revealed]) e).

(** A card as a timer of [revealAllChips] leaves it. *)
Definition revealedCard (e : Element) : Element :=
  setAttributes (<["aria-pressed" := js "true"]> (elAttributes e))
    (setClassList (addToken revealed (elClassList e)) e).

(** The chip cards of a container, in document order. *)
Definition chipCardsOf (p : Page) (containerId : jsstring) : list nat :=
  match elementById p containerId with
  | Some r => selectAll (elements p) r chipCardClass
  | None => []
  end.

(** The timers the loop of [revealAllChips] sets for [cards], the first
    of them at index [i]: one for each card that is not revealed. *)
Fixpoint scheduleFrom (reduced : bool) (p : Page) (cards : list nat) (i : nat) : list Timer :=
  match cards with
  | [] => []
  | card :: cards' =>
      (if isRevealed p card then []
       else [mkTimer (RevealCard card) (if reduced then 0%Z else (Z.of_nat i * 60)%Z)])
      ++ scheduleFrom reduced p cards' (S i)
  end.

(** The card a timer reveals. *)
Definition timerCard (t : Timer) : nat :=
  match timerCallback t with RevealCard card => card end.

(** What [getDecodedText] reads off a card: the array slot that holds its
    group, a hole when the attribute is missing or empty. *)
Definition groupSlot (p : Page) (card : nat) : option JSValue :=
  match elements p !! card with
  | Some e =>
      if attributeTruthy (elAttributes e !! "data-group")
      then Some (attributeValue (elAttributes e !! "data-group"))
      else None
  | None => None
  end.

(** The page after [checkGuess] has written class and text of the
    feedback area [fa], and after it has then set the display of the hint
    button of the puzzle, if there is one. *)
Definition feedbackPage (p : Page) (fa : nat) (cls : list jsstring) (txt : jsstring) : Page :=
  match elements p !! fa with
  | Some fe =>
      writeText (setElements (<[fa := setClassList cls fe]> (elements p)) p)
        fa (setClassList cls fe) txt
  | None => p
  end.

Definition hintPage (hint : Ref) (d : jsstring) (q : Page) : Page :=
  match hint with
  | Some h =>
      match elements q !! h with
      | Some he => setElements (<[h := setDisplay d he]> (elements q)) q
      | None => q
      end
  | None => q
  end.

(** ** What [initializePuzzle] writes and registers *)

(** The back face of a card: its first descendant of class [chip-back]. *)
Definition backFaceOf (els : list Element) (card : nat) : Ref :=
  head (selectAll els card (js "chip-back")).

(** The write the first loop of [initializePuzzle] makes for a card: the
    decoded letter into the back face, when the card has a group and a
    back face. *)
Definition letterWrite (els : list Element) (card : nat) : option (nat * jsstring) :=
  match els !! card with
  | Some e =>
      if attributeTruthy (elAttributes e !! "data-group")
      then match backFaceOf els card with
           | Some b => Some (b, decodeGroup (attributeValue (elAttributes e !! "data-group")))
           | None => None
           end
      else None
  | None => None
  end.

(** A write of the loop to a back face that holds text only. *)
Definition applyWrite (els : list Element) (w : nat * jsstring) : list Element :=
  match els !! w.1 with
  | Some e => <[w.1 := setText w.2 e]> els
  | None => els
  end.

(** Whether the back face of each chip of the container holds text only:
    no back face has a child element. *)
Definition backFacesHoldText (p : Page) (containerId : jsstring) : bool :=
  forallb (fun card => match backFaceOf (elements p) card with
                       | Some b => hasNoChild (elements p) b
                       | None => true
                       end)
    (chipCardsOf p containerId).

(** The listeners of the second loop, two for each card. *)
Definition chipListeners (cards : list nat) : list Registration :=
  flat_map (fun card => [mkRegistration (OnElement card) "click" (ChipClick card);
                         mkRegistration (OnElement card) "keydown" (ChipKeydown card)])
    cards.

(** The listeners of the controls of the puzzle that are present. *)
Definition controlListeners (p : Page) (layerName expectedPlaintext : jsstring)
  : list Registration :=
  match elementById p (layerName ++ js "RevealAll") with
  | Some btn =>
      [mkRegistration (OnElement btn) "click" (RevealAllClick (layerName ++ js "Chips"));
       mkRegistration OnDocument "keydown" (RevealAllKeydown (layerName ++ js "Chips"))]
  | None => []
  end
  ++ match elementById p (layerName ++ js "CheckGuess") with
     | Some btn =>
         mkRegistration (OnElement btn) "click" (CheckGuessClick layerName expectedPlaintext)
         :: match elementById p (layerName ++ js "Guess") with
            | Some input =>
                [mkRegistration (OnElement input) "keypress"
                   (GuessKeypress layerName expectedPlaintext)]
            | None => []
            end
     | None => []
     end
  ++ match elementById p (layerName ++ js "Hint") with
     | Some btn => [mkRegistration (OnElement btn) "click" (HintClick layerName)]
     | None => []
     end
  ++ match elementById p (layerName ++ js "Guess") with
     | Some input => [mkRegistration (OnElement input) "input" (GuessInput layerName)]
     | None => []
     end.

(** The text of element [n] after a sequence of writes, [t] being its
    text before: the last write to [n] wins. *)
Definition textAfter (ws : list (nat * jsstring)) (n : nat) (t : jsstring) : jsstring :=
  fold_left (fun t w => if decide (w.1 = n) then w.2 else t) ws t.

(** ** app.js: theme and navigation *)

(** What the theme and navigation code reaches besides the elements of the
    page: the class list of the root element [document.documentElement]
    (the elements of [Page] are the ones below the root), the local
    storage, the path of the location, and the listeners this part of the
    file registers. *)
Inductive SiteListener : Type :=
| ThemeToggleClick
| ThemeKeydown
| NavResize.

Inductive SiteTarget : Type :=
| OnWindow
| OnTheDocument
| OnTheElement (el : nat).

Record SiteRegistration : Type := mkSiteRegistration {
  siteTarget : SiteTarget;
  siteType : string;
  siteListener : SiteListener
}.

Record Browser : Type := mkBrowser {
  page : Page;
  rootClassList : list jsstring;
  localStorage : gmap string jsstring;
  pathname : jsstring;
  siteListeners : list SiteRegistration
}.

Definition setPage (q : Page) (b : Browser) : Browser :=
  mkBrowser q (rootClassList b) (localStorage b) (pathname b) (siteListeners b).

Definition setRootClassList (l : list jsstring) (b : Browser) : Browser :=
  mkBrowser (page b) l (localStorage b) (pathname b) (siteListeners b).

Definition setLocalStorage (m : gmap string jsstring) (b : Browser) : Browser :=
  mkBrowser (page b) (rootClassList b) m (pathname b) (siteListeners b).

Definition setSiteListeners (ls : list SiteRegistration) (b : Browser) : Browser :=
  mkBrowser (page b) (rootClassList b) (localStorage b) (pathname b) ls.

(** A computation on the browser; an exception ends it. *)
Definition B (A : Type) : Type := Browser -> Completion (A * Browser).

Definition retB {A : Type} (a : A) : B A := fun b => Normal (a, b).

Definition bindB {A C : Type} (c : B A) (k : A -> B C) : B C :=
  fun b => match c b with
           | Normal (a, b') => k a b'
           | Throw => Throw
           end.

Notation "'let+' x ':=' c 'in' k" := (bindB c (fun x => k))
  (at level 10, x name, c at level 200, k at level 200).
Notation "c ';;+' k" := (bindB c (fun _ => k))
  (at level 100, k at level 200, right associativity).

(** A computation on the page, run in the browser. *)
Definition onPage {A : Type} (c : M A) : B A :=
  fun b => match c (page b) with
           | Normal (a, q) => Normal (a, setPage q b)
           | Throw => Throw
           end.

Definition root_classList_contains (tok : jsstring) : B bool :=
  fun b => Normal (bool_decide (tok ∈ rootClassList b), b).

Definition root_classList_add (tok : jsstring) : B unit :=
  fun b => Normal (tt, setRootClassList (addToken tok (rootClassList b)) b).

Definition root_classList_toggle (tok : jsstring) : B bool :=
  fun b => if bool_decide (tok ∈ rootClassList b)
           then Normal (false, setRootClassList (removeToken tok (rootClassList b)) b)
           else Normal (true, setRootClassList (rootClassList b ++ [tok]) b).

Definition localStorage_getItem (key : string) : B (option jsstring) :=
  fun b => Normal (localStorage b !! key, b).

Definition localStorage_setItem (key : string) (v : jsstring) : B unit :=
  fun b => Normal (tt, setLocalStorage (<[key := v]> (localStorage b)) b).

Definition location_pathname : B jsstring := fun b => Normal (pathname b, b).

Definition addSiteListener (t : SiteTarget) (type : string) (l : SiteListener) : B unit :=
  fun b => Normal (tt, setSiteListeners (siteListeners b ++ [mkSiteRegistration t type l]) b).

Definition darkMode : jsstring := js "dark-mode".

(** The two icons, as the source file holds them. *)
Definition sunIcon : jsstring := [0xE2; 0x2DC; 0x20AC; 0xEF; 0xB8].
Definition moonIcon : jsstring := [0xF0; 0x178; 0x152; 0x2122].

Definition updateThemeIcon : B unit :=
  let+ themeToggle := onPage (getElementById (js "themeToggle")) in
  if negb (truthy themeToggle) then retB tt
  else
    let+ isDarkMode := root_classList_contains darkMode in
    let+ icon := onPage (querySelector themeToggle (js "theme-icon")) in
    onPage (set_textContent icon (if isDarkMode then sunIcon else moonIcon));;+
    onPage (setAttribute themeToggle "aria-label"
              (if isDarkMode then js "Toggle light mode" else js "Toggle dark mode")).

Definition toggleDarkMode : B unit :=
  let+ isDarkMode := root_classList_toggle darkMode in
  localStorage_setItem "theme" (if isDarkMode then js "dark" else js "light");;+
  updateThemeIcon.

Definition initializeDarkMode : B unit :=
  let+ themeToggle := onPage (getElementById (js "themeToggle")) in
  match themeToggle with
  | None => retB tt
  | Some toggle =>
      let+ savedTheme := localStorage_getItem "theme" in
      (if bool_decide (savedTheme = Some (js "dark"))
       then root_classList_add darkMode;;+ updateThemeIcon
       else retB tt);;+
      addSiteListener (OnTheElement toggle) "click" ThemeToggleClick;;+
      addSiteListener OnTheDocument "keydown" ThemeKeydown
  end.

(** [s.split(sep)] for a separator of one character. *)
Fixpoint splitOn (sep : N) (s : jsstring) : list jsstring :=
  match s with
  | [] => [[]]
  | c :: s' =>
      if c =? sep then [] :: splitOn sep s'
      else match splitOn sep s' with
           | seg :: rest => (c :: seg) :: rest
           | [] => [[c]]
           end
  end.

(** [segments.pop() || 'index.html']: the last segment, and the default
    when it is the empty string. *)
Definition pageName (path : jsstring) : jsstring :=
  match last (splitOn 47 path) with
  | Some (c :: seg) => c :: seg
  | _ => js "index.html"
  end.

Definition navLinkClass : jsstring := js "nav-link".
Definition activeClass : jsstring := js "active".

(** [document.querySelectorAll('.cls')]: the elements of that class, in
    document order. *)
Definition document_querySelectorAll (cls : jsstring) : M (list nat) :=
  fun p => Normal (List.filter
                     (fun n => match elements p !! n with
                               | Some e => elConnected e && hasClass cls e
                               | None => false
                               end)
                     (seq 0 (length (elements p))), p).

Definition classList_remove (r : Ref) (tok : jsstring) : M unit :=
  writeElement r (fun e => setClassList (removeToken tok (elClassList e)) e).

(** [href.split('/')] on the [null] of a missing attribute is a
    [TypeError]. *)
Definition updateActiveNavLink : B unit :=
  let+ currentPath := location_pathname in
  onPage (
    let* navLinks := document_querySelectorAll navLinkClass in
    forEach navLinks (fun link _ =>
      classList_remove (Some link) activeClass;;;
      let* href := getAttribute (Some link) "href" in
      match href with
      | None => fun _ => Throw
      | Some h =>
          let linkPath := pageName h in
          let currentPageName := pageName currentPath in
          if bool_decide (linkPath = currentPageName)
             || (bool_decide (linkPath = js "index.html")
                 && bool_decide (currentPath = js "/"))
          then classList_add (Some link) activeClass
          else ret tt
      end)).

(** The handler of [DOMContentLoaded]. *)
Definition onDOMContentLoaded : B unit :=
  initializeDarkMode;;+
  updateActiveNavLink;;+
  addSiteListener OnWindow "resize" NavResize.

(** The listeners of this part of the file, run on an event with [key]. *)
Definition runSiteListener (l : SiteListener) (key : jsstring) : B unit :=
  match l with
  | ThemeToggleClick => toggleDarkMode
  | ThemeKeydown =>
      if bool_decide (key = js "d") || bool_decide (key = js "D") then
        let+ focused := onPage isTextInputFocused in
        if negb focused then toggleDarkMode else retB tt
      else retB tt
  | NavResize => updateActiveNavLink
  end.

(** A nav link as [updateActiveNavLink] leaves it on the page at [path]. *)
Definition navMarked (path : jsstring) (e : Element) : Element :=
  match elAttributes e !! "href" with
  | Some h =>
      if bool_decide (pageName h = pageName path)
      then setClassList (addToken activeClass (removeToken activeClass (elClassList e))) e
      else setClassList (removeToken activeClass (elClassList e)) e
  | None => e
  end.

(** Whether the root element carries the class [dark-mode]. *)
Definition isDark (b : Browser) : bool := bool_decide (darkMode ∈ rootClassList b).

Definition navLinksOf (p : Page) : list nat :=
  List.filter (fun n => match elements p !! n with
                        | Some e => elConnected e && hasClass navLinkClass e
                        | None => false
                        end)
    (seq 0 (length (elements p))).

(** The icon of the theme button: its first descendant of class
    [theme-icon]. *)
Definition themeIconOf (p : Page) : Ref :=
  match elementById p (js "themeToggle") with
  | Some toggle => head (selectAll (elements p) toggle (js "theme-icon"))
  | None => None
  end.

Definition markLink (path : jsstring) (els : list Element) (link : nat) : list Element :=
  match els !! link with
  | Some e => <[link := navMarked path e]> els
  | None => els
  end.

(** ** baconian.js: the self-test *)

Inductive ConsoleLevel : Type := LevelLog | LevelWarn.

(** A call of [console.log] or [console.warn], with its arguments. *)
Record ConsoleEntry : Type := mkConsoleEntry {
  entryLevel : ConsoleLevel;
  entryArgs : list jsstring
}.

(** The counters of [runTests] and what it has printed. *)
Record TestRun : Type := mkTestRun {
  passed : Z;
  failed : Z;
  output : list ConsoleEntry
}.

Definition numberToString (z : Z) : jsstring := js (NilZero.string_of_int (Z.to_int z)).

Definition checkMark : jsstring := [0x2713].
Definition crossMark : jsstring := [0x2717].
Definition arrow : jsstring := [0x2192].

Definition countPass (run : TestRun) (message : jsstring) : TestRun :=
  mkTestRun (passed run + 1) (failed run) (output run ++ [mkConsoleEntry LevelLog [message]]).

Definition countFail (run : TestRun) (message : jsstring) : TestRun :=
  mkTestRun (passed run) (failed run + 1) (output run ++ [mkConsoleEntry LevelWarn [message]]).

(** input, expected, description *)
Definition testCases : list (jsstring * jsstring * jsstring) :=
  [ (js "BAAAB", js "R", js "R (10001)");
    (js "AABAA", js "E", js "E (00100)");
    (js "BAABA", js "S", js "S (10010)");
    (js "AAAAA", js "A", js "A (00000)");
    (js "AAAAB", js "B", js "B (00001)");
    (js "ABBBA", js "O", js "O (01110)") ].

Definition normTests : list (jsstring * jsstring) :=
  [ (js "Hello World!", js "HELLOWORLD");
    (js "ReliAbLE", js "RELIABLE");
    (js "SeSsIoN", js "SESSION") ].

Definition reliableGroups : list jsstring :=
  [js "BAAAB"; js "AABAA"; js "ABABB"; js "ABAAA"; js "AAAAA"; js "AAAAB"; js "ABABB";
   js "AABAA"].

Definition sessionGroups : list jsstring :=
  [js "BAABA"; js "AABAA"; js "BAABA"; js "BAABA"; js "ABAAA"; js "ABBBA"; js "ABBAB"].

Definition arrayOfStrings (l : list jsstring) : JSValue :=
  JSArray (map (fun g => Some (JSString g)) l).

Definition runDecodeCase (run : TestRun) (test : jsstring * jsstring * jsstring) : TestRun :=
  let '(input, expected, description) := test in
  let result := decodeGroup (JSString input) in
  if bool_decide (result = expected)
  then countPass run (checkMark ++ js " " ++ description ++ js ": " ++ input ++ js " " ++ arrow
                   ++ js " '" ++ result ++ js "'")
  else countFail run (crossMark ++ js " " ++ description ++ js ": " ++ input ++ js " " ++ arrow
                   ++ js " '" ++ result ++ js "' (expected '" ++ expected ++ js "')").

Definition runNormCase (run : TestRun) (test : jsstring * jsstring) : TestRun :=
  let '(input, expected) := test in
  let result := normalizePlaintext (JSString input) in
  if bool_decide (result = expected)
  then countPass run (checkMark ++ js " Normalize: '" ++ input ++ js "' " ++ arrow
                   ++ js " '" ++ result ++ js "'")
  else countFail run (crossMark ++ js " Normalize: '" ++ input ++ js "' " ++ arrow
                   ++ js " '" ++ result ++ js "' (expected '" ++ expected ++ js "')").

Definition runGroupsCase (run : TestRun) (groups : list jsstring) (name : jsstring) : TestRun :=
  let result := decodeGroups (arrayOfStrings groups) in
  if bool_decide (result = name)
  then countPass run (checkMark ++ js " Decode Groups: " ++ name ++ js " puzzle decoded correctly")
  else countFail run (crossMark ++ js " Decode Groups: " ++ name ++ js " puzzle decoded to '"
                   ++ result ++ js "'").

Definition runTests : TestRun :=
  let run0 := mkTestRun 0 0
                [mkConsoleEntry LevelLog
                   [js "%c=== Baconian Cipher Decoder Tests ===";
                    js "color: #3498db; font-weight: bold;"]] in
  let run1 := fold_left runDecodeCase testCases run0 in
  let run2 := fold_left runNormCase normTests run1 in
  let run3 := runGroupsCase run2 reliableGroups (js "RELIABLE") in
  let run4 := runGroupsCase run3 sessionGroups (js "SESSION") in
  mkTestRun (passed run4) (failed run4)
    (output run4
       ++ [mkConsoleEntry LevelLog
             [js "%c=== Tests Complete: " ++ numberToString (passed run4) ++ js " passed, "
                ++ numberToString (failed run4) ++ js " failed ===";
              if (failed run4 =? 0)%Z then js "color: #27ae60; font-weight: bold;"
              else js "color: #e74c3c; font-weight: bold;"]]).

(** ** A browser to run the theme and navigation code on *)

Definition linkElement (href : option string) : Element :=
  mkElement (js "A") None None [js "nav-link"; js "active"]
    (match href with Some h => {["href" := js h]} | None => ∅ end)
    [] None [] true.

(** The header of the site: the theme button with its icon (when [icon] is
    set) and the three links, the first one marked active in the markup. *)
Definition sitePage (icon : bool) (lastLink : option string) : Page :=
  mkPage
    [ sampleElement "BUTTON" (Some "themeToggle") None ["theme-toggle"] None None;
      sampleElement "SPAN" None (Some 0%nat) [if icon then "theme-icon" else "label"] None None;
      linkElement (Some "index.html");
      mkElement (js "A") None None [js "nav-link"] {["href" := js "./layer4.html"]} [] None [] true;
      mkElement (js "A") None None [js "nav-link"]
        (match lastLink with Some h => {["href" := js h]} | None => ∅ end) [] None [] true ]%string
    None false [] [] [].

Definition sampleBrowser (icon : bool) (lastLink : option string) (path : string)
    (storage : gmap string jsstring) : Browser :=
  mkBrowser (sitePage icon lastLink) [] storage (js path) [].

(** A container whose second chip is the back face of the first one, and
    has a back face of its own. *)
Definition nestedPage : Page :=
  mkPage
    [ sampleElement "DIV" (Some "layer4Chips") None ["chip-container"] None None;
      sampleElement "BUTTON" None (Some 0%nat) ["chip-card"] (Some "BAAAB") None;
      sampleElement "SPAN" None (Some 1%nat) ["chip-back"; "chip-card"] (Some "AABAA") None;
      sampleElement "SPAN" None (Some 2%nat) ["chip-back"] None None ]%string
    None false [] [] [].

(** The header with the last link put inside the icon of the theme
    button. *)
Definition iconLinkPage : Page :=
  mkPage
    [ sampleElement "BUTTON" (Some "themeToggle") None ["theme-toggle"] None None;
      sampleElement "SPAN" None (Some 0%nat) ["theme-icon"] None None;
      mkElement (js "A") None (Some 1%nat) [js "nav-link"]
        {["href" := js "layer4.html"]} [] None [] true ]%string
    None false [] [] [].

(** The sample page with both chips revealed, and with a timer for the
    first chip pending. *)
Definition revealedSamplePage : Page :=
  setElements
    (<[3%nat := revealedCard
                  (sampleElement "BUTTON" None (Some 0%nat) ["chip-card"]%string
                     (Some "AABAA"%string) None)]> (elements (samplePage [])))
    (samplePage []).

Definition pendingSamplePage : Page :=
  setTimers [mkTimer (RevealCard 1) 0] (samplePage []).

(** ** The code table of the codec *)

(** The header of [baconian.js] gives the table the decoder is written
    against: the index of a letter, 0 to 25, in five binary digits, most
    significant first, 0 written 'A' and 1 written 'B'.  The file has no
    encoder; [encodeIndex] is that table. *)
Definition bitSymbol (b : bool) : N := if b then charB else charA.

Definition encodeIndex (i : N) : jsstring :=
  map (fun k => bitSymbol (N.testbit i k)) [4; 3; 2; 1; 0].

(** The slots of an array that are not holes. *)
Definition presentSlots (elems : list (option JSValue)) : list JSValue :=
  omap id elems.

(** * Properties of the codec *)

(** ** Code points and upper-casing of ASCII text *)

Lemma CodePointToUTF16_bmp (cp : N) : cp < 0x10000 -> CodePointToUTF16 cp = [cp].
Proof.
  intros H. unfold CodePointToUTF16.
  destruct (N.ltb_spec cp 0x10000); [reflexivity | lia].
Qed.

Lemma isLeadSurrogate_small (c : N) : c < 0xD800 -> isLeadSurrogate c = false.
Proof.
  intros H. unfold isLeadSurrogate.
  destruct (N.leb_spec 0xD800 c); [lia | reflexivity].
Qed.

Lemma StringToCodePoints_ascii (s : jsstring) :
  Forall (fun c => c < 128) s -> StringToCodePoints s = s.
Proof.
  induction 1 as [|c rest Hc Hrest IH]; [reflexivity|].
  cbn [StringToCodePoints]. destruct rest as [|d rest']; [reflexivity|].
  rewrite isLeadSurrogate_small by lia. cbn [andb]. now rewrite IH.
Qed.

(** A string whose code points are all ASCII has no surrogate pair. *)
Lemma StringToCodePoints_ascii_inv (s : jsstring) :
  Forall (fun c => c < 128) (StringToCodePoints s) -> StringToCodePoints s = s.
Proof.
  induction s as [|c rest IH]; [reflexivity|].
  cbn [StringToCodePoints]. destruct rest as [|d rest']; [reflexivity|].
  destruct (isLeadSurrogate c && isTrailSurrogate d) eqn:Hpair.
  - intros H. apply Forall_cons_1 in H as [H _].
    unfold UTF16SurrogatePairToCodePoint in H. lia.
  - intros H. apply Forall_cons_1 in H as [_ H]. now rewrite IH.
Qed.

Lemma toUpperCase_ascii (s : jsstring) :
  Forall (fun c => c < 128) s -> toUpperCase s = map asciiToUpper s.
Proof.
  intros H. unfold toUpperCase. rewrite StringToCodePoints_ascii by exact H.
  induction H as [|c rest Hc Hrest IH]; [reflexivity|].
  cbn [flat_map map]. unfold toUppercaseCodePoint at 1.
  destruct (N.ltb_spec c 128); [|lia].
  cbn [app flat_map]. rewrite CodePointToUTF16_bmp.
  - cbn [app]. now rewrite IH.
  - unfold asciiToUpper. destruct (isAsciiLower c); lia.
Qed.

(** ** The decoding loop and [parseInt] *)

Lemma decodeLoop_spec (l : jsstring) (n i : nat) (acc : jsstring) :
  (i + n = length l)%nat ->
  decodeLoop l i n acc =
    if forallb isAB (drop i l) then Some (acc ++ map bitDigit (drop i l)) else None.
Proof.
  revert i acc. induction n as [|n IH]; intros i acc Hlen.
  - cbn [decodeLoop]. rewrite drop_ge by lia. cbn. now rewrite app_nil_r.
  - cbn [decodeLoop].
    destruct (l !! i) as [c|] eqn:Hi.
    2:{ apply lookup_ge_None in Hi. lia. }
    rewrite (drop_S _ _ _ Hi). cbn [forallb map].
    unfold isAB at 1, bitDigit at 1.
    destruct (c =? charA) eqn:HA.
    + cbn [orb andb]. rewrite IH by lia. unfold js. cbn [list_ascii_of_string map N_of_ascii].
      destruct (forallb isAB (drop (S i) l)); [|reflexivity].
      now rewrite <- app_assoc.
    + destruct (c =? charB) eqn:HB; [|reflexivity].
      cbn [orb andb]. rewrite IH by lia.
      destruct (forallb isAB (drop (S i) l)); [|reflexivity].
      now rewrite <- app_assoc.
Qed.

Lemma parseBinaryDigits_some (l : jsstring) (a : Z) :
  forallb isAB l = true ->
  parseBinaryDigits (map bitDigit l) (Some a) =
    Some (fold_left (fun v c => (2 * v + abBit c)%Z) l a).
Proof.
  revert a. induction l as [|c l IH]; intros a H; [reflexivity|].
  cbn [forallb] in H. apply andb_true_iff in H as [Hc Hl].
  cbn [map parseBinaryDigits fold_left].
  unfold isAB in Hc. apply orb_true_iff in Hc.
  destruct Hc as [Hc|Hc]; apply N.eqb_eq in Hc; subst c; cbn.
  - rewrite IH by exact Hl. now rewrite Z.add_0_r.
  - now rewrite IH by exact Hl.
Qed.

Lemma parseInt2_digits (l : jsstring) :
  l <> [] -> forallb isAB l = true ->
  parseInt2 (map bitDigit l) = Some (groupValue l).
Proof.
  intros Hne H. destruct l as [|c l]; [congruence|].
  unfold parseInt2, groupValue. cbn [forallb] in H.
  apply andb_true_iff in H as [Hc Hl].
  cbn [map parseBinaryDigits fold_left].
  unfold isAB in Hc. apply orb_true_iff in Hc.
  destruct Hc as [Hc|Hc]; apply N.eqb_eq in Hc; subst c; cbn;
    now apply parseBinaryDigits_some.
Qed.

Lemma abBit_range (c : N) : (0 <= abBit c <= 1)%Z.
Proof. unfold abBit. destruct (c =? charB); lia. Qed.

Lemma groupValue_nonneg (l : jsstring) : (0 <= groupValue l)%Z.
Proof.
  unfold groupValue.
  assert (H : forall a, (0 <= a)%Z ->
                (0 <= fold_left (fun v c => (2 * v + abBit c)%Z) l a)%Z).
  { induction l as [|c l IH]; intros a Ha; [exact Ha|].
    cbn [fold_left]. apply IH. pose proof (abBit_range c). lia. }
  apply H. lia.
Qed.

Lemma groupValue_range5 (l : jsstring) :
  length l = 5%nat -> (0 <= groupValue l <= 31)%Z.
Proof.
  intros H. destruct l as [|a [|b [|c [|d [|e [|? ?]]]]]]; try discriminate.
  unfold groupValue. cbn [fold_left].
  pose proof (abBit_range a). pose proof (abBit_range b).
  pose proof (abBit_range c). pose proof (abBit_range d).
  pose proof (abBit_range e). lia.
Qed.

(** [decodeGroup] on a string, in terms of the normalized string. *)
Lemma decodeGroup_string (s : jsstring) :
  decodeGroup (JSString s) =
    if Nat.eqb (length (toUpperCase s)) 5 && forallb isAB (toUpperCase s)
    then if (groupValue (toUpperCase s) <=? 25)%Z
         then letterAt (groupValue (toUpperCase s)) else unknown
    else unknown.
Proof.
  unfold decodeGroup. cbn [ToBoolean typeofIsString negb orb].
  destruct s as [|c0 s0] eqn:Hs; [reflexivity|]. rewrite <- Hs. clear Hs c0 s0.
  replace (negb (negb (Nat.eqb (length s) 0)) || false)
    with (Nat.eqb (length s) 0) by (destruct (Nat.eqb (length s) 0); reflexivity).
  destruct (Nat.eqb (length s) 0) eqn:Hlen.
  - apply Nat.eqb_eq in Hlen. destruct s; [reflexivity | discriminate].
  - cbv zeta. destruct (Nat.eqb (length (toUpperCase s)) 5) eqn:H5; [|reflexivity].
    cbn [negb andb]. apply Nat.eqb_eq in H5.
    rewrite decodeLoop_spec by (rewrite H5; reflexivity).
    rewrite drop_0. destruct (forallb isAB (toUpperCase s)) eqn:HAB; [|reflexivity].
    cbn [app]. rewrite parseInt2_digits; [|intros E; rewrite E in H5; discriminate|exact HAB].
    pose proof (groupValue_range5 _ H5) as Hr.
    destruct (Z.ltb_spec (groupValue (toUpperCase s)) 0); [lia|]. cbn [orb].
    destruct (Z.ltb_spec 25 (groupValue (toUpperCase s)));
      destruct (Z.leb_spec (groupValue (toUpperCase s)) 25); try lia; [reflexivity|].
    unfold fromCharCode, letterAt. rewrite Z.mod_small by lia. reflexivity.
Qed.

Lemma decodeGroup_not_string (v : JSValue) :
  typeofIsString v = false -> decodeGroup v = unknown.
Proof.
  intros H. unfold decodeGroup. rewrite H. cbn [negb].
  now rewrite orb_true_r.
Qed.

(** Whatever it is given, [decodeGroup] answers one code unit: the
    question mark or a capital letter. *)
Lemma decodeGroup_single (v : JSValue) :
  exists c, decodeGroup v = [c] /\ (c = 63 \/ 65 <= c <= 90).
Proof.
  destruct (typeofIsString v) eqn:Hty.
  - destruct v; try discriminate. rewrite decodeGroup_string.
    destruct (Nat.eqb (length (toUpperCase s)) 5) eqn:H5;
      [|exists 63; split; [reflexivity | now left]].
    destruct (forallb isAB (toUpperCase s));
      [|exists 63; split; [reflexivity | now left]].
    cbn [andb]. apply Nat.eqb_eq in H5.
    pose proof (groupValue_range5 _ H5) as Hr.
    destruct (Z.leb_spec (groupValue (toUpperCase s)) 25);
      [|exists 63; split; [reflexivity | now left]].
    exists (Z.to_N (65 + groupValue (toUpperCase s))). split; [reflexivity|].
    right. lia.
  - exists 63. split; [now apply decodeGroup_not_string | now left].
Qed.

Lemma decodeGroups_dense (vs : list JSValue) :
  decodeGroups (JSArray (map Some vs)) = flat_map decodeGroup vs.
Proof.
  unfold decodeGroups, joinEmpty.
  induction vs as [|v vs IH]; [reflexivity|].
  cbn [map option_map flat_map]. now rewrite IH.
Qed.

Lemma forallb_isAB_Forall (l : jsstring) :
  forallb isAB l = true <-> Forall (fun c => c = charA \/ c = charB) l.
Proof.
  induction l as [|c l IH]; cbn [forallb].
  - split; [constructor | reflexivity].
  - rewrite andb_true_iff, IH, Forall_cons. unfold isAB.
    rewrite orb_true_iff, !N.eqb_eq. reflexivity.
Qed.

Lemma forallb_isAB_false (l : jsstring) :
  forallb isAB l = false <-> exists c, c ∈ l /\ c <> charA /\ c <> charB.
Proof.
  split.
  - intros H. destruct (Forall_Exists_dec (fun c => c = charA \/ c = charB)
                          (fun c => c <> charA /\ c <> charB) (fun c =>
                          match N.eq_dec c charA, N.eq_dec c charB with
                          | left e, _ => left (or_introl e)
                          | _, left e => left (or_intror e)
                          | right a, right b => right (conj a b)
                          end) l) as [HF|HE].
    + apply forallb_isAB_Forall in HF. congruence.
    + apply Exists_exists in HE. exact HE.
  - intros (c & Hin & HA & HB). destruct (forallb isAB l) eqn:E; [|reflexivity].
    apply forallb_isAB_Forall in E. rewrite Forall_forall in E.
    destruct (E c Hin); contradiction.
Qed.

(** ** The claims about the codec *)

(** C1: a string whose upper-casing is five symbols of {A,B} decodes to
    the letter at the offset, from 'A', of the five symbols read as a binary
    number (A = 0, B = 1, most significant first) when that number is at
    most 25; AAAAA, BAAAB, ABBBA and AABAA decode to A, R, O and E. *)
Theorem decodeGroup_five_bit_letter :
  (forall (s : jsstring) (c0 c1 c2 c3 c4 : N),
      toUpperCase s = [c0; c1; c2; c3; c4] ->
      Forall (fun c => c = charA \/ c = charB) [c0; c1; c2; c3; c4] ->
      let v := (16 * abBit c0 + 8 * abBit c1 + 4 * abBit c2 + 2 * abBit c3 + abBit c4)%Z in
      (v <= 25)%Z ->
      decodeGroup (JSString s) = [Z.to_N (65 + v)])
  /\ decodeGroup (JSString (js "AAAAA")) = js "A"
  /\ decodeGroup (JSString (js "BAAAB")) = js "R"
  /\ decodeGroup (JSString (js "ABBBA")) = js "O"
  /\ decodeGroup (JSString (js "AABAA")) = js "E".
Proof.
  split; [|repeat split; reflexivity].
  intros s c0 c1 c2 c3 c4 Hn HAB v Hv.
  rewrite decodeGroup_string, Hn.
  apply forallb_isAB_Forall in HAB. rewrite HAB. cbn [length Nat.eqb andb].
  assert (Hg : groupValue [c0; c1; c2; c3; c4] = v).
  { unfold groupValue, v. cbn [fold_left]. lia. }
  rewrite Hg. destruct (Z.leb_spec v 25); [reflexivity | lia].
Qed.

(** C2: on a string, [decodeGroup] answers the question mark exactly when
    the upper-cased string is not five long, or holds a character other
    than A and B, or reads as a number from 26 to 31; on every other string
    it answers one capital letter.  It is a total function: there is no
    input on which it fails. *)
Theorem decodeGroup_unknown_iff_invalid (s : jsstring) :
  (decodeGroup (JSString s) = unknown <-> invalidGroup (toUpperCase s))
  /\ (~ invalidGroup (toUpperCase s) ->
      exists c, 65 <= c <= 90 /\ decodeGroup (JSString s) = [c]).
Proof.
  rewrite decodeGroup_string. unfold invalidGroup.
  destruct (Nat.eqb (length (toUpperCase s)) 5) eqn:H5.
  2:{ apply Nat.eqb_neq in H5. cbn [andb]. split; [tauto|]. intros H. tauto. }
  apply Nat.eqb_eq in H5. cbn [andb].
  destruct (forallb isAB (toUpperCase s)) eqn:HAB.
  2:{ apply forallb_isAB_false in HAB. split; [tauto|]. intros H. tauto. }
  pose proof (groupValue_range5 _ H5) as Hr.
  assert (Hno : ~ exists c, c ∈ toUpperCase s /\ c <> charA /\ c <> charB).
  { intros HE. apply forallb_isAB_false in HE. congruence. }
  destruct (Z.leb_spec (groupValue (toUpperCase s)) 25) as [Hle|Hgt].
  - split.
    + split.
      * unfold letterAt, unknown. cbn. intros E. injection E as E. lia.
      * intros [H|[H|H]]; [congruence | contradiction | lia].
    + intros _. exists (Z.to_N (65 + groupValue (toUpperCase s))).
      split; [lia | reflexivity].
  - split.
    + split; [intros _; right; right; lia | reflexivity].
    + intros H. exfalso. apply H. right. right. lia.
Qed.

(** C4: on an array without holes [decodeGroups] is the concatenation, in
    order, of [decodeGroup] of each element; on a value that is not an
    array it is the empty string; the two puzzles of the site decode to
    RELIABLE and SESSION. *)
Theorem decodeGroups_maps_and_joins :
  (forall vs : list JSValue,
      decodeGroups (JSArray (map Some vs)) = concat (map decodeGroup vs))
  /\ (forall v : JSValue, isArray v = false -> decodeGroups v = [])
  /\ decodeGroups (JSArray (map (fun g => Some (JSString (js g)))
       ["BAAAB"; "AABAA"; "ABABB"; "ABAAA"; "AAAAA"; "AAAAB"; "ABABB"; "AABAA"]%string))
     = js "RELIABLE"
  /\ decodeGroups (JSArray (map (fun g => Some (JSString (js g)))
       ["BAABA"; "AABAA"; "BAABA"; "BAABA"; "ABAAA"; "ABBBA"; "ABBAB"]%string))
     = js "SESSION".
Proof.
  split; [|split; [|split; reflexivity]].
  - intros vs. rewrite decodeGroups_dense. apply flat_map_concat_map.
  - intros v Hv. destruct v; try reflexivity. discriminate.
Qed.

Lemma normalizePlaintext_string (s : jsstring) :
  normalizePlaintext (JSString s) = map asciiToUpper (List.filter isAsciiLetter s).
Proof.
  unfold normalizePlaintext. cbn [ToBoolean typeofIsString negb].
  rewrite orb_false_r, negb_involutive.
  destruct (Nat.eqb (length s) 0) eqn:Hlen.
  - apply Nat.eqb_eq in Hlen. destruct s; [reflexivity | discriminate].
  - apply toUpperCase_ascii. rewrite Forall_forall.
    intros c Hc. apply list_elem_of_In, filter_In in Hc as [_ Hc].
    unfold isAsciiLetter, isAsciiLower, isAsciiUpper in Hc.
    apply orb_true_iff in Hc as [Hc|Hc]; apply andb_true_iff in Hc as [_ Hc];
      apply N.leb_le in Hc; lia.
Qed.

(** C5: [normalizePlaintext] keeps, in order, exactly the ASCII letters of
    its string and writes each in upper case; "Hello World!" becomes
    HELLOWORLD and "SeSsIoN" becomes SESSION. *)
Theorem normalizePlaintext_letters_upper :
  (forall s : jsstring,
      normalizePlaintext (JSString s)
      = map asciiToUpper (List.filter isAsciiLetter s))
  /\ normalizePlaintext (JSString (js "Hello World!")) = js "HELLOWORLD"
  /\ normalizePlaintext (JSString (js "SeSsIoN")) = js "SESSION".
Proof.
  split; [exact normalizePlaintext_string | split; reflexivity].
Qed.

(** C9: the decoding of an array of strings is as long as the array, and
    its i-th character is the one character, a capital letter or the
    question mark, that the i-th group decodes to. *)
Theorem decodeGroups_length (gs : list jsstring) :
  length (decodeGroups (JSArray (map (fun g => Some (JSString g)) gs))) = length gs
  /\ (forall (i : nat) (g : jsstring),
        gs !! i = Some g ->
        exists c, decodeGroup (JSString g) = [c]
                  /\ (c = 63 \/ 65 <= c <= 90)
                  /\ decodeGroups (JSArray (map (fun g => Some (JSString g)) gs)) !! i = Some c).
Proof.
  replace (map (fun g => Some (JSString g)) gs) with (map Some (map JSString gs))
    by (rewrite map_map; reflexivity).
  rewrite decodeGroups_dense.
  induction gs as [|g gs [IHlen IHnth]]; [split; [reflexivity | intros i g H; discriminate]|].
  cbn [map flat_map]. destruct (decodeGroup_single (JSString g)) as (c & Hc & Hrange).
  rewrite Hc. cbn [app length]. split; [now rewrite IHlen|].
  intros [|i] g' Hg'.
  - injection Hg' as <-. exists c. rewrite Hc. auto.
  - cbn in Hg'. destruct (IHnth i g' Hg') as (c' & Hc' & Hr' & Hl').
    exists c'. auto.
Qed.

(** ** Upper-casing under the assumption on the Unicode table *)

Lemma CodePointToUTF16_nonAB (x : N) :
  x <> charA -> x <> charB ->
  exists u, In u (CodePointToUTF16 x) /\ u <> charA /\ u <> charB.
Proof.
  intros HA HB. unfold CodePointToUTF16. destruct (N.ltb_spec x 0x10000).
  - exists x. cbn. auto.
  - generalize ((x - 0x10000) / 0x400) ((x - 0x10000) mod 0x400). intros q r.
    exists (q + 0xD800). unfold charA, charB. split; [now left | lia].
Qed.

Lemma upper_nonascii_nonAB (cps : list N) :
  upperKeepsNonAB unicodeUpper ->
  (exists cp, In cp cps /\ 128 <= cp) ->
  exists u, In u (flat_map CodePointToUTF16 (flat_map toUppercaseCodePoint cps))
            /\ u <> charA /\ u <> charB.
Proof.
  intros H (cp & Hin & Hcp). destruct (H cp Hcp) as (x & Hx & HA & HB).
  destruct (CodePointToUTF16_nonAB x HA HB) as (u & Hu & HuA & HuB).
  exists u. split; [|auto]. apply in_flat_map. exists x. split; [|exact Hu].
  apply in_flat_map. exists cp. split; [exact Hin|].
  unfold toUppercaseCodePoint. destruct (N.ltb_spec cp 128); [lia|].
  now apply list_elem_of_In.
Qed.

Lemma asciiToUpper_AB (c : N) :
  isAB (asciiToUpper c) = isABAnyCase c.
Proof.
  unfold isAB, isABAnyCase, asciiToUpper, isAsciiLower, charA, charB.
  destruct (N.leb_spec 97 c); destruct (N.leb_spec c 122); cbn [andb];
    repeat match goal with
           | |- context [?a =? ?b] => destruct (N.eqb_spec a b)
           end; cbn; try reflexivity; lia.
Qed.

Lemma isABAnyCase_ascii (c : N) : isABAnyCase c = true -> c < 128.
Proof.
  unfold isABAnyCase. rewrite !orb_true_iff, !N.eqb_eq. lia.
Qed.

(** Upper-casing one code unit gives "A" or "B" only for a, b, A and B. *)
Lemma toUpperCase_unit_AB (c : N) :
  upperKeepsNonAB unicodeUpper ->
  negb (bool_decide (toUpperCase [c] = [charA]))
  && negb (bool_decide (toUpperCase [c] = [charB]))
  = negb (isABAnyCase c).
Proof.
  intros H. destruct (N.lt_ge_cases c 128) as [Hlt|Hge].
  - rewrite toUpperCase_ascii by (repeat constructor; exact Hlt).
    cbn [map]. rewrite <- asciiToUpper_AB. unfold isAB.
    repeat case_bool_decide;
      repeat match goal with
             | |- context [?a =? ?b] => destruct (N.eqb_spec a b)
             end; cbn; try reflexivity; congruence.
  - destruct (upper_nonascii_nonAB [c] H) as (u & Hu & HA & HB).
    { exists c. split; [now left | exact Hge]. }
    unfold toUpperCase. cbn [StringToCodePoints].
    assert (Hc : isABAnyCase c = false).
    { destruct (isABAnyCase c) eqn:E; [|reflexivity].
      apply isABAnyCase_ascii in E. lia. }
    rewrite Hc. cbn [negb].
    repeat case_bool_decide; cbn; try reflexivity;
      match goal with
      | E : flat_map _ _ = [_] |- _ => rewrite E in Hu; destruct Hu as [Hu|[]]; congruence
      end.
Qed.

Lemma validLoop_spec (g : jsstring) (n i : nat) :
  upperKeepsNonAB unicodeUpper ->
  (i + n = length g)%nat ->
  validLoop g i n = Normal (forallb isABAnyCase (drop i g)).
Proof.
  intros H. revert i. induction n as [|n IH]; intros i Hlen.
  - cbn [validLoop]. now rewrite drop_ge by lia.
  - cbn [validLoop]. destruct (g !! i) as [c|] eqn:Hi.
    2:{ apply lookup_ge_None in Hi. lia. }
    cbv zeta. rewrite (toUpperCase_unit_AB c H), (drop_S _ _ _ Hi).
    cbn [forallb]. destruct (isABAnyCase c); cbn [negb andb]; [|reflexivity].
    apply IH. lia.
Qed.

Lemma isValidGroup_string (g : jsstring) :
  upperKeepsNonAB unicodeUpper ->
  isValidGroup (JSString g) = Normal (Nat.eqb (length g) 5 && forallb isABAnyCase g).
Proof.
  intros H. unfold isValidGroup. cbn [ToBoolean].
  destruct (Nat.eqb (length g) 5) eqn:H5.
  - apply Nat.eqb_eq in H5. rewrite H5. cbn [Nat.eqb negb orb andb].
    rewrite validLoop_spec by (auto; rewrite H5; reflexivity). now rewrite drop_0.
  - cbn [negb]. now rewrite orb_true_r.
Qed.

(** The normalized string is five symbols of {A,B} exactly when the string
    itself is five of a, b, A, B. *)
Lemma normalized_shape (g : jsstring) :
  upperKeepsNonAB unicodeUpper ->
  Nat.eqb (length (toUpperCase g)) 5 && forallb isAB (toUpperCase g)
  = Nat.eqb (length g) 5 && forallb isABAnyCase g.
Proof.
  intros H.
  assert (Hascii : Forall (fun c => c < 128) g ->
                   forallb isAB (toUpperCase g) = forallb isABAnyCase g
                   /\ length (toUpperCase g) = length g).
  { intros Hg. rewrite toUpperCase_ascii by exact Hg. rewrite length_map.
    split; [|reflexivity]. clear Hg. induction g as [|c g IH]; [reflexivity|].
    cbn [map forallb]. now rewrite asciiToUpper_AB, IH. }
  destruct (forallb isABAnyCase g) eqn:Hg.
  - assert (Hlt : Forall (fun c => c < 128) g).
    { rewrite Forall_forall. intros c Hc. apply isABAnyCase_ascii.
      pose proof (proj1 (forallb_forall _ _) Hg) as Hall.
      now apply Hall, list_elem_of_In. }
    destruct (Hascii Hlt) as [E1 E2]. rewrite E1, E2. reflexivity.
  - rewrite (andb_false_r (Nat.eqb (length g) 5)).
    destruct (forallb isAB (toUpperCase g)) eqn:Hn; [|now rewrite andb_false_r].
    exfalso.
    assert (Hcps : Forall (fun c => c < 128) (StringToCodePoints g)).
    { rewrite Forall_forall. intros cp Hcp. destruct (N.lt_ge_cases cp 128) as [|Hge]; [assumption|].
      destruct (upper_nonascii_nonAB (StringToCodePoints g) H) as (u & Hu & HA & HB).
      { exists cp. split; [now apply list_elem_of_In | exact Hge]. }
      rewrite forallb_forall in Hn. specialize (Hn u Hu). unfold isAB in Hn.
      apply orb_true_iff in Hn as [Hn|Hn]; apply N.eqb_eq in Hn; contradiction. }
    pose proof (StringToCodePoints_ascii_inv g Hcps) as E. rewrite E in Hcps.
    destruct (Hascii Hcps) as [E1 _]. congruence.
Qed.

(** What [isValidGroup] tests: the shape of the group only, five
    characters each a, b, A or B, and it never fails; [decodeGroup] answers
    a letter exactly when [isValidGroup] holds and the group reads as a
    number of at most 25.  The range check of [decodeGroup] is missing from
    [isValidGroup]: the two differ on the groups of value 26 to 31. *)
Theorem isValidGroup_shape_only (g : jsstring) :
  upperKeepsNonAB unicodeUpper ->
  (isValidGroup (JSString g) = Normal true
   <-> length g = 5%nat /\ Forall (fun c => isABAnyCase c = true) g)
  /\ (decodeGroup (JSString g) <> unknown
      <-> isValidGroup (JSString g) = Normal true
          /\ (groupValue (toUpperCase g) <= 25)%Z).
Proof.
  intros H. rewrite isValidGroup_string by exact H. split.
  - split.
    + intros E. injection E as E. apply andb_true_iff in E as [E1 E2].
      apply Nat.eqb_eq in E1. split; [exact E1|].
      rewrite Forall_forall. intros c Hc. rewrite forallb_forall in E2.
      now apply E2, list_elem_of_In.
    + intros [E1 E2]. f_equal. apply andb_true_iff. split; [now apply Nat.eqb_eq|].
      apply forallb_forall. intros c Hc. rewrite Forall_forall in E2.
      now apply E2, list_elem_of_In.
  - rewrite decodeGroup_string, (normalized_shape g H).
    destruct (Nat.eqb (length g) 5 && forallb isABAnyCase g).
    + destruct (Z.leb_spec (groupValue (toUpperCase g)) 25) as [Hle|Hgt].
      * split; [intros _; split; [reflexivity | exact Hle]|].
        intros _. unfold letterAt, unknown. cbn. intros E. injection E as E.
        pose proof (groupValue_nonneg (toUpperCase g)). lia.
      * split; [intros E; now elim E | intros [_ Hle]; lia].
    + split; [intros E; now elim E | intros [E _]; discriminate].
Qed.

(** * Properties of the controller *)

(** ** Looking elements up *)

Lemma findFrom_Some (f : Element -> bool) (els : list Element) (i n : nat) :
  findFrom f els i = Some n ->
  (i <= n)%nat /\ exists e, els !! (n - i)%nat = Some e /\ f e = true.
Proof.
  revert i. induction els as [|e els IH]; intros i H; [discriminate|].
  cbn [findFrom] in H. destruct (f e) eqn:Hf.
  - injection H as <-. split; [lia|]. exists e. rewrite Nat.sub_diag. auto.
  - apply IH in H as (Hle & e' & He' & Hfe'). split; [lia|]. exists e'.
    replace (n - i)%nat with (S (n - S i)) by lia. auto.
Qed.

Lemma elementById_Some (p : Page) (id : jsstring) (n : nat) :
  elementById p id = Some n ->
  exists e, elements p !! n = Some e /\ elId e = Some id.
Proof.
  intros H. apply findFrom_Some in H as (_ & e & He & Hid).
  rewrite Nat.sub_0_r in He. exists e. split; [exact He|].
  apply andb_true_iff in Hid as [_ Hid].
  unfold hasId in Hid. now apply bool_decide_eq_true in Hid.
Qed.

Lemma elementById_connected (p : Page) (id : jsstring) (n : nat) (e : Element) :
  elementById p id = Some n -> elements p !! n = Some e -> elConnected e = true.
Proof.
  intros H He. apply findFrom_Some in H as (_ & e' & He' & Hid).
  rewrite Nat.sub_0_r in He'. assert (e' = e) by congruence. subst e'.
  now apply andb_true_iff in Hid as [Hc _].
Qed.

Lemma selectAll_Some (els : list Element) (root : nat) (cls : jsstring) (n : nat) :
  In n (selectAll els root cls) ->
  exists e, els !! n = Some e /\ hasClass cls e = true.
Proof.
  unfold selectAll. rewrite filter_In. intros [_ H]. unfold matchesUnder in H.
  apply andb_true_iff in H as [_ H]. destruct (els !! n) as [e|]; [|discriminate].
  now exists e.
Qed.

(** ** Reading and writing elements *)

Lemma readElement_Some {A : Type} (f : Element -> A) (p : Page) (n : nat) (e : Element) :
  elements p !! n = Some e -> readElement (Some n) f p = Normal (f e, p).
Proof. intros H. unfold readElement. now rewrite H. Qed.

Lemma writeElement_Some (f : Element -> Element) (p : Page) (n : nat) (e : Element) :
  elements p !! n = Some e ->
  writeElement (Some n) f p = Normal (tt, setElements (<[n := f e]> (elements p)) p).
Proof. intros H. unfold writeElement. now rewrite H. Qed.

(** ** Assigning the text of an element *)

Lemma isChildOf_self (els : list Element) (r : nat) : isChildOf els r r = false.
Proof. unfold isChildOf. now rewrite Nat.eqb_refl. Qed.

Lemma isBelow_self (els : list Element) (r : nat) : isBelow els r r = false.
Proof. unfold isBelow. now rewrite Nat.eqb_refl. Qed.

Lemma detachBelow_self (els : list Element) (r : nat) (e : Element) :
  detachBelow els r r e = e.
Proof. unfold detachBelow. now rewrite isChildOf_self, isBelow_self. Qed.

(** Taking an element out of the document changes its parent and whether
    it is connected, and nothing else of it; it connects nothing. *)
Lemma detachBelow_fields (els : list Element) (r n : nat) (e : Element) :
  setConnected (elConnected e) (setParent (elParent e) (detachBelow els r n e)) = e
  /\ (elConnected (detachBelow els r n e) = true -> elConnected e = true).
Proof.
  unfold detachBelow. destruct (isChildOf els r n); [|destruct (isBelow els r n)];
    (split; [now destruct e | try discriminate; auto]).
Qed.

Lemma removeChildren_lookup (els : list Element) (r n : nat) :
  removeChildren els r !! n = detachBelow els r n <$> els !! n.
Proof. apply list_lookup_imap. Qed.

Lemma removeChildren_self (els : list Element) (r : nat) :
  removeChildren els r !! r = els !! r.
Proof.
  rewrite removeChildren_lookup. destruct (els !! r) as [e|]; [|reflexivity].
  cbn. now rewrite detachBelow_self.
Qed.

Lemma length_removeChildren (els : list Element) (r : nat) :
  length (removeChildren els r) = length els.
Proof. apply length_imap. Qed.

Lemma set_textContent_Some (p : Page) (n : nat) (e : Element) (t : jsstring) :
  elements p !! n = Some e ->
  set_textContent (Some n) t p = Normal (tt, writeText p n e t).
Proof. intros H. unfold set_textContent. now rewrite H. Qed.

(** The element written has the text, and is otherwise as it was. *)
Lemma writeText_self (p : Page) (r : nat) (e0 e : Element) (t : jsstring) :
  elements p !! r = Some e0 ->
  elements (writeText p r e t) !! r = Some (setText t e).
Proof.
  intros H. unfold writeText. cbn [elements setElements setActiveElement].
  apply list_lookup_insert_eq. rewrite length_removeChildren.
  eapply lookup_lt_Some; eauto.
Qed.

Lemma writeText_other (p : Page) (r n : nat) (e : Element) (t : jsstring) :
  n <> r ->
  elements (writeText p r e t) !! n = detachBelow (elements p) r n <$> elements p !! n.
Proof.
  intros H. unfold writeText. cbn [elements setElements setActiveElement].
  rewrite list_lookup_insert_ne by congruence. apply removeChildren_lookup.
Qed.

(** The assignment takes the child elements out of the tree: a child has
    no parent afterwards and is not of the document. *)
Lemma set_textContent_detaches (p : Page) (r c : nat) (e ec : Element) (t : jsstring) :
  elements p !! r = Some e -> elements p !! c = Some ec ->
  c <> r -> elParent ec = Some r ->
  exists p',
    set_textContent (Some r) t p = Normal (tt, p')
    /\ elements p' !! r = Some (setText t e)
    /\ elements p' !! c = Some (setConnected false (setParent None ec)).
Proof.
  intros He Hc Hne Hpar. exists (writeText p r e t).
  split; [exact (set_textContent_Some p r e t He)|].
  split; [exact (writeText_self p r e e t He)|].
  rewrite writeText_other by exact Hne. rewrite Hc. cbn [fmap option_fmap option_map].
  unfold detachBelow, isChildOf. rewrite Hc, Hpar.
  rewrite bool_decide_eq_true_2 by reflexivity.
  apply Nat.eqb_neq in Hne. now rewrite Hne.
Qed.

Lemma length_writeText (p : Page) (r : nat) (e : Element) (t : jsstring) :
  length (elements (writeText p r e t)) = length (elements p).
Proof.
  unfold writeText. cbn [elements setElements setActiveElement].
  now rewrite length_insert, length_removeChildren.
Qed.

(** Every element is still there after the assignment, with its tag, id,
    classes, attributes, value and display; only the element written
    changes its text. *)
Lemma writeText_keeps {C : Type} (g : Element -> C) (p : Page) (r n : nat)
    (e0 e en : Element) (t : jsstring) :
  (forall q c x, g (setConnected c (setParent q x)) = g x) ->
  elements p !! r = Some e0 -> g (setText t e) = g e0 ->
  elements p !! n = Some en ->
  exists en', elements (writeText p r e t) !! n = Some en' /\ g en' = g en.
Proof.
  intros Hg Hr Hge Hn. destruct (decide (n = r)) as [->|Hne].
  - rewrite (writeText_self _ _ _ _ _ Hr). eexists. split; [reflexivity|]. congruence.
  - rewrite writeText_other, Hn by exact Hne. eexists. split; [reflexivity|].
    destruct (detachBelow_fields (elements p) r n en) as [E _].
    rewrite <- E at 2. symmetry. apply Hg.
Qed.

Lemma hasNoChild_spec (els : list Element) (r : nat) :
  hasNoChild els r = true <-> forall n, isChildOf els r n = false.
Proof.
  unfold hasNoChild. rewrite forallb_forall. split.
  - intros H n. destruct (isChildOf els r n) eqn:E; [|reflexivity].
    assert (Hin : In n (seq 0 (length els))).
    { apply in_seq. split; [lia|]. cbn. unfold isChildOf in E.
      apply andb_true_iff in E as [_ E].
      destruct (els !! n) eqn:Hn; [|discriminate]. eapply lookup_lt_Some; eauto. }
    apply H in Hin. now rewrite E in Hin.
  - intros H n _. now rewrite H.
Qed.

Lemma isDescendantOf_leaf (els : list Element) (r : nat) (fuel n : nat) :
  (forall m, isChildOf els r m = false) -> n <> r ->
  isDescendantOf els fuel n r = false.
Proof.
  intros Hleaf. revert n. induction fuel as [|fuel IH]; intros n Hn; [reflexivity|].
  cbn [isDescendantOf]. destruct (els !! n) as [e|] eqn:He; [|reflexivity].
  destruct (elParent e) as [q|] eqn:Hq; [|reflexivity].
  specialize (Hleaf n). unfold isChildOf in Hleaf. rewrite He, Hq in Hleaf.
  apply Nat.eqb_neq in Hn. rewrite Hn in Hleaf. cbn [negb andb] in Hleaf.
  apply bool_decide_eq_false in Hleaf.
  assert (Hqr : q <> r) by congruence.
  apply Nat.eqb_neq in Hqr as Hqr'. rewrite Hqr'. cbn [orb]. now apply IH.
Qed.

Lemma isBelow_leaf (els : list Element) (r n : nat) :
  hasNoChild els r = true -> isBelow els r n = false.
Proof.
  intros H. rewrite hasNoChild_spec in H. unfold isBelow.
  destruct (Nat.eqb_spec n r) as [->|Hne]; [reflexivity|].
  cbn [negb andb]. now apply isDescendantOf_leaf.
Qed.

(** On an element that holds text only the assignment changes the text
    and nothing else. *)
Lemma removeChildren_leaf (els : list Element) (r : nat) :
  hasNoChild els r = true -> removeChildren els r = els.
Proof.
  intros H. apply list_eq. intros n. rewrite removeChildren_lookup.
  destruct (els !! n) as [e|]; [|reflexivity]. cbn. f_equal.
  unfold detachBelow. rewrite (proj1 (hasNoChild_spec els r) H n).
  now rewrite (isBelow_leaf els r n H).
Qed.

Lemma writeText_leaf (p : Page) (r : nat) (e : Element) (t : jsstring) :
  hasNoChild (elements p) r = true ->
  writeText p r e t = setElements (<[r := setText t e]> (elements p)) p.
Proof.
  intros H. unfold writeText. rewrite (removeChildren_leaf _ _ H).
  assert (E : focusAfter (elements p) r (activeElement p) = activeElement p).
  { unfold focusAfter. destruct (activeElement p) as [a|]; [|reflexivity].
    now rewrite (isBelow_leaf _ _ a H). }
  rewrite E. now destruct p.
Qed.

Lemma set_textContent_leaf (p : Page) (n : nat) (e : Element) (t : jsstring) :
  elements p !! n = Some e -> hasNoChild (elements p) n = true ->
  set_textContent (Some n) t p
  = Normal (tt, setElements (<[n := setText t e]> (elements p)) p).
Proof.
  intros He H. now rewrite (set_textContent_Some _ _ _ _ He), (writeText_leaf _ _ _ _ H).
Qed.

(** Whether an element is a child of [r], or below it, is a matter of
    the parents alone. *)
Lemma isChildOf_parents (els els' : list Element) (r n : nat) :
  map elParent els' = map elParent els -> isChildOf els' r n = isChildOf els r n.
Proof.
  intros H. unfold isChildOf.
  assert (E : elParent <$> els' !! n = elParent <$> els !! n).
  { rewrite <- !list_lookup_fmap. change (map elParent els' !! n = map elParent els !! n).
    now rewrite H. }
  destruct (els' !! n) as [e'|], (els !! n) as [e|]; cbn in E; try discriminate;
    [|reflexivity]. injection E as ->. reflexivity.
Qed.

Lemma hasNoChild_parents (els els' : list Element) (r : nat) :
  map elParent els' = map elParent els -> hasNoChild els' r = hasNoChild els r.
Proof.
  intros H. unfold hasNoChild.
  assert (Hlen : length els' = length els).
  { rewrite <- (length_map elParent els'), H. apply length_map. }
  rewrite Hlen. induction (seq 0 (length els)) as [|n l IH]; [reflexivity|].
  cbn [forallb]. now rewrite IH, (isChildOf_parents _ _ _ _ H).
Qed.

(** After the assignment the element has no child. *)
Lemma writeText_hasNoChild (p : Page) (r : nat) (e0 e : Element) (t : jsstring) :
  elements p !! r = Some e0 ->
  hasNoChild (elements (writeText p r e t)) r = true.
Proof.
  intros Hr. apply hasNoChild_spec. intros n. unfold isChildOf.
  destruct (Nat.eqb_spec n r) as [->|Hne]; [reflexivity|]. cbn [negb andb].
  rewrite writeText_other by exact Hne.
  destruct (elements p !! n) as [en|] eqn:Hn; [|reflexivity]. cbn.
  apply bool_decide_eq_false_2. unfold detachBelow, isChildOf.
  apply Nat.eqb_neq in Hne as Hne'. rewrite Hne', Hn. cbn [negb andb].
  destruct (bool_decide (elParent en = Some r)) eqn:Hp.
  - cbn. discriminate.
  - apply bool_decide_eq_false in Hp. now destruct (isBelow (elements p) r n).
Qed.

(** ** C8: operations on a missing target *)

(** C8: each operation of the controller, called when the element it is
    bound to is absent, returns normally and leaves the page as it was:
    [checkGuess] without the guess input or without the feedback area,
    [revealAllChips], [showHint] and [getDecodedText] without the chip
    container, [toggleChip] on [null], the input listener without the
    feedback area; [initializePuzzle] without the chip container changes
    nothing but the console, where it logs a warning. *)
Theorem missing_target_is_noop (p : Page) (layerName expectedPlaintext : jsstring) :
  (elementById p (layerName ++ js "Guess") = None
   \/ elementById p (layerName ++ js "Feedback") = None ->
   checkGuess layerName expectedPlaintext p = Normal (tt, p))
  /\ (elementById p (layerName ++ js "Chips") = None ->
      revealAllChips (layerName ++ js "Chips") p = Normal (tt, p)
      /\ showHint layerName p = Normal (tt, p)
      /\ getDecodedText (layerName ++ js "Chips") p = Normal ([], p)
      /\ initializePuzzle layerName expectedPlaintext p
         = Normal (tt, setConsoleWarnings
                         (consoleWarnings p
                            ++ [js "Puzzle container not found for " ++ layerName]) p))
  /\ toggleChip None p = Normal (tt, p)
  /\ (elementById p (layerName ++ js "Feedback") = None ->
      forall key, runListener (GuessInput layerName) key p = Normal (tt, p)).
Proof.
  split; [|split; [|split; [reflexivity|]]].
  - intros H. unfold checkGuess, bind, getElementById.
    destruct H as [H|H]; rewrite H; cbn [truthy negb orb]; [reflexivity|].
    now rewrite orb_true_r.
  - intros H. unfold revealAllChips, showHint, getDecodedText, initializePuzzle,
      bind, getElementById. rewrite H. cbn [truthy negb]. repeat split; reflexivity.
  - intros H key. unfold runListener, bind, getElementById. now rewrite H.
Qed.

(** ** checkGuess *)

Lemma setElements_twice (a b : list Element) (p : Page) :
  setElements a (setElements b p) = setElements a p.
Proof. reflexivity. Qed.

(** The two or three assignments every branch of [checkGuess] makes. *)
Lemma feedback_pair (p : Page) (fa : nat) (cls : list jsstring) (txt : jsstring) :
  is_Some (elements p !! fa) ->
  (set_className (Some fa) cls;;; set_textContent (Some fa) txt) p
  = Normal (tt, feedbackPage p fa cls txt).
Proof.
  intros [fe H]. unfold bind, set_className, feedbackPage. rewrite H.
  rewrite (writeElement_Some _ _ _ _ H).
  assert (Hlt : (fa < length (elements p))%nat) by (eapply lookup_lt_Some; eauto).
  now erewrite set_textContent_Some
    by (cbn [elements setElements]; apply list_lookup_insert_eq; exact Hlt).
Qed.

Lemma feedback_assignments (p : Page) (fa : nat) (fe : Element)
    (cls : list jsstring) (txt : jsstring) (last : M unit) :
  elements p !! fa = Some fe ->
  (set_className (Some fa) cls;;; set_textContent (Some fa) txt;;; last) p
  = last (feedbackPage p fa cls txt).
Proof.
  intros H. unfold bind, set_className, feedbackPage. rewrite H.
  rewrite (writeElement_Some _ _ _ _ H).
  assert (Hlt : (fa < length (elements p))%nat) by (eapply lookup_lt_Some; eauto).
  now erewrite set_textContent_Some
    by (cbn [elements setElements]; apply list_lookup_insert_eq; exact Hlt).
Qed.

(** The feedback area after the two assignments. *)
Lemma feedbackPage_self (p : Page) (fa : nat) (fe : Element)
    (cls : list jsstring) (txt : jsstring) :
  elements p !! fa = Some fe ->
  elements (feedbackPage p fa cls txt) !! fa = Some (setText txt (setClassList cls fe)).
Proof.
  intros H. unfold feedbackPage. rewrite H.
  apply (writeText_self _ _ (setClassList cls fe)). cbn [elements setElements].
  apply list_lookup_insert_eq. eapply lookup_lt_Some; eauto.
Qed.

Lemma feedbackPage_length (p : Page) (fa : nat) (cls : list jsstring) (txt : jsstring) :
  length (elements (feedbackPage p fa cls txt)) = length (elements p).
Proof.
  unfold feedbackPage. destruct (elements p !! fa); [|reflexivity].
  rewrite length_writeText. cbn [elements setElements]. apply length_insert.
Qed.

Lemma hint_display (p : Page) (hint : Ref) (d : jsstring) (fa : nat) (fe : Element) :
  (forall h, hint = Some h -> (h < length (elements p))%nat) ->
  elements p !! fa = Some fe ->
  exists p' fe',
    (if truthy hint then set_style_display hint d else ret tt) p = Normal (tt, p')
    /\ elements p' !! fa = Some fe'
    /\ elClassList fe' = elClassList fe
    /\ elTextContent fe' = elTextContent fe.
Proof.
  intros Hh Hfa. destruct hint as [h|]; cbn [truthy].
  2:{ exists p, fe. auto. }
  specialize (Hh h eq_refl). destruct (lookup_lt_is_Some_2 _ _ Hh) as [he Hhe].
  unfold set_style_display. rewrite (writeElement_Some _ _ _ _ Hhe).
  destruct (decide (h = fa)) as [->|Hne].
  - exists (setElements (<[fa := setDisplay d he]> (elements p)) p), (setDisplay d he).
    cbn [elements setElements]. rewrite list_lookup_insert_eq by exact Hh.
    assert (he = fe) by congruence. subst he. auto.
  - exists (setElements (<[h := setDisplay d he]> (elements p)) p), fe.
    cbn [elements setElements]. rewrite list_lookup_insert_ne by exact Hne. auto.
Qed.

(** What [checkGuess] leaves in the feedback area, branch by branch. *)
Lemma checkGuess_result (p : Page) (layerName expectedPlaintext : jsstring)
    (gi fa : nat) (ge : Element) :
  elementById p (layerName ++ js "Guess") = Some gi ->
  elementById p (layerName ++ js "Feedback") = Some fa ->
  elements p !! gi = Some ge ->
  exists p' fe',
    checkGuess layerName expectedPlaintext p = Normal (tt, p')
    /\ elements p' !! fa = Some fe'
    /\ (elClassList fe', elTextContent fe')
       = if bool_decide (normalizePlaintext (valueOf ge)
                         = normalizePlaintext (JSString expectedPlaintext))
         then (feedbackSuccess, correctMessage expectedPlaintext)
         else if bool_decide (normalizePlaintext (valueOf ge) = [])
              then (feedbackHidden, [])
              else (feedbackError, incorrectMessage).
Proof.
  intros Hgi Hfa Hge.
  destruct (elementById_Some _ _ _ Hfa) as (fe & Hfe & _).
  assert (Hhint : forall cls txt h,
             elementById p (layerName ++ js "Hint") = Some h ->
             (h < length (elements (feedbackPage p fa cls txt)))%nat).
  { intros cls txt h Hh. destruct (elementById_Some _ _ _ Hh) as (he & Hhe & _).
    rewrite feedbackPage_length. eapply lookup_lt_Some; eauto. }
  unfold checkGuess. unfold bind at 1 2 3. unfold getElementById.
  rewrite Hgi, Hfa. cbn [truthy negb orb].
  unfold bind at 1. unfold get_value. rewrite (readElement_Some _ _ _ _ Hge).
  cbv zeta.
  destruct (bool_decide (normalizePlaintext (valueOf ge)
                         = normalizePlaintext (JSString expectedPlaintext))).
  - rewrite (feedback_assignments _ _ _ _ _ _ Hfe).
    edestruct (hint_display
                 (feedbackPage p fa feedbackSuccess (correctMessage expectedPlaintext))
                 (elementById p (layerName ++ js "Hint")) (js "none") fa)
      as (p' & fe' & Hrun & Hl & Hc & Ht).
    + intros h Hh. now apply Hhint.
    + exact (feedbackPage_self _ _ _ _ _ Hfe).
    + exists p', fe'. rewrite Hrun, Hl, Hc, Ht. auto.
  - destruct (bool_decide (normalizePlaintext (valueOf ge) = [])).
    + rewrite feedback_pair by eauto.
      eexists _, _. split; [reflexivity|].
      rewrite (feedbackPage_self _ _ _ _ _ Hfe). auto.
    + rewrite (feedback_assignments _ _ _ _ _ _ Hfe).
      edestruct (hint_display
                   (feedbackPage p fa feedbackError incorrectMessage)
                   (elementById p (layerName ++ js "Hint")) (js "inline-block") fa)
        as (p' & fe' & Hrun & Hl & Hc & Ht).
      * intros h Hh. now apply Hhint.
      * exact (feedbackPage_self _ _ _ _ _ Hfe).
      * exists p', fe'. rewrite Hrun, Hl, Hc, Ht. auto.
Qed.

Lemma feedbackOf_written (fe : Element) (matches empty : bool) :
  (elClassList fe, elTextContent fe)
  = (if matches then (feedbackSuccess, elTextContent fe)
     else if empty then (feedbackHidden, [])
          else (feedbackError, elTextContent fe)) ->
  feedbackOf fe
  = if matches then FeedbackCorrect
    else if empty then FeedbackNone else FeedbackIncorrect.
Proof.
  unfold feedbackOf. destruct matches; [|destruct empty];
    intros E; apply pair_equal_spec in E as [Hc Ht]; rewrite Hc; try rewrite Ht; reflexivity.
Qed.

Lemma checkGuess_feedbackOf (p : Page) (layerName expectedPlaintext : jsstring)
    (gi fa : nat) (ge : Element) :
  elementById p (layerName ++ js "Guess") = Some gi ->
  elementById p (layerName ++ js "Feedback") = Some fa ->
  elements p !! gi = Some ge ->
  exists p' fe',
    checkGuess layerName expectedPlaintext p = Normal (tt, p')
    /\ elements p' !! fa = Some fe'
    /\ feedbackOf fe'
       = if bool_decide (normalizePlaintext (valueOf ge)
                         = normalizePlaintext (JSString expectedPlaintext))
         then FeedbackCorrect
         else if bool_decide (normalizePlaintext (valueOf ge) = [])
              then FeedbackNone
              else FeedbackIncorrect.
Proof.
  intros Hgi Hfa Hge.
  destruct (checkGuess_result p layerName expectedPlaintext gi fa ge Hgi Hfa Hge)
    as (p' & fe' & Hrun & Hl & Hw).
  exists p', fe'. split; [exact Hrun|]. split; [exact Hl|].
  apply feedbackOf_written.
  destruct (bool_decide (normalizePlaintext (valueOf ge)
                         = normalizePlaintext (JSString expectedPlaintext)));
    [|destruct (bool_decide (normalizePlaintext (valueOf ge) = []))];
    apply pair_equal_spec in Hw as [Hc Ht]; rewrite Hc; try rewrite Ht; reflexivity.
Qed.

(** C6, as the code has it: [checkGuess] normalizes the typed guess and the
    expected answer and compares them: equal gives Correct; otherwise a
    guess that normalizes to the empty string clears the feedback, and any
    other guess gives Incorrect.  So a guess is never marked Incorrect when
    it normalizes to the empty string, and the comparison sees neither
    case, nor punctuation, nor spaces: "r e l i a b l e" and "RELIABLE!"
    are Correct for RELIABLE. *)
Theorem checkGuess_feedback :
  (forall (p : Page) (layerName expectedPlaintext : jsstring) (gi fa : nat) (ge : Element),
      elementById p (layerName ++ js "Guess") = Some gi ->
      elementById p (layerName ++ js "Feedback") = Some fa ->
      elements p !! gi = Some ge ->
      exists p' fe',
        checkGuess layerName expectedPlaintext p = Normal (tt, p')
        /\ elements p' !! fa = Some fe'
        /\ feedbackOf fe'
           = if bool_decide (normalizePlaintext (valueOf ge)
                             = normalizePlaintext (JSString expectedPlaintext))
             then FeedbackCorrect
             else if bool_decide (normalizePlaintext (valueOf ge) = [])
                  then FeedbackNone
                  else FeedbackIncorrect)
  /\ (forall guess expectedPlaintext : jsstring,
        map asciiToUpper (List.filter isAsciiLetter guess)
        = map asciiToUpper (List.filter isAsciiLetter expectedPlaintext) ->
        normalizePlaintext (JSString guess) = normalizePlaintext (JSString expectedPlaintext))
  /\ (forall guess : jsstring,
        guess = js "r e l i a b l e" \/ guess = js "RELIABLE!" ->
        exists p' fe',
          checkGuess (js "layer4") (js "RELIABLE") (samplePage guess) = Normal (tt, p')
          /\ elements p' !! 6%nat = Some fe'
          /\ feedbackOf fe' = FeedbackCorrect).
Proof.
  split; [exact checkGuess_feedbackOf|]. split.
  - intros guess expectedPlaintext H. now rewrite !normalizePlaintext_string.
  - intros guess Hguess.
    destruct (checkGuess_feedbackOf (samplePage guess) (js "layer4") (js "RELIABLE")
                5%nat 6%nat (sampleElement "INPUT" (Some "layer4Guess"%string) None [] None
                               (Some guess)))
      as (p' & fe' & Hrun & Hl & Hf); try reflexivity.
    exists p', fe'. split; [exact Hrun|]. split; [exact Hl|]. rewrite Hf.
    destruct Hguess as [-> | ->]; reflexivity.
Qed.

(** C10: [checkGuess] compares before it looks for an empty guess: a guess
    that normalizes to the empty string is Correct when the expected answer
    normalizes to the empty string too, and clears the feedback only when
    the expected answer does not. *)
Theorem checkGuess_equality_before_empty (p : Page) (layerName expectedPlaintext : jsstring)
    (gi fa : nat) (ge : Element) :
  elementById p (layerName ++ js "Guess") = Some gi ->
  elementById p (layerName ++ js "Feedback") = Some fa ->
  elements p !! gi = Some ge ->
  normalizePlaintext (valueOf ge) = [] ->
  exists p' fe',
    checkGuess layerName expectedPlaintext p = Normal (tt, p')
    /\ elements p' !! fa = Some fe'
    /\ feedbackOf fe'
       = (if bool_decide (normalizePlaintext (JSString expectedPlaintext) = [])
          then FeedbackCorrect else FeedbackNone)
    /\ (elClassList fe', elTextContent fe')
       = (if bool_decide (normalizePlaintext (JSString expectedPlaintext) = [])
          then (feedbackSuccess, correctMessage expectedPlaintext)
          else (feedbackHidden, [])).
Proof.
  intros Hgi Hfa Hge Hempty.
  destruct (checkGuess_result p layerName expectedPlaintext gi fa ge Hgi Hfa Hge)
    as (p' & fe' & Hrun & Hl & Hw).
  exists p', fe'. split; [exact Hrun|]. split; [exact Hl|].
  rewrite Hempty in Hw.
  assert (Hsym : bool_decide ([] = normalizePlaintext (JSString expectedPlaintext))
                 = bool_decide (normalizePlaintext (JSString expectedPlaintext) = [])).
  { apply bool_decide_ext. split; congruence. }
  rewrite Hsym in Hw. rewrite (bool_decide_eq_true_2 ([] = [])) in Hw by reflexivity.
  split; [|exact Hw].
  destruct (bool_decide (normalizePlaintext (JSString expectedPlaintext) = []));
    apply pair_equal_spec in Hw as [Hc Ht]; unfold feedbackOf; rewrite Hc;
    try rewrite Ht; reflexivity.
Qed.

(** ** Revealing chips *)

Lemma hasClass_addToken (tok : jsstring) (e : Element) :
  hasClass tok (setClassList (addToken tok (elClassList e)) e) = true.
Proof.
  unfold hasClass, addToken. cbn [elClassList setClassList].
  apply bool_decide_eq_true_2. case_bool_decide; [assumption|].
  apply elem_of_app. right. now apply list_elem_of_singleton.
Qed.

Lemma hasClass_append (tok : jsstring) (e : Element) :
  hasClass tok (setClassList (elClassList e ++ [tok]) e) = true.
Proof.
  unfold hasClass. cbn [elClassList setClassList]. apply bool_decide_eq_true_2.
  apply elem_of_app. right. now apply list_elem_of_singleton.
Qed.

Lemma hasClass_removeToken (tok : jsstring) (e : Element) :
  hasClass tok (setClassList (removeToken tok (elClassList e)) e) = false.
Proof.
  unfold hasClass, removeToken. cbn [elClassList setClassList].
  apply bool_decide_eq_false_2. intros H. apply list_elem_of_In, filter_In in H as [_ H].
  rewrite bool_decide_eq_true_2 in H by reflexivity. discriminate.
Qed.

Lemma setAttribute_Some (p : Page) (n : nat) (e : Element) (name : string) (v : jsstring) :
  elements p !! n = Some e ->
  setAttribute (Some n) name v p
  = Normal (tt, setElements (<[n := setAttributes (<[name := v]> (elAttributes e)) e]>
                               (elements p)) p).
Proof. intros H. unfold setAttribute. now rewrite (writeElement_Some _ _ _ _ H). Qed.

(** Writing the class list of [card] and then one of its attributes. *)
Lemma classes_then_attribute (p : Page) (card : nat) (e : Element)
    (cls : list jsstring) (name : string) (v : jsstring) :
  elements p !! card = Some e ->
  exists p',
    (writeElement (Some card) (setClassList cls);;; setAttribute (Some card) name v) p
    = Normal (tt, p')
    /\ isRevealed p' card = hasClass revealed (setClassList cls e)
    /\ (forall c, c <> card -> isRevealed p' c = isRevealed p c)
    /\ length (elements p') = length (elements p).
Proof.
  intros H.
  assert (Hlt : (card < length (elements p))%nat) by (eapply lookup_lt_Some; eauto).
  unfold bind. rewrite (writeElement_Some _ _ _ _ H).
  erewrite setAttribute_Some
    by (cbn [elements setElements]; apply list_lookup_insert_eq; exact Hlt).
  eexists. split; [reflexivity|]. cbn [elements setElements].
  rewrite list_insert_insert_eq. repeat split.
  - unfold isRevealed. cbn [elements setElements].
    now rewrite list_lookup_insert_eq by exact Hlt.
  - intros c Hc. unfold isRevealed. cbn [elements setElements].
    now rewrite list_lookup_insert_ne by congruence.
  - now rewrite length_insert.
Qed.

(** [toggleChip] flips its card and no other. *)
Lemma toggleChip_flips (p : Page) (card : nat) (e : Element) :
  elements p !! card = Some e ->
  exists p',
    toggleChip (Some card) p = Normal (tt, p')
    /\ isRevealed p' card = negb (isRevealed p card)
    /\ (forall c, c <> card -> isRevealed p' c = isRevealed p c).
Proof.
  intros H. unfold toggleChip. cbn [truthy negb].
  unfold classList_toggle, classList_contains. unfold bind at 1 2.
  rewrite (readElement_Some _ _ _ _ H).
  assert (Hr : isRevealed p card = hasClass revealed e).
  { unfold isRevealed. now rewrite H. }
  rewrite Hr. destruct (hasClass revealed e) eqn:Hcls.
  - unfold bind, ret. rewrite (writeElement_Some _ _ _ _ H). cbv beta iota.
    cbn [boolToString].
    destruct (classes_then_attribute p card e (removeToken revealed (elClassList e))
                "aria-pressed" (js "false") H) as (p' & Hrun & Hc & Ho & _).
    unfold bind in Hrun. rewrite (writeElement_Some _ _ _ _ H) in Hrun.
    cbv beta iota in Hrun.
    exists p'. split; [exact Hrun|]. split; [|exact Ho].
    rewrite Hc. apply hasClass_removeToken.
  - unfold bind, ret. rewrite (writeElement_Some _ _ _ _ H). cbv beta iota.
    cbn [boolToString].
    destruct (classes_then_attribute p card e (elClassList e ++ [revealed])
                "aria-pressed" (js "true") H) as (p' & Hrun & Hc & Ho & _).
    unfold bind in Hrun. rewrite (writeElement_Some _ _ _ _ H) in Hrun.
    cbv beta iota in Hrun.
    exists p'. split; [exact Hrun|]. split; [|exact Ho].
    rewrite Hc. apply hasClass_append.
Qed.

(** A timer of [revealAllChips] reveals its card and hides none. *)
Lemma runTimerCallback_reveals (p : Page) (card : nat) (e : Element) :
  elements p !! card = Some e ->
  exists p',
    runTimerCallback (RevealCard card) p = Normal (tt, p')
    /\ isRevealed p' card = true
    /\ (forall c, c <> card -> isRevealed p' c = isRevealed p c).
Proof.
  intros H. unfold runTimerCallback, classList_add.
  destruct (classes_then_attribute p card e (addToken revealed (elClassList e))
              "aria-pressed" (js "true") H) as (p' & Hrun & Hc & Ho & _).
  exists p'. split; [|split; [|exact Ho]].
  - rewrite <- Hrun. unfold bind. rewrite !(writeElement_Some _ _ _ _ H). reflexivity.
  - rewrite Hc. apply hasClass_addToken.
Qed.

Lemma runTimerCallback_monotone (cb : TimerCallback) (p p' : Page) :
  runTimerCallback cb p = Normal (tt, p') ->
  forall c, isRevealed p c = true -> isRevealed p' c = true.
Proof.
  destruct cb as [card]. intros Hrun c Hc.
  destruct (elements p !! card) as [e|] eqn:He.
  - destruct (runTimerCallback_reveals p card e He) as (q & Hq & Hcard & Ho).
    rewrite Hq in Hrun. injection Hrun as <-.
    destruct (decide (c = card)) as [->|Hne]; [exact Hcard|].
    now rewrite Ho.
  - unfold runTimerCallback, classList_add, bind, writeElement in Hrun.
    rewrite He in Hrun. discriminate.
Qed.

(** The loop of [revealAllChips] only schedules timers, one for each card
    that is not revealed yet. *)
Lemma revealAll_loop (prefersReduced : bool) (cards : list nat) (i : nat) (p : Page) :
  (forall c, In c cards -> exists e, elements p !! c = Some e) ->
  exists ts,
    forEachFrom (fun card index =>
      let* isRevealed := classList_contains (Some card) revealed in
      if negb isRevealed
      then setTimeout (RevealCard card)
             (if prefersReduced then 0%Z else (Z.of_nat index * 60)%Z)
      else ret tt) cards i p
    = Normal (tt, setTimers (timers p ++ ts) p)
    /\ Forall (fun t => exists card, timerCallback t = RevealCard card
                                     /\ In card cards
                                     /\ isRevealed p card = false) ts.
Proof.
  revert i p. induction cards as [|card cards IH]; intros i p Hvalid.
  - exists []. cbn [forEachFrom]. unfold ret. rewrite app_nil_r.
    split; [destruct p; reflexivity | constructor].
  - destruct (Hvalid card (or_introl eq_refl)) as [e He].
    cbn [forEachFrom]. unfold bind at 1 2. unfold classList_contains.
    rewrite (readElement_Some _ _ _ _ He).
    destruct (hasClass revealed e) eqn:Hcls; cbn [negb].
    + unfold ret at 1. destruct (IH (S i) p) as (ts & Hrun & Hts).
      { intros c Hc. apply Hvalid. now right. }
      exists ts. split; [exact Hrun|].
      eapply Forall_impl; [exact Hts|]. intros t (c & Ht & Hin & Hr).
      exists c. repeat split; auto. now right.
    + unfold setTimeout at 1.
      set (t := mkTimer (RevealCard card)
                  (if prefersReduced then 0%Z else (Z.of_nat i * 60)%Z)).
      destruct (IH (S i) (setTimers (timers p ++ [t]) p)) as (ts & Hrun & Hts).
      { intros c Hc. cbn [elements setTimers]. apply Hvalid. now right. }
      exists (t :: ts). split.
      * etransitivity; [exact Hrun|]. cbn [timers setTimers].
        rewrite <- app_assoc. reflexivity.
      * constructor.
        -- exists card. split; [reflexivity|]. split; [now left|].
           unfold isRevealed. now rewrite He.
        -- eapply Forall_impl; [exact Hts|]. intros t' (c & Ht & Hin & Hr).
           exists c. repeat split; auto. now right.
Qed.

(** [revealAllChips] returns at once: it changes no element and leaves
    behind timers for the hidden cards of the container. *)
Lemma revealAllChips_schedules (containerId : jsstring) (p : Page) :
  exists ts,
    revealAllChips containerId p = Normal (tt, setTimers (timers p ++ ts) p)
    /\ Forall (fun t => exists card e, timerCallback t = RevealCard card
                                       /\ elements p !! card = Some e
                                       /\ hasClass chipCardClass e = true
                                       /\ isRevealed p card = false) ts.
Proof.
  unfold revealAllChips. unfold bind at 1. unfold getElementById.
  destruct (elementById p containerId) as [r|] eqn:Hr; cbn [truthy negb].
  2:{ exists []. unfold ret. rewrite app_nil_r. split; [destruct p; reflexivity | constructor]. }
  unfold bind at 1 2. unfold querySelectorAll, matchMediaReducedMotion, forEach.
  destruct (revealAll_loop (prefersReducedMotion p)
              (selectAll (elements p) r chipCardClass) 0 p) as (ts & Hrun & Hts).
  { intros c Hc. apply selectAll_Some in Hc as (e & He & _). eauto. }
  exists ts. split; [exact Hrun|].
  eapply Forall_impl; [exact Hts|]. intros t (c & Ht & Hin & Hrev).
  apply selectAll_Some in Hin as (e & He & Hcls). eauto 10.
Qed.

(** [showHint] always returns, and hides nothing. *)
Lemma showHint_monotone (layerName : jsstring) (p : Page) :
  exists p',
    showHint layerName p = Normal (tt, p')
    /\ (forall c, isRevealed p c = true -> isRevealed p' c = true).
Proof.
  unfold showHint. unfold bind at 1. unfold getElementById.
  destruct (elementById p (layerName ++ js "Chips")) as [r|]; cbn [truthy negb].
  2:{ exists p. auto. }
  unfold bind at 1. unfold querySelector, querySelectorAll. unfold bind at 1. unfold ret at 1.
  destruct (selectAll (elements p) r chipCardClass) as [|first rest] eqn:Hsel;
    cbn [head truthy].
  { exists p. auto. }
  assert (Hin : In first (selectAll (elements p) r chipCardClass))
    by (rewrite Hsel; now left).
  apply selectAll_Some in Hin as (e & He & _).
  unfold bind at 1. unfold classList_contains. rewrite (readElement_Some _ _ _ _ He).
  destruct (hasClass revealed e) eqn:Hcls; cbn [negb].
  { exists p. auto. }
  destruct (toggleChip_flips p first e He) as (p' & Hrun & Hfirst & Ho).
  exists p'. split; [exact Hrun|]. intros c Hc.
  destruct (decide (c = first)) as [->|Hne].
  - rewrite Hfirst. unfold isRevealed. now rewrite He, Hcls.
  - now rewrite Ho.
Qed.

(** C7, as the code has it: [revealAllChips] changes no chip when it is
    called, each of its timers reveals its card and hides none, and
    [showHint] hides none, so under these a Revealed chip stays Revealed;
    [toggleChip] is a toggle: on a Revealed chip it removes the class and
    the chip is Hidden again, on a Hidden chip it reveals it. *)
Theorem reveal_one_way_but_toggle :
  (forall (containerId : jsstring) (p : Page),
      exists p', revealAllChips containerId p = Normal (tt, p')
                 /\ elements p' = elements p
                 /\ forall t, In t (timers p') -> In t (timers p) \/
                      exists card e, timerCallback t = RevealCard card
                                     /\ elements p !! card = Some e
                                     /\ isRevealed p card = false)
  /\ (forall (card : nat) (p : Page) (e : Element),
        elements p !! card = Some e ->
        exists p', runTimerCallback (RevealCard card) p = Normal (tt, p')
                   /\ isRevealed p' card = true
                   /\ forall c, isRevealed p c = true -> isRevealed p' c = true)
  /\ (forall (layerName : jsstring) (p : Page),
        exists p', showHint layerName p = Normal (tt, p')
                   /\ forall c, isRevealed p c = true -> isRevealed p' c = true)
  /\ (forall (card : nat) (p : Page) (e : Element),
        elements p !! card = Some e ->
        exists p', toggleChip (Some card) p = Normal (tt, p')
                   /\ isRevealed p' card = negb (isRevealed p card)
                   /\ forall c, c <> card -> isRevealed p' c = isRevealed p c).
Proof.
  split; [|split; [|split]].
  - intros containerId p.
    destruct (revealAllChips_schedules containerId p) as (ts & Hrun & Hts).
    eexists. split; [exact Hrun|]. split; [reflexivity|].
    cbn [timers setTimers]. intros t Ht. apply in_app_or in Ht as [Ht|Ht]; [now left|].
    right. rewrite Forall_forall in Hts.
    destruct (Hts t) as (card & e & Hcb & He & _ & Hrev); [now apply list_elem_of_In|].
    eauto.
  - intros card p e He.
    destruct (runTimerCallback_reveals p card e He) as (p' & Hrun & Hcard & Ho).
    exists p'. split; [exact Hrun|]. split; [exact Hcard|].
    intros c Hc. destruct (decide (c = card)) as [->|Hne]; [exact Hcard|]. now rewrite Ho.
  - exact showHint_monotone.
  - intros card p e He. exact (toggleChip_flips p card e He).
Qed.

(** * Further properties of the codec *)

(** ** The code table: decoding and encoding are inverse *)

Lemma isAB_cases (c : N) : isAB c = true -> c = 65 \/ c = 66.
Proof.
  unfold isAB, charA, charB. rewrite orb_true_iff, !N.eqb_eq. tauto.
Qed.

(** X1: Every index from 0 to 25, written in the code table, decodes to the
    letter of that index. *)
Theorem decodeGroup_encodeIndex (i : N) :
  i <= 25 -> decodeGroup (JSString (encodeIndex i)) = [65 + i].
Proof.
  intros Hi. destruct i as [|q]; [reflexivity|].
  do 5 (try destruct q as [q|q|]); try reflexivity; exfalso; lia.
Qed.

(** X2: A group that decodes to a letter is, once upper-cased, the entry of
    that letter in the code table; so two groups that decode to the same
    letter differ in case only. *)
Theorem encodeIndex_decodeGroup (s : jsstring) (c : N) :
  decodeGroup (JSString s) = [c] -> c <> 63 ->
  65 <= c <= 90 /\ encodeIndex (c - 65) = toUpperCase s
  /\ (forall s', decodeGroup (JSString s') = [c] -> toUpperCase s' = toUpperCase s).
Proof.
  assert (Hone : forall t d, decodeGroup (JSString t) = [d] -> d <> 63 ->
                   65 <= d <= 90 /\ encodeIndex (d - 65) = toUpperCase t).
  { intros t d. rewrite decodeGroup_string.
    destruct (Nat.eqb (length (toUpperCase t)) 5) eqn:H5;
      [|cbn [andb]; intros E; injection E as <-; intros H; now elim H].
    destruct (forallb isAB (toUpperCase t)) eqn:HAB;
      [|cbn [andb]; intros E; injection E as <-; intros H; now elim H].
    cbn [andb]. apply Nat.eqb_eq in H5.
    destruct (toUpperCase t) as [|a [|b [|e [|f [|g [|? ?]]]]]]; try discriminate.
    cbn [forallb] in HAB. rewrite !andb_true_iff in HAB.
    destruct HAB as (Ha & Hb & He & Hf & Hg & _).
    apply isAB_cases in Ha, Hb, He, Hf, Hg.
    destruct Ha as [-> | ->]; destruct Hb as [-> | ->]; destruct He as [-> | ->];
      destruct Hf as [-> | ->]; destruct Hg as [-> | ->];
      cbn; intros E; injection E as <-; intros H;
      first [ now elim H | split; [lia | reflexivity] ]. }
  intros Hs Hc. destruct (Hone s c Hs Hc) as [Hr He]. split; [exact Hr|].
  split; [exact He|]. intros s' Hs'. destruct (Hone s' c Hs' Hc) as [_ He'].
  congruence.
Qed.

Lemma asciiToUpper_idempotent (c : N) : asciiToUpper (asciiToUpper c) = asciiToUpper c.
Proof.
  unfold asciiToUpper, isAsciiLower.
  destruct (N.leb_spec 97 c); destruct (N.leb_spec c 122); cbn [andb]; try reflexivity.
  - destruct (N.leb_spec 97 (c - 32)); destruct (N.leb_spec (c - 32) 122);
      cbn [andb]; try reflexivity; lia.
  - destruct (N.leb_spec 97 c); destruct (N.leb_spec c 122); cbn [andb];
      try reflexivity; lia.
  - destruct (N.leb_spec 97 c); destruct (N.leb_spec c 122); cbn [andb];
      try reflexivity; lia.
  - destruct (N.leb_spec 97 c); destruct (N.leb_spec c 122); cbn [andb];
      try reflexivity; lia.
Qed.

Lemma asciiToUpper_ascii (c : N) : c < 128 -> asciiToUpper c < 128.
Proof. unfold asciiToUpper. destruct (isAsciiLower c); lia. Qed.

(** X3: The case of an ASCII group does not matter to [decodeGroup]. *)
Theorem decodeGroup_case_insensitive (s : jsstring) :
  Forall (fun c => c < 128) s ->
  decodeGroup (JSString (map asciiToUpper s)) = decodeGroup (JSString s).
Proof.
  intros H. rewrite !decodeGroup_string.
  assert (E : toUpperCase (map asciiToUpper s) = toUpperCase s).
  { rewrite !toUpperCase_ascii; [|exact H|].
    - rewrite map_map. apply map_ext. exact asciiToUpper_idempotent.
    - rewrite Forall_forall in *. intros c Hc. apply list_elem_of_In, in_map_iff in Hc
        as (d & <- & Hd). apply asciiToUpper_ascii, H. now apply list_elem_of_In. }
  now rewrite E.
Qed.

(** ** [isValidGroup] never fails *)

Lemma validLoop_normal (g : jsstring) (n i : nat) :
  (i + n <= length g)%nat -> exists b, validLoop g i n = Normal b.
Proof.
  revert i. induction n as [|n IH]; intros i Hlen; [now exists true|].
  cbn [validLoop]. destruct (g !! i) as [c|] eqn:Hi.
  2:{ apply lookup_ge_None in Hi. lia. }
  cbv zeta.
  destruct (negb (bool_decide (toUpperCase [c] = [charA]))
            && negb (bool_decide (toUpperCase [c] = [charB])));
    [now exists false | apply IH; lia].
Qed.

(** X4: Whatever the value and whatever the case table, [isValidGroup] returns
    a boolean: the index its loop reads is always inside the string. *)
Theorem isValidGroup_never_throws (v : JSValue) :
  exists b, isValidGroup v = Normal b.
Proof.
  destruct v; try (now exists false). unfold isValidGroup.
  destruct (Nat.eqb (length s) 5) eqn:H5.
  - apply Nat.eqb_eq in H5.
    destruct (negb (ToBoolean (JSString s)) || negb true); [now exists false|].
    apply validLoop_normal. lia.
  - rewrite orb_true_r. now exists false.
Qed.

(** ** [normalizePlaintext] *)

Lemma isAsciiLetter_asciiToUpper (c : N) :
  isAsciiLetter c = true ->
  isAsciiUpper (asciiToUpper c) = true /\ isAsciiLetter (asciiToUpper c) = true.
Proof.
  unfold isAsciiLetter, asciiToUpper. intros Hc.
  destruct (isAsciiLower c) eqn:El.
  - assert (Hu : isAsciiUpper (c - 32) = true).
    { unfold isAsciiLower in El. apply andb_true_iff in El as [E1 E2].
      apply N.leb_le in E1, E2. unfold isAsciiUpper.
      apply andb_true_iff. split; apply N.leb_le; lia. }
    rewrite Hu. split; [reflexivity | apply orb_true_r].
  - rewrite El. cbn [orb] in Hc |- *. auto.
Qed.

Lemma filter_letters_upper (l : jsstring) :
  Forall (fun c => isAsciiLetter c = true) l ->
  List.filter isAsciiLetter (map asciiToUpper l) = map asciiToUpper l.
Proof.
  induction 1 as [|c l Hc Hl IH]; [reflexivity|].
  cbn [map List.filter]. destruct (isAsciiLetter_asciiToUpper c Hc) as [_ ->].
  now rewrite IH.
Qed.

Lemma filter_letters_Forall (s : jsstring) :
  Forall (fun c => isAsciiLetter c = true) (List.filter isAsciiLetter s).
Proof.
  rewrite Forall_forall. intros c Hc. now apply list_elem_of_In, filter_In in Hc as [_ Hc].
Qed.

(** X5: [normalizePlaintext] answers capital letters only, whatever it is
    given (the empty string for a value that is not a string), and
    normalizing its answer again changes nothing. *)
Theorem normalizePlaintext_idempotent (v : JSValue) :
  Forall (fun c => isAsciiUpper c = true) (normalizePlaintext v)
  /\ normalizePlaintext (JSString (normalizePlaintext v)) = normalizePlaintext v
  /\ (typeofIsString v = false -> normalizePlaintext v = []).
Proof.
  destruct (typeofIsString v) eqn:Hty.
  - destruct v; try discriminate. rewrite !normalizePlaintext_string.
    split; [|split; [|discriminate]].
    + rewrite Forall_forall. intros c Hc.
      apply list_elem_of_In, in_map_iff in Hc as (d & <- & Hd).
      apply filter_In in Hd as [_ Hd]. now apply isAsciiLetter_asciiToUpper.
    + rewrite filter_letters_upper by apply filter_letters_Forall.
      rewrite map_map. apply map_ext. exact asciiToUpper_idempotent.
  - assert (E : normalizePlaintext v = []).
    { unfold normalizePlaintext. rewrite Hty. cbn [negb]. now rewrite orb_true_r. }
    rewrite E. split; [constructor|]. split; [reflexivity | reflexivity].
Qed.

(** X6: [normalizePlaintext] works character by character: the normalization
    of a concatenation is the concatenation of the normalizations, and it
    is never longer than the string. *)
Theorem normalizePlaintext_app (a b : jsstring) :
  normalizePlaintext (JSString (a ++ b))
  = normalizePlaintext (JSString a) ++ normalizePlaintext (JSString b)
  /\ (length (normalizePlaintext (JSString a)) <= length a)%nat.
Proof.
  rewrite !normalizePlaintext_string. split.
  - now rewrite List.filter_app, List.map_app.
  - rewrite length_map. apply List.filter_length_le.
Qed.

(** ** [decodeGroups] on any array *)

Lemma decodeGroups_array (elems : list (option JSValue)) :
  decodeGroups (JSArray elems) = flat_map decodeGroup (presentSlots elems).
Proof.
  unfold decodeGroups, joinEmpty, presentSlots.
  induction elems as [|[v|] elems IH]; [reflexivity| |].
  - cbn [map option_map flat_map omap]. cbn. now rewrite IH.
  - cbn [map option_map flat_map omap]. cbn. exact IH.
Qed.

Lemma flat_map_single_length (vs : list JSValue) :
  length (flat_map decodeGroup vs) = length vs
  /\ Forall (fun c => c = 63 \/ 65 <= c <= 90) (flat_map decodeGroup vs).
Proof.
  induction vs as [|v vs [IHl IHf]]; [split; [reflexivity | constructor]|].
  cbn [flat_map]. destruct (decodeGroup_single v) as (c & -> & Hc).
  cbn [app length]. split; [now rewrite IHl | now constructor].
Qed.

(** X7: On an array with holes, [decodeGroups] gives one character, a capital
    letter or the question mark, for each slot that is not a hole and
    nothing for a hole; it turns the concatenation of two arrays into the
    concatenation of their decodings. *)
Theorem decodeGroups_holes (elems more : list (option JSValue)) :
  length (decodeGroups (JSArray elems)) = length (presentSlots elems)
  /\ Forall (fun c => c = 63 \/ 65 <= c <= 90) (decodeGroups (JSArray elems))
  /\ decodeGroups (JSArray (elems ++ more))
     = decodeGroups (JSArray elems) ++ decodeGroups (JSArray more)
  /\ decodeGroups (JSArray (None :: elems)) = decodeGroups (JSArray elems).
Proof.
  rewrite !decodeGroups_array.
  destruct (flat_map_single_length (presentSlots elems)) as [Hl Hf].
  split; [exact Hl|]. split; [exact Hf|]. split.
  - unfold presentSlots. now rewrite omap_app, flat_map_app.
  - reflexivity.
Qed.

(** X8: Normalizing a decoded text only drops its question marks: the letters
    [decodeGroups] gives are already what [normalizePlaintext] keeps. *)
Theorem normalizePlaintext_decodeGroups (v : JSValue) :
  normalizePlaintext (JSString (decodeGroups v))
  = List.filter (fun c => negb (c =? 63)) (decodeGroups v).
Proof.
  rewrite normalizePlaintext_string.
  assert (H : Forall (fun c => c = 63 \/ 65 <= c <= 90) (decodeGroups v)).
  { destruct v; try constructor. rewrite decodeGroups_array.
    apply flat_map_single_length. }
  induction H as [|c l Hc Hl IH]; [reflexivity|].
  cbn [List.filter]. destruct Hc as [-> | Hc].
  - cbn. exact IH.
  - assert (E1 : isAsciiLetter c = true).
    { unfold isAsciiLetter, isAsciiUpper. apply orb_true_iff. right.
      apply andb_true_iff. split; apply N.leb_le; lia. }
    assert (E2 : asciiToUpper c = c).
    { unfold asciiToUpper, isAsciiLower.
      destruct (N.leb_spec 97 c); [lia | reflexivity]. }
    assert (E3 : (c =? 63) = false) by (apply N.eqb_neq; lia).
    rewrite E1, E3. cbn [negb map]. now rewrite E2, IH.
Qed.

(** * Further properties of the controller *)

(** ** One card written *)

Lemma toggleChip_page (p : Page) (card : nat) (e : Element) :
  elements p !! card = Some e ->
  toggleChip (Some card) p
  = Normal (tt, setElements (<[card := toggledCard e]> (elements p)) p).
Proof.
  intros H.
  assert (Hlt : (card < length (elements p))%nat) by (eapply lookup_lt_Some; eauto).
  unfold toggleChip. cbn [truthy negb].
  unfold classList_toggle, classList_contains. unfold bind at 1 2.
  rewrite (readElement_Some _ _ _ _ H). unfold toggledCard.
  destruct (hasClass revealed e).
  - unfold bind, ret. rewrite (writeElement_Some _ _ _ _ H). cbv beta iota.
    cbn [boolToString].
    erewrite setAttribute_Some
      by (cbn [elements setElements]; apply list_lookup_insert_eq; exact Hlt).
    cbn [elements setElements]. now rewrite list_insert_insert_eq.
  - unfold bind, ret. rewrite (writeElement_Some _ _ _ _ H). cbv beta iota.
    cbn [boolToString].
    erewrite setAttribute_Some
      by (cbn [elements setElements]; apply list_lookup_insert_eq; exact Hlt).
    cbn [elements setElements]. now rewrite list_insert_insert_eq.
Qed.

Lemma runTimerCallback_page (p : Page) (card : nat) (e : Element) :
  elements p !! card = Some e ->
  runTimerCallback (RevealCard card) p
  = Normal (tt, setElements (<[card := revealedCard e]> (elements p)) p).
Proof.
  intros H.
  assert (Hlt : (card < length (elements p))%nat) by (eapply lookup_lt_Some; eauto).
  unfold runTimerCallback, classList_add, bind.
  rewrite (writeElement_Some _ _ _ _ H).
  erewrite setAttribute_Some
    by (cbn [elements setElements]; apply list_lookup_insert_eq; exact Hlt).
  cbn [elements setElements]. now rewrite list_insert_insert_eq.
Qed.

Lemma hasClass_toggledCard (e : Element) :
  hasClass revealed (toggledCard e) = negb (hasClass revealed e).
Proof.
  unfold toggledCard. destruct (hasClass revealed e) eqn:E; cbn [negb].
  - exact (hasClass_removeToken revealed e).
  - exact (hasClass_append revealed e).
Qed.

Lemma hasClass_revealedCard (e : Element) : hasClass revealed (revealedCard e) = true.
Proof. exact (hasClass_addToken revealed e). Qed.

(** X10: After [toggleChip], and after a timer of [revealAllChips], the
    attribute [aria-pressed] of the card says whether it is revealed; the
    write touches the class list and that attribute of the one card and
    nothing else on the page. *)
Theorem aria_pressed_mirrors_revealed (p : Page) (card : nat) (e : Element) :
  elements p !! card = Some e ->
  (exists e',
      toggleChip (Some card) p = Normal (tt, setElements (<[card := e']> (elements p)) p)
      /\ hasClass revealed e' = negb (hasClass revealed e)
      /\ elAttributes e' !! "aria-pressed" = Some (boolToString (hasClass revealed e'))
      /\ (forall name, name <> "aria-pressed" ->
            elAttributes e' !! name = elAttributes e !! name)
      /\ (forall cls, cls <> revealed -> hasClass cls e' = hasClass cls e)
      /\ setClassList (elClassList e) (setAttributes (elAttributes e) e') = e)
  /\ (exists e',
        runTimerCallback (RevealCard card) p
        = Normal (tt, setElements (<[card := e']> (elements p)) p)
        /\ hasClass revealed e' = true
        /\ elAttributes e' !! "aria-pressed" = Some (js "true")
        /\ (forall name, name <> "aria-pressed" ->
              elAttributes e' !! name = elAttributes e !! name)
        /\ (forall cls, cls <> revealed -> hasClass cls e' = hasClass cls e)
        /\ setClassList (elClassList e) (setAttributes (elAttributes e) e') = e).
Proof.
  intros H. split.
  - exists (toggledCard e). split; [now apply toggleChip_page|].
    split; [apply hasClass_toggledCard|]. rewrite hasClass_toggledCard.
    unfold toggledCard. destruct (hasClass revealed e) eqn:E;
      cbn [negb boolToString elAttributes setAttributes setClassList elClassList].
    + split; [apply lookup_insert_eq|]. split; [intros; now apply lookup_insert_ne|].
      split; [|destruct e; reflexivity].
      intros cls Hcls. unfold hasClass, removeToken. cbn [elClassList setClassList].
      apply bool_decide_ext. split.
      * intros Hin. apply list_elem_of_In, filter_In in Hin as [Hin _].
        now apply list_elem_of_In.
      * intros Hin. apply list_elem_of_In, filter_In.
        split; [now apply list_elem_of_In|].
        apply negb_true_iff, bool_decide_eq_false_2. congruence.
    + split; [apply lookup_insert_eq|]. split; [intros; now apply lookup_insert_ne|].
      split; [|destruct e; reflexivity].
      intros cls Hcls. unfold hasClass. cbn [elClassList setClassList setAttributes].
      apply bool_decide_ext. rewrite elem_of_app, list_elem_of_singleton. tauto.
  - exists (revealedCard e). split; [now apply runTimerCallback_page|].
    split; [apply hasClass_revealedCard|]. unfold revealedCard.
    cbn [elAttributes setAttributes setClassList elClassList].
    split; [apply lookup_insert_eq|]. split; [intros; now apply lookup_insert_ne|].
    split; [|destruct e; reflexivity].
    intros cls Hcls. unfold hasClass, addToken. cbn [elClassList setClassList setAttributes].
    apply bool_decide_ext. case_bool_decide; [tauto|].
    rewrite elem_of_app, list_elem_of_singleton. tauto.
Qed.

(** X11: Toggling a card twice brings every chip of the page back to the reveal
    state it had. *)
Theorem toggleChip_twice (p : Page) (card : nat) (e : Element) :
  elements p !! card = Some e ->
  exists p' p'',
    toggleChip (Some card) p = Normal (tt, p')
    /\ toggleChip (Some card) p' = Normal (tt, p'')
    /\ (forall c, isRevealed p'' c = isRevealed p c)
    /\ isRevealed p' card = negb (isRevealed p card).
Proof.
  intros H.
  assert (Hlt : (card < length (elements p))%nat) by (eapply lookup_lt_Some; eauto).
  eexists _, _. split; [exact (toggleChip_page _ _ _ H)|]. split.
  - apply toggleChip_page. cbn [elements setElements].
    apply list_lookup_insert_eq. exact Hlt.
  - cbn [elements setElements]. rewrite list_insert_insert_eq. split.
    + intros c. unfold isRevealed. cbn [elements setElements].
      destruct (decide (c = card)) as [->|Hne].
      * rewrite list_lookup_insert_eq by exact Hlt. rewrite H.
        rewrite !hasClass_toggledCard. apply negb_involutive.
      * now rewrite list_lookup_insert_ne by congruence.
    + unfold isRevealed. cbn [elements setElements].
      rewrite list_lookup_insert_eq by exact Hlt. rewrite H.
      apply hasClass_toggledCard.
Qed.

(** ** Reveal All *)

Lemma setTimers_same (p : Page) : setTimers (timers p) p = p.
Proof. destruct p; reflexivity. Qed.

Lemma revealAll_loop_exact (reduced : bool) (cards : list nat) (i : nat) (p q : Page) :
  elements q = elements p ->
  (forall c, In c cards -> exists e, elements p !! c = Some e) ->
  forEachFrom (fun card index =>
    let* isRevealed := classList_contains (Some card) revealed in
    if negb isRevealed
    then setTimeout (RevealCard card)
           (if reduced then 0%Z else (Z.of_nat index * 60)%Z)
    else ret tt) cards i q
  = Normal (tt, setTimers (timers q ++ scheduleFrom reduced p cards i) q).
Proof.
  revert i q. induction cards as [|card cards IH]; intros i q Hq Hvalid.
  - cbn [forEachFrom scheduleFrom]. unfold ret. rewrite app_nil_r.
    now rewrite setTimers_same.
  - destruct (Hvalid card (or_introl eq_refl)) as [e He].
    cbn [forEachFrom scheduleFrom]. unfold bind at 1 2. unfold classList_contains.
    assert (Heq : elements q !! card = Some e) by (rewrite Hq; exact He).
    rewrite (readElement_Some _ _ _ _ Heq).
    assert (Hr : isRevealed p card = hasClass revealed e).
    { unfold isRevealed. now rewrite He. }
    rewrite Hr. destruct (hasClass revealed e); cbn [negb].
    + unfold ret at 1. cbv beta iota. cbn [app]. apply IH; [exact Hq|].
      intros c Hc. apply Hvalid. now right.
    + unfold setTimeout at 1.
      etransitivity;
        [apply (IH (S i) (setTimers (timers q ++
                  [mkTimer (RevealCard card)
                     (if reduced then 0%Z else (Z.of_nat i * 60)%Z)]) q) Hq);
         intros c Hc; apply Hvalid; now right|].
      cbn [timers setTimers]. now rewrite <- app_assoc.
Qed.

Lemma revealAllChips_exact (containerId : jsstring) (p : Page) :
  revealAllChips containerId p
  = Normal (tt, setTimers
                  (timers p ++ scheduleFrom (prefersReducedMotion p) p
                                 (chipCardsOf p containerId) 0) p).
Proof.
  unfold revealAllChips, chipCardsOf. unfold bind at 1. unfold getElementById.
  destruct (elementById p containerId) as [r|]; cbn [truthy negb].
  2:{ unfold ret. cbn [scheduleFrom]. now rewrite app_nil_r, setTimers_same. }
  unfold bind at 1 2. unfold querySelectorAll, matchMediaReducedMotion, forEach.
  apply revealAll_loop_exact; [reflexivity|].
  intros c Hc. apply selectAll_Some in Hc as (e & He & _). eauto.
Qed.

Lemma scheduleFrom_cards (reduced : bool) (p : Page) (cards : list nat) (i : nat) :
  map timerCard (scheduleFrom reduced p cards i)
  = List.filter (fun c => negb (isRevealed p c)) cards.
Proof.
  revert i. induction cards as [|c cards IH]; intros i; [reflexivity|].
  cbn [scheduleFrom List.filter]. rewrite List.map_app, IH.
  destruct (isRevealed p c); reflexivity.
Qed.

Lemma scheduleFrom_delays (reduced : bool) (p : Page) (cards : list nat) (i : nat) :
  Forall (fun t => exists k, cards !! k = Some (timerCard t)
                             /\ isRevealed p (timerCard t) = false
                             /\ timerDelay t
                                = if reduced then 0%Z else (Z.of_nat (i + k) * 60)%Z)
    (scheduleFrom reduced p cards i).
Proof.
  revert i. induction cards as [|c cards IH]; intros i; [constructor|].
  cbn [scheduleFrom]. apply Forall_app. split.
  - destruct (isRevealed p c) eqn:Hc; constructor; [|constructor].
    exists 0%nat. cbn. rewrite Nat.add_0_r. auto.
  - eapply Forall_impl; [apply (IH (S i))|]. intros t (k & Hk & Hr & Hd).
    exists (S k). cbn [lookup list_lookup]. split; [exact Hk|]. split; [exact Hr|].
    rewrite Hd. replace (S i + k)%nat with (i + S k)%nat by lia. reflexivity.
Qed.

(** X12: [revealAllChips] sets one timer for each chip of the container that is
    not revealed, in document order, and changes nothing else.  The delay
    of a timer is 60 ms times the position of its chip among the chips of
    the container, and zero for every timer when reduced motion is asked
    for.  When every chip is revealed already it leaves the page as it
    is. *)
Theorem revealAllChips_schedule (containerId : jsstring) (p : Page) :
  exists ts,
    revealAllChips containerId p = Normal (tt, setTimers (timers p ++ ts) p)
    /\ map timerCard ts
       = List.filter (fun c => negb (isRevealed p c)) (chipCardsOf p containerId)
    /\ Forall (fun t => exists k,
                 chipCardsOf p containerId !! k = Some (timerCard t)
                 /\ timerDelay t
                    = if prefersReducedMotion p then 0%Z else (Z.of_nat k * 60)%Z) ts
    /\ (Forall (fun c => isRevealed p c = true) (chipCardsOf p containerId) ->
        revealAllChips containerId p = Normal (tt, p)).
Proof.
  exists (scheduleFrom (prefersReducedMotion p) p (chipCardsOf p containerId) 0).
  split; [apply revealAllChips_exact|]. split; [apply scheduleFrom_cards|]. split.
  - eapply Forall_impl; [apply scheduleFrom_delays|]. intros t (k & Hk & _ & Hd).
    exists k. auto.
  - intros Hall. rewrite revealAllChips_exact.
    assert (E : scheduleFrom (prefersReducedMotion p) p (chipCardsOf p containerId) 0 = []).
    { generalize 0%nat. induction Hall as [|c cards Hc Hcards IH]; intros i; [reflexivity|].
      cbn [scheduleFrom]. now rewrite Hc, IH. }
    now rewrite E, app_nil_r, setTimers_same.
Qed.

(** ** Timers firing *)

Lemma insertTimer_In (t u : Timer) (l : list Timer) :
  In t (insertTimer u l) <-> t = u \/ In t l.
Proof.
  induction l as [|v l IH]; cbn [insertTimer].
  - cbn. intuition congruence.
  - destruct (timerDelay u <? timerDelay v)%Z; cbn [In]; [intuition congruence|].
    rewrite IH. intuition congruence.
Qed.

Lemma firingOrder_In (t : Timer) (ts : list Timer) :
  In t (firingOrder ts) <-> In t ts.
Proof.
  unfold firingOrder.
  assert (H : forall acc, In t (fold_left (fun fired u => insertTimer u fired) ts acc)
                          <-> In t ts \/ In t acc).
  { induction ts as [|u ts IH]; intros acc; cbn [fold_left In]; [tauto|].
    rewrite IH, insertTimer_In. intuition congruence. }
  rewrite H. cbn. tauto.
Qed.

Lemma insertTimer_last (t : Timer) (l : list Timer) :
  Forall (fun u => (timerDelay u <= timerDelay t)%Z) l -> insertTimer t l = l ++ [t].
Proof.
  induction 1 as [|u l Hu Hl IH]; [reflexivity|].
  cbn [insertTimer app]. destruct (Z.ltb_spec (timerDelay t) (timerDelay u)); [lia|].
  now rewrite IH.
Qed.

(** Timers set in the order of their delays fire in the order they were
    set. *)
Lemma firingOrder_sorted (ts : list Timer) :
  StronglySorted (fun a b => (timerDelay a <= timerDelay b)%Z) ts ->
  firingOrder ts = ts.
Proof.
  unfold firingOrder. intros H.
  assert (G : forall acc,
             Forall (fun a => Forall (fun b => (timerDelay a <= timerDelay b)%Z) ts) acc ->
             fold_left (fun fired u => insertTimer u fired) ts acc = acc ++ ts).
  { induction H as [|u ts Hts IH Hu]; intros acc Hacc; cbn [fold_left].
    - now rewrite app_nil_r.
    - rewrite insertTimer_last.
      + rewrite IH; [now rewrite <- app_assoc|]. apply Forall_app. split.
        * eapply Forall_impl; [exact Hacc|]. intros a Ha. now apply Forall_cons_1 in Ha as [_ Ha].
        * constructor; [exact Hu | constructor].
      + eapply Forall_impl; [exact Hacc|]. intros a Ha. now apply Forall_cons_1 in Ha as [Ha _]. }
  now rewrite G by constructor.
Qed.

Lemma scheduleFrom_sorted (reduced : bool) (p : Page) (cards : list nat) (i : nat) :
  StronglySorted (fun a b => (timerDelay a <= timerDelay b)%Z)
    (scheduleFrom reduced p cards i).
Proof.
  revert i. induction cards as [|c cards IH]; intros i; [constructor|].
  cbn [scheduleFrom]. destruct (isRevealed p c); cbn [app]; [apply IH|].
  constructor; [apply IH|].
  eapply Forall_impl; [apply (scheduleFrom_delays reduced p cards (S i))|].
  intros t (k & _ & _ & Hd). cbn [timerDelay]. rewrite Hd. destruct reduced; lia.
Qed.

Lemma isRevealed_insert (p : Page) (card c : nat) (e e' : Element) :
  elements p !! card = Some e ->
  isRevealed (setElements (<[card := e']> (elements p)) p) c
  = if decide (c = card) then hasClass revealed e' else isRevealed p c.
Proof.
  intros H.
  assert (Hlt : (card < length (elements p))%nat) by (eapply lookup_lt_Some; eauto).
  unfold isRevealed. cbn [elements setElements].
  destruct (decide (c = card)) as [->|Hne].
  - now rewrite list_lookup_insert_eq by exact Hlt.
  - now rewrite list_lookup_insert_ne by congruence.
Qed.

(** Running timers whose cards exist reveals those cards and no other. *)
Lemma runCallbacks_reveals (ts : list Timer) (q : Page) :
  (forall t, In t ts -> is_Some (elements q !! timerCard t)) ->
  exists q',
    runCallbacks ts q = Normal (tt, q')
    /\ length (elements q') = length (elements q)
    /\ timers q' = timers q
    /\ listeners q' = listeners q
    /\ forall c, isRevealed q' c
                 = isRevealed q c || bool_decide (c ∈ map timerCard ts).
Proof.
  revert q. induction ts as [|t ts IH]; intros q Hvalid.
  - exists q. repeat split; try reflexivity. intros c.
    rewrite bool_decide_eq_false_2 by (rewrite list_elem_of_In; cbn; tauto).
    now rewrite orb_false_r.
  - destruct (Hvalid t (or_introl eq_refl)) as [e He].
    cbn [runCallbacks]. unfold bind.
    assert (Ecb : timerCallback t = RevealCard (timerCard t)).
    { unfold timerCard. now destruct (timerCallback t). }
    rewrite Ecb, (runTimerCallback_page _ _ _ He).
    destruct (IH (setElements (<[timerCard t := revealedCard e]> (elements q)) q))
      as (q' & Hrun & Hlen & Htim & Hlis & Hrev).
    { intros u Hu. cbn [elements setElements]. apply lookup_lt_is_Some.
      rewrite length_insert. apply lookup_lt_is_Some. apply Hvalid. now right. }
    exists q'. split; [exact Hrun|]. cbn [elements setElements timers listeners] in *.
    rewrite length_insert in Hlen. repeat split; try assumption.
    intros c. rewrite Hrev, (isRevealed_insert _ _ _ _ _ He). cbn [map].
    destruct (decide (c = timerCard t)) as [->|Hne].
    + rewrite hasClass_revealedCard. cbn [orb].
      rewrite (bool_decide_eq_true_2 (_ ∈ _ :: _)) by apply list_elem_of_here.
      now rewrite orb_true_r.
    + f_equal. apply bool_decide_ext. rewrite elem_of_cons. intuition congruence.
Qed.

(** X13: Reveal All, once its timers have fired: every chip of the container is
    revealed and the timer queue is empty; a chip outside the container
    keeps its state unless a timer pending before was for it.  The only
    assumption is that the timers pending before refer to elements of the
    page. *)
Theorem revealAllChips_then_timers (containerId : jsstring) (p : Page) :
  (forall t, In t (timers p) -> is_Some (elements p !! timerCard t)) ->
  exists p',
    (revealAllChips containerId;;; runPendingTimers) p = Normal (tt, p')
    /\ timers p' = []
    /\ listeners p' = listeners p
    /\ (forall c, In c (chipCardsOf p containerId) -> isRevealed p' c = true)
    /\ (forall c, isRevealed p c = true -> isRevealed p' c = true)
    /\ (forall c, ~ In c (chipCardsOf p containerId) ->
                  ~ In c (map timerCard (timers p)) ->
                  isRevealed p' c = isRevealed p c).
Proof.
  intros Hpending.
  pose proof (revealAllChips_exact containerId p) as Hrun.
  pose proof (scheduleFrom_cards (prefersReducedMotion p) p (chipCardsOf p containerId) 0)
    as Hcards.
  set (ts := scheduleFrom (prefersReducedMotion p) p (chipCardsOf p containerId) 0) in *.
  unfold bind. rewrite Hrun. unfold runPendingTimers. cbn [timers setTimers].
  destruct (runCallbacks_reveals (firingOrder (timers p ++ ts))
              (setTimers [] (setTimers (timers p ++ ts) p)))
    as (p' & Hp' & _ & Htim & Hlis & Hrev).
  { intros t Ht. cbn [elements setTimers]. apply firingOrder_In, in_app_or in Ht as [Ht|Ht].
    - now apply Hpending.
    - assert (Hin : In (timerCard t) (map timerCard ts)) by now apply in_map.
      rewrite Hcards in Hin. apply filter_In in Hin as [Hin _].
      unfold chipCardsOf in Hin. destruct (elementById p containerId); [|destruct Hin].
      apply selectAll_Some in Hin as (e & He & _). rewrite He. eauto. }
  exists p'. split; [exact Hp'|]. split; [exact Htim|]. split; [exact Hlis|].
  assert (Hmem : forall c, In c (map timerCard (firingOrder (timers p ++ ts)))
                           <-> In c (map timerCard (timers p))
                               \/ (In c (chipCardsOf p containerId)
                                   /\ isRevealed p c = false)).
  { intros c. rewrite !in_map_iff. split.
    - intros (t & <- & Ht). apply firingOrder_In, in_app_or in Ht as [Ht|Ht].
      + left. eauto.
      + right. assert (Hin : In (timerCard t) (map timerCard ts)) by now apply in_map.
        rewrite Hcards in Hin. apply filter_In in Hin as [Hin Hh].
        split; [exact Hin | now apply negb_true_iff].
    - intros [(t & <- & Ht)|[Hin Hh]].
      + exists t. split; [reflexivity|]. apply firingOrder_In, in_or_app. now left.
      + assert (Hc : In c (map timerCard ts)).
        { rewrite Hcards. apply filter_In. split; [exact Hin | now apply negb_true_iff]. }
        apply in_map_iff in Hc as (t & <- & Ht). exists t. split; [reflexivity|].
        apply firingOrder_In, in_or_app. now right. }
  assert (Hsame : forall c, isRevealed (setTimers [] (setTimers (timers p ++ ts) p)) c
                            = isRevealed p c) by reflexivity.
  split; [|split].
  - intros c Hc. rewrite Hrev, Hsame. destruct (isRevealed p c) eqn:E; [reflexivity|].
    cbn [orb]. apply bool_decide_eq_true_2, list_elem_of_In, Hmem. now right.
  - intros c Hc. now rewrite Hrev, Hsame, Hc.
  - intros c Hout Hnp. rewrite Hrev, Hsame.
    rewrite bool_decide_eq_false_2; [apply orb_false_r|].
    intros Hin. apply list_elem_of_In, Hmem in Hin as [Hin|[Hin _]]; contradiction.
Qed.

(** X14: With no other timer pending, the timers of Reveal All fire in the order
    they were set, which is the document order of the chips. *)
Theorem revealAllChips_fires_in_order (containerId : jsstring) (p : Page) :
  timers p = [] ->
  exists ts,
    revealAllChips containerId p = Normal (tt, setTimers ts p)
    /\ firingOrder ts = ts
    /\ map timerCard ts
       = List.filter (fun c => negb (isRevealed p c)) (chipCardsOf p containerId).
Proof.
  intros Hempty.
  exists (scheduleFrom (prefersReducedMotion p) p (chipCardsOf p containerId) 0).
  rewrite revealAllChips_exact, Hempty. cbn [app].
  split; [reflexivity|]. split; [|apply scheduleFrom_cards].
  apply firingOrder_sorted, scheduleFrom_sorted.
Qed.

(** ** What a query depends on *)

Lemma map_insert_same {B : Type} (g : Element -> B) (els : list Element) (n : nat)
    (e e' : Element) :
  els !! n = Some e -> g e' = g e -> map g (<[n := e']> els) = map g els.
Proof.
  intros H Hg. change (g <$> <[n := e']> els = g <$> els).
  rewrite list_fmap_insert, Hg. apply list_insert_id.
  now rewrite list_lookup_fmap, H.
Qed.

Lemma findFrom_ext (f g : Element -> bool) (els els' : list Element) (i : nat) :
  map f els = map g els' -> findFrom f els i = findFrom g els' i.
Proof.
  revert els' i. induction els as [|e els IH]; intros [|e' els'] i H; try discriminate;
    [reflexivity|].
  cbn [map] in H. injection H as Hf Hrest. cbn [findFrom]. rewrite Hf.
  destruct (g e'); [reflexivity|]. now apply IH.
Qed.

(** [getElementById] depends on the ids of the elements and on which of
    them are in the document. *)
Lemma elementById_ext (p q : Page) (id : jsstring) :
  map elId (elements q) = map elId (elements p) ->
  map elConnected (elements q) = map elConnected (elements p) ->
  elementById q id = elementById p id.
Proof.
  intros Hi Hc. unfold elementById. apply findFrom_ext. apply list_eq. intros n.
  change (((fun e => elConnected e && hasId id e) <$> elements q) !! n
          = ((fun e => elConnected e && hasId id e) <$> elements p) !! n).
  rewrite !list_lookup_fmap.
  assert (Ei : elId <$> elements q !! n = elId <$> elements p !! n).
  { rewrite <- !list_lookup_fmap.
    change (map elId (elements q) !! n = map elId (elements p) !! n). now rewrite Hi. }
  assert (Ec : elConnected <$> elements q !! n = elConnected <$> elements p !! n).
  { rewrite <- !list_lookup_fmap.
    change (map elConnected (elements q) !! n = map elConnected (elements p) !! n).
    now rewrite Hc. }
  destruct (elements q !! n) as [e'|], (elements p !! n) as [e|]; cbn in *;
    try discriminate; [|reflexivity].
  injection Ei as Ei. injection Ec as Ec. unfold hasId. now rewrite Ei, Ec.
Qed.

Lemma isDescendantOf_ext (els els' : list Element) (fuel n anc : nat) :
  map elParent els' = map elParent els ->
  isDescendantOf els' fuel n anc = isDescendantOf els fuel n anc.
Proof.
  intros H. revert n. induction fuel as [|fuel IH]; intros n; [reflexivity|].
  cbn [isDescendantOf].
  assert (E : elParent <$> els' !! n = elParent <$> els !! n).
  { rewrite <- !list_lookup_fmap. change (map elParent els' !! n = map elParent els !! n).
    now rewrite H. }
  destruct (els' !! n) as [e'|], (els !! n) as [e|]; cbn in E; try discriminate;
    [|reflexivity].
  injection E as ->. destruct (elParent e); [|reflexivity]. now rewrite IH.
Qed.

(** [querySelectorAll] depends on the tree and on who carries the class. *)
Lemma selectAll_ext (els els' : list Element) (root : nat) (cls : jsstring) :
  map elParent els' = map elParent els ->
  map (hasClass cls) els' = map (hasClass cls) els ->
  selectAll els' root cls = selectAll els root cls.
Proof.
  intros Hp Hc. unfold selectAll.
  assert (Hlen : length els' = length els).
  { rewrite <- (length_map elParent els'), Hp. apply length_map. }
  rewrite Hlen. apply filter_ext. intros n. unfold matchesUnder.
  rewrite Hlen, (isDescendantOf_ext _ _ _ _ _ Hp). f_equal.
  assert (E : hasClass cls <$> els' !! n = hasClass cls <$> els !! n).
  { rewrite <- !list_lookup_fmap.
    change (map (hasClass cls) els' !! n = map (hasClass cls) els !! n). now rewrite Hc. }
  destruct (els' !! n), (els !! n); cbn in E; congruence.
Qed.

Lemma hasClass_other_toggled (cls : jsstring) (e : Element) :
  cls <> revealed -> hasClass cls (toggledCard e) = hasClass cls e.
Proof.
  intros Hcls. unfold toggledCard, hasClass.
  destruct (bool_decide (revealed ∈ elClassList e));
    cbn [elClassList setClassList setAttributes]; apply bool_decide_ext.
  - unfold removeToken. split.
    + intros Hin. apply list_elem_of_In, filter_In in Hin as [Hin _].
      now apply list_elem_of_In.
    + intros Hin. apply list_elem_of_In, filter_In.
      split; [now apply list_elem_of_In|].
      apply negb_true_iff, bool_decide_eq_false_2. congruence.
  - rewrite elem_of_app, list_elem_of_singleton. tauto.
Qed.

(** ** Hint *)

(** X15: [showHint] reveals the first chip of the container when it is hidden
    and changes nothing else; asking for the hint again changes nothing. *)
Theorem showHint_first_chip (layerName : jsstring) (p : Page) :
  exists p',
    showHint layerName p = Normal (tt, p')
    /\ (forall first, head (chipCardsOf p (layerName ++ js "Chips")) = Some first ->
          isRevealed p' first = true)
    /\ (forall c, head (chipCardsOf p (layerName ++ js "Chips")) <> Some c ->
          elements p' !! c = elements p !! c)
    /\ (head (chipCardsOf p (layerName ++ js "Chips")) = None -> p' = p)
    /\ timers p' = timers p /\ listeners p' = listeners p
    /\ showHint layerName p' = Normal (tt, p').
Proof.
  assert (Hshape : forall q,
             showHint layerName q
             = match head (chipCardsOf q (layerName ++ js "Chips")) with
               | Some first =>
                   match elements q !! first with
                   | Some e => if hasClass revealed e then Normal (tt, q)
                               else toggleChip (Some first) q
                   | None => Throw
                   end
               | None => Normal (tt, q)
               end).
  { intros q. unfold showHint, chipCardsOf. unfold bind at 1. unfold getElementById.
    destruct (elementById q (layerName ++ js "Chips")) as [r|]; cbn [truthy negb];
      [|reflexivity].
    unfold bind at 1. unfold querySelector, querySelectorAll. unfold bind at 1.
    unfold ret at 1.
    destruct (selectAll (elements q) r chipCardClass) as [|first rest];
      cbn [head truthy]; [reflexivity|].
    unfold bind at 1. unfold classList_contains, readElement.
    destruct (elements q !! first) as [e|]; [|reflexivity].
    destruct (hasClass revealed e); reflexivity. }
  rewrite Hshape.
  destruct (head (chipCardsOf p (layerName ++ js "Chips"))) as [first|] eqn:Hhead.
  2:{ exists p. rewrite Hshape, Hhead. repeat split; auto. discriminate. }
  assert (Hin : In first (chipCardsOf p (layerName ++ js "Chips"))).
  { destruct (chipCardsOf p (layerName ++ js "Chips")); [discriminate|].
    injection Hhead as ->. now left. }
  unfold chipCardsOf in Hin.
  destruct (elementById p (layerName ++ js "Chips")) as [r|] eqn:Hr; [|destruct Hin].
  apply selectAll_Some in Hin as (e & He & Hcard). rewrite He.
  destruct (hasClass revealed e) eqn:Hrev.
  - exists p. rewrite Hshape, Hhead, He, Hrev.
    split; [reflexivity|]. split; [|split; [|split; [|auto]]].
    + intros f Hf. injection Hf as <-. unfold isRevealed. now rewrite He.
    + reflexivity.
    + discriminate.
  - rewrite (toggleChip_page _ _ _ He).
    assert (Hlt : (first < length (elements p))%nat) by (eapply lookup_lt_Some; eauto).
    set (p' := setElements (<[first := toggledCard e]> (elements p)) p).
    assert (Hhead' : head (chipCardsOf p' (layerName ++ js "Chips")) = Some first).
    { rewrite <- Hhead. f_equal. unfold chipCardsOf.
      rewrite (elementById_ext p p').
      2:{ unfold p'. cbn [elements setElements]. apply (map_insert_same elId _ _ e); auto.
          unfold toggledCard. destruct (hasClass revealed e); reflexivity. }
      2:{ unfold p'. cbn [elements setElements].
          apply (map_insert_same elConnected _ _ e); auto.
          unfold toggledCard. destruct (hasClass revealed e); reflexivity. }
      rewrite Hr. unfold p'. cbn [elements setElements]. apply selectAll_ext.
      - apply (map_insert_same elParent _ _ e); auto.
        unfold toggledCard. destruct (hasClass revealed e); reflexivity.
      - apply (map_insert_same (hasClass chipCardClass) _ _ e); auto.
        apply hasClass_other_toggled. discriminate. }
    exists p'. split; [reflexivity|]. split; [|split; [|split; [|split; [|split]]]].
    + intros f Hf. injection Hf as <-. unfold p'.
      rewrite (isRevealed_insert _ _ _ _ _ He). destruct (decide (first = first)); [|congruence].
      rewrite hasClass_toggledCard, Hrev. reflexivity.
    + intros c Hc. unfold p'. cbn [elements setElements].
      apply list_lookup_insert_ne. congruence.
    + discriminate.
    + reflexivity.
    + reflexivity.
    + rewrite Hshape, Hhead'. unfold p' at 1 2. cbn [elements setElements].
      rewrite list_lookup_insert_eq by exact Hlt.
      now rewrite hasClass_toggledCard, Hrev.
Qed.

(** ** The decoded text of a puzzle *)

Lemma decodedTextLoop_spec (cards : list nat) (acc : jsstring) (p : Page) :
  (forall c, In c cards -> is_Some (elements p !! c)) ->
  decodedTextLoop cards acc p
  = Normal (acc ++ decodeGroups (JSArray (map (groupSlot p) cards)), p).
Proof.
  revert acc. induction cards as [|card cards IH]; intros acc Hvalid.
  - cbn. unfold ret. now rewrite app_nil_r.
  - destruct (Hvalid card (or_introl eq_refl)) as [e He].
    cbn [decodedTextLoop map]. unfold bind, getAttribute.
    rewrite (readElement_Some _ _ _ _ He).
    assert (Hrest : forall c, In c cards -> is_Some (elements p !! c))
      by (intros c Hc; apply Hvalid; now right).
    unfold groupSlot at 1. rewrite He.
    destruct (attributeTruthy (elAttributes e !! "data-group")).
    + rewrite (IH _ Hrest). rewrite <- app_assoc. reflexivity.
    + rewrite (IH _ Hrest). reflexivity.
Qed.

Lemma presentSlots_length (l : list (option JSValue)) :
  (length (presentSlots l) <= length l)%nat.
Proof.
  unfold presentSlots. induction l as [|o l IH]; [reflexivity|].
  destruct o as [v|].
  - change (S (length (omap id l)) <= S (length l))%nat. lia.
  - change (length (omap id l) <= S (length l))%nat. lia.
Qed.

(** X16: [getDecodedText] never fails and leaves the page alone; its answer is
    [decodeGroups] of the array of the [data-group] attributes of the chips
    of the container, a chip without the attribute (or with an empty one)
    standing as a hole.  So it has at most one character for each chip. *)
Theorem getDecodedText_is_decodeGroups (containerId : jsstring) (p : Page) :
  getDecodedText containerId p
  = Normal (decodeGroups (JSArray (map (groupSlot p) (chipCardsOf p containerId))), p)
  /\ (length (decodeGroups (JSArray (map (groupSlot p) (chipCardsOf p containerId))))
      <= length (chipCardsOf p containerId))%nat.
Proof.
  split.
  - unfold getDecodedText, chipCardsOf. unfold bind at 1. unfold getElementById.
    destruct (elementById p containerId) as [r|]; cbn [truthy negb]; [|reflexivity].
    unfold bind, querySelectorAll. rewrite decodedTextLoop_spec; [reflexivity|].
    intros c Hc. apply selectAll_Some in Hc as (e & He & _). rewrite He. eauto.
  - rewrite decodeGroups_array.
    rewrite (proj1 (flat_map_single_length _)).
    rewrite <- (length_map (groupSlot p) (chipCardsOf p containerId)).
    apply presentSlots_length.
Qed.

(** ** checkGuess: what it writes and what it leaves *)

Lemma setElements_same (p : Page) : setElements (elements p) p = p.
Proof. destruct p; reflexivity. Qed.

Lemma hint_step (hint : Ref) (d : jsstring) (q : Page) :
  (forall h, hint = Some h -> is_Some (elements q !! h)) ->
  (if truthy hint then set_style_display hint d else ret tt) q
  = Normal (tt, hintPage hint d q).
Proof.
  intros Hh. unfold hintPage. destruct hint as [h|]; cbn [truthy]; [|reflexivity].
  destruct (Hh h eq_refl) as [he Hhe]. rewrite Hhe.
  unfold set_style_display. now rewrite (writeElement_Some _ _ _ _ Hhe).
Qed.

(** The page [checkGuess] returns. *)
Lemma checkGuess_page (p : Page) (layerName expectedPlaintext : jsstring)
    (gi fa : nat) (ge : Element) :
  elementById p (layerName ++ js "Guess") = Some gi ->
  elementById p (layerName ++ js "Feedback") = Some fa ->
  elements p !! gi = Some ge ->
  checkGuess layerName expectedPlaintext p
  = Normal (tt,
      if bool_decide (normalizePlaintext (valueOf ge)
                      = normalizePlaintext (JSString expectedPlaintext))
      then hintPage (elementById p (layerName ++ js "Hint")) (js "none")
             (feedbackPage p fa feedbackSuccess (correctMessage expectedPlaintext))
      else if bool_decide (normalizePlaintext (valueOf ge) = [])
           then feedbackPage p fa feedbackHidden []
           else hintPage (elementById p (layerName ++ js "Hint")) (js "inline-block")
                  (feedbackPage p fa feedbackError incorrectMessage)).
Proof.
  intros Hgi Hfa Hge.
  destruct (elementById_Some _ _ _ Hfa) as (fe & Hfe & _).
  assert (Hhint : forall cls txt h,
             elementById p (layerName ++ js "Hint") = Some h ->
             is_Some (elements (feedbackPage p fa cls txt) !! h)).
  { intros cls txt h Hh. destruct (elementById_Some _ _ _ Hh) as (he & Hhe & _).
    apply lookup_lt_is_Some. rewrite feedbackPage_length. eapply lookup_lt_Some; eauto. }
  unfold checkGuess. unfold bind at 1 2 3. unfold getElementById.
  rewrite Hgi, Hfa. cbn [truthy negb orb].
  unfold bind at 1. unfold get_value. rewrite (readElement_Some _ _ _ _ Hge).
  cbv zeta.
  destruct (bool_decide (normalizePlaintext (valueOf ge)
                         = normalizePlaintext (JSString expectedPlaintext))).
  - rewrite (feedback_assignments _ _ _ _ _ _ Hfe).
    apply hint_step. intros h Hh. now apply Hhint.
  - destruct (bool_decide (normalizePlaintext (valueOf ge) = [])).
    + apply feedback_pair. eauto.
    + rewrite (feedback_assignments _ _ _ _ _ _ Hfe).
      apply hint_step. intros h Hh. now apply Hhint.
Qed.

Lemma layer_ids_differ (layerName : jsstring) :
  layerName ++ js "Hint" <> layerName ++ js "Feedback"
  /\ layerName ++ js "Guess" <> layerName ++ js "Feedback"
  /\ layerName ++ js "Guess" <> layerName ++ js "Hint".
Proof.
  repeat split; intros E; apply app_inv_head in E; discriminate.
Qed.

Lemma elements_by_id_differ (p : Page) (id1 id2 : jsstring) (n1 n2 : nat) :
  id1 <> id2 -> elementById p id1 = Some n1 -> elementById p id2 = Some n2 -> n1 <> n2.
Proof.
  intros Hne H1 H2 ->. destruct (elementById_Some _ _ _ H1) as (e1 & He1 & Hi1).
  destruct (elementById_Some _ _ _ H2) as (e2 & He2 & Hi2). congruence.
Qed.

(** On a feedback area that holds text only the two assignments change
    its classes and its text and nothing else. *)
Lemma feedbackPage_leaf (p : Page) (fa : nat) (fe : Element)
    (cls : list jsstring) (txt : jsstring) :
  hasNoChild (elements p) fa = true ->
  elements p !! fa = Some fe ->
  feedbackPage p fa cls txt
  = setElements (<[fa := setText txt (setClassList cls fe)]> (elements p)) p.
Proof.
  intros Hleaf H. unfold feedbackPage. rewrite H. rewrite writeText_leaf.
  - cbn [elements setElements]. now rewrite list_insert_insert_eq.
  - cbn [elements setElements]. rewrite <- Hleaf. apply hasNoChild_parents.
    now apply (map_insert_same elParent _ _ fe).
Qed.

Lemma feedbackPage_lookup (p : Page) (fa n : nat) (fe : Element)
    (cls : list jsstring) (txt : jsstring) :
  hasNoChild (elements p) fa = true ->
  elements p !! fa = Some fe ->
  elements (feedbackPage p fa cls txt) !! n
  = if decide (n = fa) then Some (setText txt (setClassList cls fe)) else elements p !! n.
Proof.
  intros Hleaf H. rewrite (feedbackPage_leaf _ _ _ _ _ Hleaf H). cbn [elements setElements].
  assert (Hlt : (fa < length (elements p))%nat) by (eapply lookup_lt_Some; eauto).
  destruct (decide (n = fa)) as [->|Hne].
  - now apply list_lookup_insert_eq.
  - apply list_lookup_insert_ne. congruence.
Qed.

Lemma hintPage_lookup (q : Page) (h n : nat) (he : Element) (d : jsstring) :
  elements q !! h = Some he ->
  elements (hintPage (Some h) d q) !! n
  = if decide (n = h) then Some (setDisplay d he) else elements q !! n.
Proof.
  intros H. unfold hintPage. rewrite H. cbn [elements setElements].
  assert (Hlt : (h < length (elements q))%nat) by (eapply lookup_lt_Some; eauto).
  destruct (decide (n = h)) as [->|Hne].
  - now apply list_lookup_insert_eq.
  - apply list_lookup_insert_ne. congruence.
Qed.

Lemma feedbackPage_keeps {B : Type} (g : Element -> B) (p : Page) (fa : nat)
    (cls : list jsstring) (txt : jsstring) :
  hasNoChild (elements p) fa = true ->
  (forall e, g (setText txt (setClassList cls e)) = g e) ->
  map g (elements (feedbackPage p fa cls txt)) = map g (elements p).
Proof.
  intros Hleaf Hg. destruct (elements p !! fa) as [fe|] eqn:H.
  - rewrite (feedbackPage_leaf _ _ _ _ _ Hleaf H).
    cbn [elements setElements]. now apply (map_insert_same g _ _ fe).
  - unfold feedbackPage. now rewrite H.
Qed.

Lemma hintPage_keeps {B : Type} (g : Element -> B) (q : Page) (hint : Ref) (d : jsstring) :
  (forall e, g (setDisplay d e) = g e) ->
  map g (elements (hintPage hint d q)) = map g (elements q).
Proof.
  intros Hg. unfold hintPage. destruct hint as [h|]; [|reflexivity].
  destruct (elements q !! h) as [he|] eqn:H; [|reflexivity].
  cbn [elements setElements]. now apply (map_insert_same g _ _ he).
Qed.

Lemma feedbackPage_fixed (q : Page) (fa : nat) (fe : Element)
    (cls : list jsstring) (txt : jsstring) :
  hasNoChild (elements q) fa = true ->
  elements q !! fa = Some fe -> elClassList fe = cls -> elTextContent fe = txt ->
  feedbackPage q fa cls txt = q.
Proof.
  intros Hleaf H Hc Ht. rewrite (feedbackPage_leaf _ _ _ _ _ Hleaf H).
  assert (E : setText txt (setClassList cls fe) = fe) by (subst cls txt; now destruct fe).
  rewrite E, list_insert_id by exact H. apply setElements_same.
Qed.

Lemma hintPage_fixed (q : Page) (hint : Ref) (d : jsstring) :
  (forall h he, hint = Some h -> elements q !! h = Some he -> elDisplay he = d) ->
  hintPage hint d q = q.
Proof.
  intros H. unfold hintPage. destruct hint as [h|]; [|reflexivity].
  destruct (elements q !! h) as [he|] eqn:Hhe; [|reflexivity].
  assert (E : setDisplay d he = he).
  { specialize (H h he eq_refl Hhe). subst d. now destruct he. }
  rewrite E, list_insert_id by exact Hhe. apply setElements_same.
Qed.

(** X17: on a page whose feedback area holds text only (it has no child
    element), [checkGuess] writes the feedback area and, unless the guess
    is empty, the display of the hint button ("none" after a correct
    guess, "inline-block" after an incorrect one); every other element,
    the timers and the listeners stay as they were.  Checking the same
    guess again changes nothing. *)
Theorem checkGuess_frame (p : Page) (layerName expectedPlaintext : jsstring)
    (gi fa : nat) (ge : Element) :
  elementById p (layerName ++ js "Guess") = Some gi ->
  elementById p (layerName ++ js "Feedback") = Some fa ->
  hasNoChild (elements p) fa = true ->
  elements p !! gi = Some ge ->
  exists p',
    checkGuess layerName expectedPlaintext p = Normal (tt, p')
    /\ timers p' = timers p /\ listeners p' = listeners p
    /\ consoleWarnings p' = consoleWarnings p
    /\ (forall n, n <> fa -> elementById p (layerName ++ js "Hint") <> Some n ->
          elements p' !! n = elements p !! n)
    /\ (forall h he, elementById p (layerName ++ js "Hint") = Some h ->
          elements p !! h = Some he ->
          elements p' !! h
          = Some (if bool_decide (normalizePlaintext (valueOf ge)
                                  = normalizePlaintext (JSString expectedPlaintext))
                  then setDisplay (js "none") he
                  else if bool_decide (normalizePlaintext (valueOf ge) = [])
                       then he
                       else setDisplay (js "inline-block") he))
    /\ checkGuess layerName expectedPlaintext p' = Normal (tt, p').
Proof.
  intros Hgi Hfa Hleaf Hge.
  destruct (elementById_Some _ _ _ Hfa) as (fe & Hfe & _).
  destruct (layer_ids_differ layerName) as (Hhf & _ & _).
  pose proof (checkGuess_page p layerName expectedPlaintext gi fa ge Hgi Hfa Hge) as Hrun.
  set (hint := elementById p (layerName ++ js "Hint")) in Hrun |- *.
  assert (Hne : forall h, hint = Some h -> h <> fa).
  { intros h Hh. exact (elements_by_id_differ p _ _ h fa Hhf Hh Hfa). }
  (* the three shapes of the result share these facts *)
  assert (Hframe : forall cls txt d (withHint : bool),
    let q := feedbackPage p fa cls txt in
    let r := if withHint then hintPage hint d q else q in
    timers r = timers p /\ listeners r = listeners p
    /\ consoleWarnings r = consoleWarnings p
    /\ (forall n, n <> fa -> hint <> Some n -> elements r !! n = elements p !! n)
    /\ (forall h he, hint = Some h -> elements p !! h = Some he ->
          elements r !! h = Some (if withHint then setDisplay d he else he))
    /\ (map elId (elements r) = map elId (elements p)
        /\ map elConnected (elements r) = map elConnected (elements p))
    /\ map valueOf (elements r) = map valueOf (elements p)
    /\ (if withHint then hintPage hint d (feedbackPage r fa cls txt)
        else feedbackPage r fa cls txt) = r).
  { intros cls txt d withHint q r.
    assert (Hq : forall n, elements q !! n
                   = if decide (n = fa) then Some (setText txt (setClassList cls fe))
                     else elements p !! n)
      by (intros n; apply feedbackPage_lookup; [exact Hleaf | exact Hfe]).
    assert (Hqt : timers q = timers p /\ listeners q = listeners p
                  /\ consoleWarnings q = consoleWarnings p).
    { unfold q. rewrite (feedbackPage_leaf _ _ _ _ _ Hleaf Hfe). auto. }
    assert (Hqid : map elId (elements q) = map elId (elements p))
      by (apply feedbackPage_keeps; [exact Hleaf | intros e; reflexivity]).
    assert (Hqc : map elConnected (elements q) = map elConnected (elements p))
      by (apply feedbackPage_keeps; [exact Hleaf | intros e; reflexivity]).
    assert (Hqp : map elParent (elements q) = map elParent (elements p))
      by (apply feedbackPage_keeps; [exact Hleaf | intros e; reflexivity]).
    assert (Hqleaf : hasNoChild (elements q) fa = true)
      by (rewrite (hasNoChild_parents _ _ _ Hqp); exact Hleaf).
    assert (Hqv : map valueOf (elements q) = map valueOf (elements p))
      by (apply feedbackPage_keeps; [exact Hleaf | intros e; reflexivity]).
    assert (Hqfix : feedbackPage q fa cls txt = q).
    { apply (feedbackPage_fixed q fa (setText txt (setClassList cls fe)));
        [exact Hqleaf| |reflexivity|reflexivity].
      rewrite Hq. destruct (decide (fa = fa)); congruence. }
    destruct withHint; unfold r.
    2:{ destruct Hqt as (? & ? & ?). repeat split; auto.
        - intros n Hn _. rewrite Hq. destruct (decide (n = fa)); congruence.
        - intros h he Hh Hhe. rewrite Hq. destruct (decide (h = fa)) as [->|]; [|exact Hhe].
          now elim (Hne fa Hh). }
    destruct hint as [h|] eqn:Hhint.
    2:{ cbn [hintPage]. destruct Hqt as (? & ? & ?). repeat split; auto.
        - intros n Hn _. rewrite Hq. destruct (decide (n = fa)); congruence.
        - intros h he Hh. discriminate. }
    pose proof (Hne h eq_refl) as Hhfa.
    destruct (elementById_Some _ _ _ Hhint) as (he & Hhe & _).
    assert (Hqh : elements q !! h = Some he).
    { rewrite Hq. destruct (decide (h = fa)); congruence. }
    assert (Hr : forall n, elements (hintPage (Some h) d q) !! n
                   = if decide (n = h) then Some (setDisplay d he) else elements q !! n)
      by (intros n; apply hintPage_lookup; exact Hqh).
    assert (Hrt : timers (hintPage (Some h) d q) = timers q
                  /\ listeners (hintPage (Some h) d q) = listeners q
                  /\ consoleWarnings (hintPage (Some h) d q) = consoleWarnings q).
    { unfold hintPage. rewrite Hqh. auto. }
    destruct Hqt as (Hq1 & Hq2 & Hq3). destruct Hrt as (Hr1 & Hr2 & Hr3).
    split; [congruence|]. split; [congruence|]. split; [congruence|].
    split; [|split; [|split; [|split]]].
    - intros n Hn Hnh. rewrite Hr, Hq.
      destruct (decide (n = h)) as [->|]; [congruence|].
      destruct (decide (n = fa)); congruence.
    - intros h' he' Hh' Hhe'. injection Hh' as <-. rewrite Hr.
      destruct (decide (h = h)); congruence.
    - rewrite !hintPage_keeps by (intros e; reflexivity). auto.
    - rewrite hintPage_keeps by (intros e; reflexivity). exact Hqv.
    - rewrite (feedbackPage_fixed _ fa (setText txt (setClassList cls fe)));
        [| | |reflexivity|reflexivity].
      + apply hintPage_fixed. intros h' he' Hh' Hhe'. injection Hh' as <-.
        rewrite Hr in Hhe'. destruct (decide (h = h)); [|congruence].
        injection Hhe' as <-. reflexivity.
      + rewrite <- Hqleaf. apply hasNoChild_parents.
        apply hintPage_keeps. intros e; reflexivity.
      + rewrite Hr, Hq. destruct (decide (fa = h)); [congruence|].
        destruct (decide (fa = fa)); congruence. }
  (* running it again *)
  assert (Hagain : forall r,
            map elId (elements r) = map elId (elements p)
            /\ map elConnected (elements r) = map elConnected (elements p) ->
            map valueOf (elements r) = map valueOf (elements p) ->
            exists ge', elementById r (layerName ++ js "Guess") = Some gi
                        /\ elementById r (layerName ++ js "Feedback") = Some fa
                        /\ elementById r (layerName ++ js "Hint") = hint
                        /\ elements r !! gi = Some ge'
                        /\ valueOf ge' = valueOf ge).
  { intros r [Hid Hcon] Hv. rewrite !(elementById_ext p r) by assumption.
    assert (E : valueOf <$> elements r !! gi = valueOf <$> elements p !! gi).
    { rewrite <- !list_lookup_fmap.
      change (map valueOf (elements r) !! gi = map valueOf (elements p) !! gi).
      now rewrite Hv. }
    rewrite Hge in E. destruct (elements r !! gi) as [ge'|]; [|discriminate].
    exists ge'. cbn in E. injection E as E. auto. }
  destruct (bool_decide (normalizePlaintext (valueOf ge)
                         = normalizePlaintext (JSString expectedPlaintext))) eqn:Hmatch.
  - destruct (Hframe feedbackSuccess (correctMessage expectedPlaintext) (js "none") true)
      as (H1 & H2 & H3 & H4 & H5 & H6 & H7 & H8).
    eexists. split; [exact Hrun|]. repeat (split; [assumption|]).
    destruct (Hagain _ H6 H7) as (ge' & G1 & G2 & G3 & G4 & G5).
    rewrite (checkGuess_page _ _ _ gi fa ge' G1 G2 G4), G3, G5, Hmatch. now rewrite H8.
  - destruct (bool_decide (normalizePlaintext (valueOf ge) = [])) eqn:Hempty.
    + destruct (Hframe feedbackHidden [] [] false)
        as (H1 & H2 & H3 & H4 & H5 & H6 & H7 & H8).
      eexists. split; [exact Hrun|]. repeat (split; [assumption|]).
      destruct (Hagain _ H6 H7) as (ge' & G1 & G2 & G3 & G4 & G5).
      rewrite (checkGuess_page _ _ _ gi fa ge' G1 G2 G4), G5, Hmatch, Hempty.
      now rewrite H8.
    + destruct (Hframe feedbackError incorrectMessage (js "inline-block") true)
        as (H1 & H2 & H3 & H4 & H5 & H6 & H7 & H8).
      eexists. split; [exact Hrun|]. repeat (split; [assumption|]).
      destruct (Hagain _ H6 H7) as (ge' & G1 & G2 & G3 & G4 & G5).
      rewrite (checkGuess_page _ _ _ gi fa ge' G1 G2 G4), G3, G5, Hmatch, Hempty.
      now rewrite H8.
Qed.

(** ** Initialization *)

Lemma bind_Normal {A B : Type} (c : M A) (k : A -> M B) (p p' : Page) (a : A) :
  c p = Normal (a, p') -> bind c k p = k a p'.
Proof. intros H. unfold bind. now rewrite H. Qed.

Lemma bind_Throw {A C : Type} (c : M A) (k : A -> M C) (p : Page) :
  c p = Throw -> bind c k p = Throw.
Proof. intros H. unfold bind. now rewrite H. Qed.

Lemma applyWrite_keeps {B : Type} (g : Element -> B) (els : list Element) (w : nat * jsstring) :
  (forall t e, g (setText t e) = g e) -> map g (applyWrite els w) = map g els.
Proof.
  intros Hg. unfold applyWrite. destruct (els !! w.1) as [e|] eqn:H; [|reflexivity].
  now apply (map_insert_same g _ _ e).
Qed.

Lemma applyWrite_length (els : list Element) (w : nat * jsstring) :
  length (applyWrite els w) = length els.
Proof.
  unfold applyWrite. destruct (els !! w.1); [apply length_insert | reflexivity].
Qed.

Lemma lookup_of_map {B : Type} (g : Element -> B) (els els' : list Element) (n : nat) :
  map g els' = map g els -> g <$> els' !! n = g <$> els !! n.
Proof.
  intros H. rewrite <- !list_lookup_fmap. change (map g els' !! n = map g els !! n).
  now rewrite H.
Qed.

(** The writes depend on the tree, the classes and the attributes, which
    no text write changes. *)
Lemma letterWrite_ext (els els' : list Element) (card : nat) :
  map elParent els' = map elParent els ->
  map (hasClass (js "chip-back")) els' = map (hasClass (js "chip-back")) els ->
  map elAttributes els' = map elAttributes els ->
  letterWrite els' card = letterWrite els card.
Proof.
  intros Hp Hc Ha. unfold letterWrite, backFaceOf.
  rewrite (selectAll_ext _ _ _ _ Hp Hc).
  pose proof (lookup_of_map elAttributes els els' card Ha) as E.
  destruct (els' !! card) as [e'|], (els !! card) as [e|]; cbn in E; try discriminate;
    [|reflexivity].
  injection E as ->. reflexivity.
Qed.

Lemma letterWrites_ext (els els' : list Element) (cards : list nat) :
  map elParent els' = map elParent els ->
  map (hasClass (js "chip-back")) els' = map (hasClass (js "chip-back")) els ->
  map elAttributes els' = map elAttributes els ->
  omap (letterWrite els') cards = omap (letterWrite els) cards.
Proof.
  intros Hp Hc Ha. induction cards as [|c cards IH]; [reflexivity|].
  change (match letterWrite els' c with
          | Some w => w :: omap (letterWrite els') cards
          | None => omap (letterWrite els') cards
          end
          = match letterWrite els c with
            | Some w => w :: omap (letterWrite els) cards
            | None => omap (letterWrite els) cards
            end).
  now rewrite (letterWrite_ext _ _ _ Hp Hc Ha), IH.
Qed.

Lemma backFacesHoldText_spec (p : Page) (containerId : jsstring) :
  backFacesHoldText p containerId = true ->
  forall c b, In c (chipCardsOf p containerId) -> backFaceOf (elements p) c = Some b ->
              hasNoChild (elements p) b = true.
Proof.
  unfold backFacesHoldText. rewrite forallb_forall. intros H c b Hc Hb.
  specialize (H c Hc). now rewrite Hb in H.
Qed.

Lemma backFaceOf_ext (els els' : list Element) (card : nat) :
  map elParent els' = map elParent els ->
  map (hasClass (js "chip-back")) els' = map (hasClass (js "chip-back")) els ->
  backFaceOf els' card = backFaceOf els card.
Proof. intros Hp Hc. unfold backFaceOf. now rewrite (selectAll_ext _ _ _ _ Hp Hc). Qed.

Lemma first_loop_step (card i : nat) (q : Page) :
  is_Some (elements q !! card) ->
  (forall b, backFaceOf (elements q) card = Some b -> hasNoChild (elements q) b = true) ->
  (let* encoded := getAttribute (Some card) "data-group" in
   if attributeTruthy encoded then
     let decoded := decodeGroup (attributeValue encoded) in
     let* backFace := querySelector (Some card) (js "chip-back") in
     if truthy backFace then set_textContent backFace decoded else ret tt
   else ret tt) q
  = Normal (tt, match letterWrite (elements q) card with
                | Some w => setElements (applyWrite (elements q) w) q
                | None => q
                end).
Proof.
  intros [e He] Hleaf. unfold bind at 1. unfold getAttribute.
  rewrite (readElement_Some _ _ _ _ He). unfold letterWrite, backFaceOf. rewrite He.
  destruct (attributeTruthy (elAttributes e !! "data-group")); [|reflexivity].
  cbv zeta. unfold bind at 1. unfold querySelector, querySelectorAll.
  unfold bind at 1. unfold ret at 1.
  destruct (selectAll (elements q) card (js "chip-back")) as [|b rest] eqn:Hsel;
    cbn [head truthy]; [reflexivity|].
  assert (Hin : In b (selectAll (elements q) card (js "chip-back")))
    by (rewrite Hsel; now left).
  apply selectAll_Some in Hin as (eb & Heb & _).
  rewrite (set_textContent_leaf _ _ _ _ Heb)
    by (apply Hleaf; unfold backFaceOf; now rewrite Hsel).
  unfold applyWrite. cbn [fst snd]. now rewrite Heb.
Qed.

(** The first loop of [initializePuzzle], on back faces that hold text
    only, never fails; it makes the letter writes of the cards, in
    order. *)
Lemma first_loop (cards : list nat) (i : nat) (q : Page) :
  (forall c, In c cards -> is_Some (elements q !! c)) ->
  (forall c b, In c cards -> backFaceOf (elements q) c = Some b ->
               hasNoChild (elements q) b = true) ->
  forEachFrom (fun card (_ : nat) =>
    let* encoded := getAttribute (Some card) "data-group" in
    if attributeTruthy encoded then
      let decoded := decodeGroup (attributeValue encoded) in
      let* backFace := querySelector (Some card) (js "chip-back") in
      if truthy backFace then set_textContent backFace decoded else ret tt
    else ret tt) cards i q
  = Normal (tt, setElements
                  (fold_left applyWrite (omap (letterWrite (elements q)) cards) (elements q))
                  q).
Proof.
  revert i q. induction cards as [|card cards IH]; intros i q Hvalid Hleaf.
  - cbn. unfold ret. now rewrite setElements_same.
  - assert (Hcard : is_Some (elements q !! card)) by (apply Hvalid; now left).
    assert (Hrest : forall c, In c cards -> is_Some (elements q !! c))
      by (intros c Hc; apply Hvalid; now right).
    assert (Hleafcard : forall b, backFaceOf (elements q) card = Some b ->
                                  hasNoChild (elements q) b = true)
      by (intros b; apply Hleaf; now left).
    assert (Hleafrest : forall c b, In c cards -> backFaceOf (elements q) c = Some b ->
                                    hasNoChild (elements q) b = true)
      by (intros c b Hc; apply Hleaf; now right).
    cbn [forEachFrom].
    rewrite (bind_Normal _ _ _ _ _ (first_loop_step card i q Hcard Hleafcard)).
    change (omap (letterWrite (elements q)) (card :: cards))
      with (match letterWrite (elements q) card with
            | Some w => w :: omap (letterWrite (elements q)) cards
            | None => omap (letterWrite (elements q)) cards
            end).
    destruct (letterWrite (elements q) card) as [w|]; [|now apply IH].
    rewrite IH.
    + cbn [elements setElements fold_left]. rewrite setElements_twice.
      rewrite (letterWrites_ext (elements q) (applyWrite (elements q) w));
        [reflexivity| | |]; apply applyWrite_keeps; intros t e; reflexivity.
    + intros c Hc. cbn [elements setElements]. apply lookup_lt_is_Some.
      rewrite applyWrite_length. apply lookup_lt_is_Some. now apply Hrest.
    + intros c b Hc. cbn [elements setElements].
      rewrite (backFaceOf_ext (elements q) (applyWrite (elements q) w))
        by (apply applyWrite_keeps; intros t e; reflexivity).
      rewrite (hasNoChild_parents (elements q) (applyWrite (elements q) w))
        by (apply applyWrite_keeps; intros t e; reflexivity).
      now apply Hleafrest.
Qed.

Lemma second_loop (cards : list nat) (i : nat) (q : Page) :
  forEachFrom (fun card (_ : nat) =>
    addEventListener (OnElement card) "click" (ChipClick card);;;
    addEventListener (OnElement card) "keydown" (ChipKeydown card)) cards i q
  = Normal (tt, setListeners (listeners q ++ chipListeners cards) q).
Proof.
  revert i q. induction cards as [|card cards IH]; intros i q.
  - cbn. unfold ret. rewrite app_nil_r. now destruct q.
  - cbn [forEachFrom chipListeners flat_map]. unfold bind, addEventListener.
    cbn [listeners setListeners]. etransitivity; [apply IH|].
    cbn [listeners setListeners]. f_equal. f_equal.
    rewrite <- !app_assoc. reflexivity.
Qed.

Lemma controls_registered (p q : Page) (layerName expectedPlaintext : jsstring) :
  (match elementById p (layerName ++ js "RevealAll") with
   | Some btn =>
       addEventListener (OnElement btn) "click" (RevealAllClick (layerName ++ js "Chips"));;;
       addEventListener OnDocument "keydown" (RevealAllKeydown (layerName ++ js "Chips"))
   | None => ret tt
   end;;;
   match elementById p (layerName ++ js "CheckGuess") with
   | Some btn =>
       addEventListener (OnElement btn) "click" (CheckGuessClick layerName expectedPlaintext);;;
       match elementById p (layerName ++ js "Guess") with
       | Some input =>
           addEventListener (OnElement input) "keypress"
             (GuessKeypress layerName expectedPlaintext)
       | None => ret tt
       end
   | None => ret tt
   end;;;
   match elementById p (layerName ++ js "Hint") with
   | Some btn => addEventListener (OnElement btn) "click" (HintClick layerName)
   | None => ret tt
   end;;;
   match elementById p (layerName ++ js "Guess") with
   | Some input => addEventListener (OnElement input) "input" (GuessInput layerName)
   | None => ret tt
   end) q
  = Normal (tt, setListeners
                  (listeners q ++ controlListeners p layerName expectedPlaintext) q).
Proof.
  unfold controlListeners.
  destruct (elementById p (layerName ++ js "RevealAll")),
    (elementById p (layerName ++ js "CheckGuess")),
    (elementById p (layerName ++ js "Guess")),
    (elementById p (layerName ++ js "Hint"));
    unfold bind, addEventListener, ret; cbn [listeners setListeners app];
    rewrite <- ?app_assoc; cbn [app]; rewrite ?app_nil_r; try reflexivity;
    now destruct q.
Qed.

(** The page [initializePuzzle] returns when the chip container is there
    and the back faces hold text only. *)
Lemma initializePuzzle_page (p : Page) (layerName expectedPlaintext : jsstring) (r : nat) :
  elementById p (layerName ++ js "Chips") = Some r ->
  backFacesHoldText p (layerName ++ js "Chips") = true ->
  initializePuzzle layerName expectedPlaintext p
  = Normal (tt,
      setListeners
        (listeners p ++ chipListeners (chipCardsOf p (layerName ++ js "Chips"))
           ++ controlListeners p layerName expectedPlaintext)
        (setElements
           (fold_left applyWrite
              (omap (letterWrite (elements p)) (chipCardsOf p (layerName ++ js "Chips")))
              (elements p)) p)).
Proof.
  intros Hr Hleaf. pose proof (backFacesHoldText_spec _ _ Hleaf) as Hleaf'.
  unfold initializePuzzle, chipCardsOf in *.
  unfold bind at 1 2 3 4 5. unfold getElementById. rewrite Hr in *. cbn [truthy negb].
  unfold bind at 1. unfold querySelectorAll. unfold forEach.
  assert (Hvalid : forall c, In c (selectAll (elements p) r chipCardClass) ->
                             is_Some (elements p !! c)).
  { intros c Hc. apply selectAll_Some in Hc as (e & He & _). rewrite He. eauto. }
  rewrite (bind_Normal _ _ _ _ _
             (first_loop (selectAll (elements p) r chipCardClass) 0 p Hvalid Hleaf')).
  rewrite (bind_Normal _ _ _ _ _ (second_loop _ 0 _)).
  rewrite controls_registered. cbn [listeners setListeners setElements].
  now rewrite <- app_assoc.
Qed.

Lemma applyWrite_lookup (els : list Element) (w : nat * jsstring) (n : nat) :
  applyWrite els w !! n
  = (fun e => setText (if decide (w.1 = n) then w.2 else elTextContent e) e) <$> els !! n.
Proof.
  assert (Hid : forall e, setText (elTextContent e) e = e) by (intros e; now destruct e).
  unfold applyWrite. destruct (els !! w.1) as [e|] eqn:H.
  - destruct (decide (w.1 = n)) as [<-|Hne].
    + rewrite list_lookup_insert_eq by (eapply lookup_lt_Some; eauto). now rewrite H.
    + rewrite list_lookup_insert_ne by exact Hne.
      destruct (els !! n) as [e'|]; cbn; [now rewrite Hid | reflexivity].
  - destruct (decide (w.1 = n)) as [<-|Hne].
    + now rewrite H.
    + destruct (els !! n) as [e'|]; cbn; [now rewrite Hid | reflexivity].
Qed.

Lemma writes_lookup (ws : list (nat * jsstring)) (els : list Element) (n : nat) :
  fold_left applyWrite ws els !! n
  = (fun e => setText (textAfter ws n (elTextContent e)) e) <$> els !! n.
Proof.
  assert (Hid : forall e, setText (elTextContent e) e = e) by (intros e; now destruct e).
  revert els. induction ws as [|w ws IH]; intros els.
  - cbn. destruct (els !! n) as [e|]; cbn; [now rewrite Hid | reflexivity].
  - cbn [fold_left]. rewrite IH, applyWrite_lookup.
    destruct (els !! n) as [e|]; [|reflexivity].
    unfold textAfter. cbn [fold_left]. now destruct e.
Qed.

Lemma textAfter_snoc (ws : list (nat * jsstring)) (w : nat * jsstring) (n : nat) (t : jsstring) :
  textAfter (ws ++ [w]) n t = if decide (w.1 = n) then w.2 else textAfter ws n t.
Proof. unfold textAfter. now rewrite fold_left_app. Qed.

Lemma textAfter_idempotent (ws : list (nat * jsstring)) (n : nat) (t : jsstring) :
  textAfter ws n (textAfter ws n t) = textAfter ws n t.
Proof.
  revert t. induction ws as [|w ws IH] using rev_ind; intros t; [reflexivity|].
  rewrite !textAfter_snoc. destruct (decide (w.1 = n)); [reflexivity|]. apply IH.
Qed.

Lemma textAfter_untouched (ws : list (nat * jsstring)) (n : nat) (t : jsstring) :
  (forall w, In w ws -> w.1 <> n) -> textAfter ws n t = t.
Proof.
  revert t. induction ws as [|w ws IH]; intros t H; [reflexivity|].
  unfold textAfter. cbn [fold_left].
  destruct (decide (w.1 = n)) as [E|_]; [now elim (H w (or_introl eq_refl))|].
  apply IH. intros w' Hw'. apply H. now right.
Qed.

Lemma textAfter_last (ws1 ws2 : list (nat * jsstring)) (n : nat) (t u : jsstring) :
  (forall w, In w ws2 -> w.1 <> n) -> textAfter (ws1 ++ (n, t) :: ws2) n u = t.
Proof.
  intros H. unfold textAfter. rewrite fold_left_app. cbn [fold_left fst snd].
  destruct (decide (n = n)); [|congruence]. now apply textAfter_untouched.
Qed.

Lemma writes_keep {B : Type} (g : Element -> B) (ws : list (nat * jsstring))
    (els : list Element) :
  (forall t e, g (setText t e) = g e) -> map g (fold_left applyWrite ws els) = map g els.
Proof.
  intros Hg. revert els. induction ws as [|w ws IH]; intros els; [reflexivity|].
  cbn [fold_left]. rewrite IH. now apply applyWrite_keeps.
Qed.

Lemma writes_idempotent (ws : list (nat * jsstring)) (els : list Element) :
  fold_left applyWrite ws (fold_left applyWrite ws els) = fold_left applyWrite ws els.
Proof.
  apply list_eq. intros n. rewrite writes_lookup. rewrite writes_lookup.
  destruct (els !! n) as [e|]; [|reflexivity]. cbn. f_equal.
  destruct e; cbn. now rewrite textAfter_idempotent.
Qed.

Lemma letterWrite_target (els : list Element) (card : nat) (w : nat * jsstring) :
  letterWrite els card = Some w -> backFaceOf els card = Some w.1.
Proof.
  unfold letterWrite. destruct (els !! card) as [e|]; [|discriminate].
  destruct (attributeTruthy (elAttributes e !! "data-group")); [|discriminate].
  destruct (backFaceOf els card); [|discriminate]. now intros [= <-].
Qed.

Lemma in_omap {A B : Type} (f : A -> option B) (l : list A) (b : B) :
  In b (omap f l) -> exists a, In a l /\ f a = Some b.
Proof.
  intros H. apply list_elem_of_In, list_elem_of_omap in H as (a & Ha & Hf).
  exists a. split; [now apply list_elem_of_In | exact Hf].
Qed.

Lemma selectAll_NoDup (els : list Element) (root : nat) (cls : jsstring) :
  List.NoDup (selectAll els root cls).
Proof. unfold selectAll. apply List.NoDup_filter, List.seq_NoDup. Qed.

(** X20: [initializePuzzle], with the chip container there and on back
    faces that hold text only (a back face has no child element), never
    fails.  It changes the text of back faces and nothing else of any
    element, so no chip changes its reveal state; it sets no timer; and it
    adds, after the listeners already registered, two listeners for each
    chip and those of the controls that are present. *)
Theorem initializePuzzle_effect (p : Page) (layerName expectedPlaintext : jsstring) (r : nat) :
  elementById p (layerName ++ js "Chips") = Some r ->
  backFacesHoldText p (layerName ++ js "Chips") = true ->
  exists p',
    initializePuzzle layerName expectedPlaintext p = Normal (tt, p')
    /\ timers p' = timers p
    /\ consoleWarnings p' = consoleWarnings p
    /\ listeners p'
       = listeners p ++ chipListeners (chipCardsOf p (layerName ++ js "Chips"))
           ++ controlListeners p layerName expectedPlaintext
    /\ length (chipListeners (chipCardsOf p (layerName ++ js "Chips")))
       = (2 * length (chipCardsOf p (layerName ++ js "Chips")))%nat
    /\ map (setText []) (elements p') = map (setText []) (elements p)
    /\ (forall c, isRevealed p' c = isRevealed p c)
    /\ (forall n, (forall c, In c (chipCardsOf p (layerName ++ js "Chips")) ->
                             backFaceOf (elements p) c <> Some n) ->
                  elements p' !! n = elements p !! n).
Proof.
  intros Hr Hleaf. eexists. split; [exact (initializePuzzle_page _ _ _ _ Hr Hleaf)|].
  cbn [timers consoleWarnings listeners elements setListeners setElements].
  split; [reflexivity|]. split; [reflexivity|]. split; [reflexivity|]. split.
  { unfold chipListeners.
    induction (chipCardsOf p (layerName ++ js "Chips")) as [|c l IH]; [reflexivity|].
    cbn [flat_map app length]. lia. }
  split; [apply writes_keep; intros t e; reflexivity|]. split.
  - intros c. unfold isRevealed. cbn [elements setListeners setElements].
    pose proof (lookup_of_map (hasClass revealed) (elements p)
                  (fold_left applyWrite
                     (omap (letterWrite (elements p)) (chipCardsOf p (layerName ++ js "Chips")))
                     (elements p)) c
                  (writes_keep (hasClass revealed) _ _ (fun t e => eq_refl))) as E.
    destruct (fold_left applyWrite _ _ !! c), (elements p !! c);
      first [ discriminate E | injection E as E; exact E | reflexivity ].
  - intros n Hn. rewrite writes_lookup.
    destruct (elements p !! n) as [e|]; [|reflexivity]. cbn.
    rewrite textAfter_untouched; [now destruct e|].
    intros w Hw Hwn. apply in_omap in Hw as (c & Hc & Hlw).
      apply letterWrite_target in Hlw. rewrite Hwn in Hlw. exact (Hn c Hc Hlw).
Qed.

(** X21: [initializePuzzle] decodes eagerly: on back faces that hold text
    only, a chip that has a group and a back face has the decoded letter
    of its group as the text of the back face afterwards, provided no
    other chip of the container has the same back face.  (Where a chip is
    itself the back face of the chip around it, the write to it takes its
    own back face away before its turn comes, and that back face keeps
    its text: [initializePuzzle_nested_chip].) *)
Theorem initializePuzzle_writes_letter (p : Page) (layerName expectedPlaintext : jsstring)
    (r card b : nat) (e : Element) (g : jsstring) :
  elementById p (layerName ++ js "Chips") = Some r ->
  backFacesHoldText p (layerName ++ js "Chips") = true ->
  In card (chipCardsOf p (layerName ++ js "Chips")) ->
  elements p !! card = Some e ->
  elAttributes e !! "data-group" = Some g -> g <> [] ->
  backFaceOf (elements p) card = Some b ->
  (forall c, In c (chipCardsOf p (layerName ++ js "Chips")) ->
             backFaceOf (elements p) c = Some b -> c = card) ->
  exists p' eb,
    initializePuzzle layerName expectedPlaintext p = Normal (tt, p')
    /\ elements p' !! b = Some eb
    /\ elTextContent eb = decodeGroup (JSString g).
Proof.
  intros Hr Hleaf Hcard He Hg Hne Hb Huniq.
  assert (Hw : letterWrite (elements p) card = Some (b, decodeGroup (JSString g))).
  { unfold letterWrite. rewrite He, Hg, Hb. destruct g; [congruence | reflexivity]. }
  assert (Hbv : is_Some (elements p !! b)).
  { unfold backFaceOf in Hb.
    destruct (selectAll (elements p) card (js "chip-back")) as [|b' rest] eqn:Hsel;
      [discriminate|]. injection Hb as ->.
    assert (Hin : In b (selectAll (elements p) card (js "chip-back")))
      by (rewrite Hsel; now left).
    apply selectAll_Some in Hin as (eb & Heb & _). rewrite Heb. eauto. }
  destruct Hbv as [eb Heb].
  eexists _, (setText (textAfter (omap (letterWrite (elements p))
                                    (chipCardsOf p (layerName ++ js "Chips")))
                         b (elTextContent eb)) eb).
  split; [exact (initializePuzzle_page _ _ _ _ Hr Hleaf)|].
  cbn [elements setListeners setElements]. split.
  { rewrite writes_lookup, Heb. reflexivity. }
  cbn [elTextContent setText].
  assert (Hnd : List.NoDup (chipCardsOf p (layerName ++ js "Chips"))).
  { unfold chipCardsOf. rewrite Hr. apply selectAll_NoDup. }
  destruct (in_split _ _ Hcard) as (cs1 & cs2 & Hsplit).
  rewrite Hsplit in Hnd |- *. rewrite omap_app.
  change (omap (letterWrite (elements p)) (card :: cs2))
    with (match letterWrite (elements p) card with
          | Some w => w :: omap (letterWrite (elements p)) cs2
          | None => omap (letterWrite (elements p)) cs2
          end).
  rewrite Hw. apply textAfter_last.
  intros w Hin Hwb. apply in_omap in Hin as (c & Hc & Hlw).
  apply letterWrite_target in Hlw. rewrite Hwb in Hlw.
  assert (c = card).
  { apply Huniq; [|exact Hlw]. rewrite Hsplit. apply in_or_app. right. now right. }
  subst c. apply List.NoDup_remove_2 in Hnd. apply Hnd. apply in_or_app. now right.
Qed.

(** X22: on back faces that hold text only, calling [initializePuzzle] a
    second time registers every listener a second time; the elements stay
    as the first call left them. *)
Theorem initializePuzzle_twice (p : Page) (layerName expectedPlaintext : jsstring) (r : nat) :
  elementById p (layerName ++ js "Chips") = Some r ->
  backFacesHoldText p (layerName ++ js "Chips") = true ->
  exists p' p'' added,
    initializePuzzle layerName expectedPlaintext p = Normal (tt, p')
    /\ initializePuzzle layerName expectedPlaintext p' = Normal (tt, p'')
    /\ listeners p' = listeners p ++ added
    /\ listeners p'' = listeners p ++ added ++ added
    /\ elements p'' = elements p'
    /\ timers p'' = timers p.
Proof.
  intros Hr Hleaf.
  set (cards := chipCardsOf p (layerName ++ js "Chips")).
  set (ws := omap (letterWrite (elements p)) cards).
  set (p' := setListeners
               (listeners p ++ chipListeners cards
                  ++ controlListeners p layerName expectedPlaintext)
               (setElements (fold_left applyWrite ws (elements p)) p)).
  assert (Hids : map elId (elements p') = map elId (elements p))
    by (apply writes_keep; intros t e; reflexivity).
  assert (Hpar : map elParent (elements p') = map elParent (elements p))
    by (apply writes_keep; intros t e; reflexivity).
  assert (Hcls : forall cls, map (hasClass cls) (elements p')
                             = map (hasClass cls) (elements p))
    by (intros cls; apply writes_keep; intros t e; reflexivity).
  assert (Hatt : map elAttributes (elements p') = map elAttributes (elements p))
    by (apply writes_keep; intros t e; reflexivity).
  assert (Hcon : map elConnected (elements p') = map elConnected (elements p))
    by (apply writes_keep; intros t e; reflexivity).
  assert (Hr' : elementById p' (layerName ++ js "Chips") = Some r)
    by (rewrite (elementById_ext p p' _ Hids Hcon); exact Hr).
  assert (Hcards : chipCardsOf p' (layerName ++ js "Chips") = cards).
  { unfold cards, chipCardsOf. rewrite Hr', Hr. now apply selectAll_ext. }
  assert (Hctl : controlListeners p' layerName expectedPlaintext
                 = controlListeners p layerName expectedPlaintext).
  { unfold controlListeners. now rewrite !(elementById_ext p p' _ Hids Hcon). }
  assert (Hleaf' : backFacesHoldText p' (layerName ++ js "Chips") = true).
  { unfold backFacesHoldText. rewrite Hcards. apply forallb_forall. intros c Hc.
    rewrite (backFaceOf_ext (elements p) (elements p') c Hpar (Hcls _)).
    destruct (backFaceOf (elements p) c) as [b|] eqn:Hb; [|reflexivity].
    rewrite (hasNoChild_parents _ _ _ Hpar).
    exact (backFacesHoldText_spec _ _ Hleaf c b Hc Hb). }
  exists p'. eexists.
  exists (chipListeners cards ++ controlListeners p layerName expectedPlaintext).
  split; [exact (initializePuzzle_page _ _ _ _ Hr Hleaf)|].
  split; [exact (initializePuzzle_page _ _ _ _ Hr' Hleaf')|].
  rewrite Hcards, Hctl. cbn [listeners elements timers setListeners setElements].
  split; [reflexivity|]. split.
  { unfold p'. cbn [listeners setListeners]. now rewrite <- !app_assoc. }
  split; [|reflexivity].
  unfold p'. cbn [elements setListeners setElements].
  rewrite (letterWrites_ext (elements p) (fold_left applyWrite ws (elements p)) cards
             Hpar (Hcls _) Hatt).
  apply writes_idempotent.
Qed.

(** ** Listeners *)

(** An element that [getElementById] finds is found again after a change
    that keeps it as it is for the search and brings no element into the
    document. *)
Lemma findFrom_stays (f g : Element -> bool) (els els' : list Element) (i n : nat) :
  findFrom f els i = Some n ->
  length els' = length els ->
  (forall m e e', els !! m = Some e -> els' !! m = Some e' -> g e' = true -> f e = true) ->
  (forall e', els' !! (n - i)%nat = Some e' -> g e' = true) ->
  findFrom g els' i = Some n.
Proof.
  revert els' i. induction els as [|e els IH]; intros [|e' els'] i H Hlen Hback Hn;
    try discriminate.
  cbn [findFrom] in H |- *. destruct (f e) eqn:Hf.
  - injection H as <-. rewrite Nat.sub_diag in Hn. now rewrite (Hn e' eq_refl).
  - assert (Hg : g e' = false).
    { destruct (g e') eqn:Hg; [|reflexivity].
      rewrite (Hback 0%nat e e' eq_refl eq_refl Hg) in Hf. discriminate. }
    rewrite Hg. pose proof (findFrom_Some _ _ _ _ H) as [Hle _].
    apply IH; [exact H | now injection Hlen | |].
    + intros m x x' Hx Hx'. exact (Hback (S m) x x' Hx Hx').
    + intros x' Hx'. apply Hn. now replace (n - i)%nat with (S (n - S i)) by lia.
Qed.

Lemma elementById_writeText (p : Page) (id : jsstring) (r : nat) (e0 e : Element)
    (t : jsstring) :
  elementById p id = Some r ->
  elements p !! r = Some e0 -> elId e = elId e0 -> elConnected e = elConnected e0 ->
  elementById (writeText p r e t) id = Some r.
Proof.
  intros H Hr Hid Hcon. unfold elementById.
  pose proof (findFrom_Some _ _ _ _ H) as (_ & x & Hx & Hfx).
  rewrite Nat.sub_0_r in Hx. assert (x = e0) by congruence. subst x.
  apply (findFrom_stays _ _ _ _ _ _ H); [apply length_writeText| |].
  - intros m x x' Hm Hm'. destruct (decide (m = r)) as [->|Hne].
    + rewrite (writeText_self _ _ _ _ _ Hr) in Hm'. injection Hm' as <-.
      assert (x = e0) by congruence. subst x.
      cbn [elConnected setText]. unfold hasId. cbn [elId setText].
      rewrite Hid, Hcon. intros _. exact Hfx.
    + rewrite writeText_other, Hm in Hm' by exact Hne. injection Hm' as <-.
      destruct (detachBelow_fields (elements p) r m x) as [E Hc].
      intros Hg. apply andb_true_iff in Hg as [Hg1 Hg2].
      rewrite (Hc Hg1). cbn [andb]. unfold hasId in *.
      rewrite <- E. exact Hg2.
  - intros x'. rewrite Nat.sub_0_r, (writeText_self _ _ _ _ _ Hr). intros [= <-].
    cbn [elConnected setText]. unfold hasId. cbn [elId setText]. now rewrite Hid, Hcon.
Qed.

(** After [checkGuess] the feedback area is where it was, and it has no
    child element. *)
Lemma checkGuess_leaves_feedback (p : Page) (layerName expectedPlaintext : jsstring)
    (gi fa : nat) (ge : Element) :
  elementById p (layerName ++ js "Guess") = Some gi ->
  elementById p (layerName ++ js "Feedback") = Some fa ->
  elements p !! gi = Some ge ->
  exists p',
    checkGuess layerName expectedPlaintext p = Normal (tt, p')
    /\ elementById p' (layerName ++ js "Feedback") = Some fa
    /\ hasNoChild (elements p') fa = true.
Proof.
  intros Hgi Hfa Hge. eexists. split; [exact (checkGuess_page _ _ _ _ _ _ Hgi Hfa Hge)|].
  destruct (elementById_Some _ _ _ Hfa) as (fe & Hfe & _).
  assert (Hlt : (fa < length (elements p))%nat) by (eapply lookup_lt_Some; eauto).
  assert (Hq : forall cls txt,
             elementById (feedbackPage p fa cls txt) (layerName ++ js "Feedback") = Some fa
             /\ hasNoChild (elements (feedbackPage p fa cls txt)) fa = true).
  { intros cls txt. unfold feedbackPage. rewrite Hfe.
    set (p1 := setElements (<[fa := setClassList cls fe]> (elements p)) p).
    assert (H1 : elements p1 !! fa = Some (setClassList cls fe))
      by (unfold p1; cbn [elements setElements]; now apply list_lookup_insert_eq).
    split; [|exact (writeText_hasNoChild _ _ _ _ _ H1)].
    apply (elementById_writeText p1 _ fa (setClassList cls fe));
      [|exact H1|reflexivity|reflexivity].
    rewrite <- Hfa. unfold p1. apply elementById_ext; cbn [elements setElements].
    - now apply (map_insert_same elId _ _ fe).
    - now apply (map_insert_same elConnected _ _ fe). }
  assert (Hh : forall hint d q,
             elementById q (layerName ++ js "Feedback") = Some fa
             /\ hasNoChild (elements q) fa = true ->
             elementById (hintPage hint d q) (layerName ++ js "Feedback") = Some fa
             /\ hasNoChild (elements (hintPage hint d q)) fa = true).
  { intros hint d q [H1 H2]. split.
    - rewrite <- H1. apply elementById_ext; apply hintPage_keeps; intros e; reflexivity.
    - rewrite <- H2. apply hasNoChild_parents. apply hintPage_keeps. intros e; reflexivity. }
  destruct (bool_decide _); [|destruct (bool_decide _)]; auto.
Qed.

(** X18: Whatever [checkGuess] reported, the next edit of the guess clears the
    feedback area (class hidden, no text) and touches nothing else: the
    hint button stays as [checkGuess] left it. *)
Theorem input_clears_feedback (p : Page) (layerName expectedPlaintext key : jsstring)
    (gi fa : nat) (ge : Element) :
  elementById p (layerName ++ js "Guess") = Some gi ->
  elementById p (layerName ++ js "Feedback") = Some fa ->
  elements p !! gi = Some ge ->
  exists p' p'' fe,
    checkGuess layerName expectedPlaintext p = Normal (tt, p')
    /\ runListener (GuessInput layerName) key p' = Normal (tt, p'')
    /\ elements p'' !! fa = Some fe
    /\ feedbackOf fe = FeedbackNone
    /\ (forall n, n <> fa -> elements p'' !! n = elements p' !! n)
    /\ timers p'' = timers p' /\ listeners p'' = listeners p'.
Proof.
  intros Hgi Hfa Hge.
  destruct (checkGuess_leaves_feedback p layerName expectedPlaintext gi fa ge Hgi Hfa Hge)
    as (p' & Hrun & Hfa' & Hleaf).
  destruct (elementById_Some _ _ _ Hfa') as (fe & Hfe & _).
  exists p', (feedbackPage p' fa feedbackHidden []),
    (setText [] (setClassList feedbackHidden fe)).
  split; [exact Hrun|]. split.
  { unfold runListener. unfold bind at 1. unfold getElementById. rewrite Hfa'.
    cbn [truthy]. apply feedback_pair. rewrite Hfe. eauto. }
  split; [rewrite (feedbackPage_lookup _ _ _ _ _ _ Hleaf Hfe);
          destruct (decide (fa = fa)); congruence|].
  split; [reflexivity|]. split.
  - intros n Hn. rewrite (feedbackPage_lookup _ _ _ _ _ _ Hleaf Hfe).
    destruct (decide (n = fa)); congruence.
  - rewrite (feedbackPage_leaf _ _ _ _ _ Hleaf Hfe). auto.
Qed.

(** X19: The keyboard listeners act on their own keys only, and the shortcut
    for Reveal All does nothing while an input or a text area has the
    focus: a chip reacts to Space and Enter, Reveal All to r and R, the
    guess input to Enter.  With no element focused, or with the focus on
    an element that is neither an input nor a text area (a button, a
    chip), the keys r and R do what [revealAllChips] does. *)
Theorem keyboard_listeners_guarded (p : Page) (key : jsstring) :
  (key <> js " " -> key <> js "Enter" ->
   forall card, runListener (ChipKeydown card) key p = Normal (tt, p))
  /\ (key <> js "r" -> key <> js "R" ->
      forall containerId, runListener (RevealAllKeydown containerId) key p = Normal (tt, p))
  /\ (forall n e, activeElement p = Some n -> elements p !! n = Some e ->
        elTagName e = js "INPUT" \/ elTagName e = js "TEXTAREA" ->
        forall containerId, runListener (RevealAllKeydown containerId) key p = Normal (tt, p))
  /\ (key <> js "Enter" ->
      forall layerName expectedPlaintext,
        runListener (GuessKeypress layerName expectedPlaintext) key p = Normal (tt, p))
  /\ (activeElement p = None
      \/ (exists n e, activeElement p = Some n /\ elements p !! n = Some e
                      /\ elTagName e <> js "INPUT" /\ elTagName e <> js "TEXTAREA") ->
      key = js "r" \/ key = js "R" ->
      forall containerId,
        runListener (RevealAllKeydown containerId) key p = revealAllChips containerId p).
Proof.
  split; [|split; [|split; [|split]]].
  - intros H1 H2 card. unfold runListener.
    now rewrite !bool_decide_eq_false_2 by assumption.
  - intros H1 H2 cid. unfold runListener.
    now rewrite !bool_decide_eq_false_2 by assumption.
  - intros n e Ha He Htag cid. unfold runListener.
    destruct (bool_decide (key = js "r") || bool_decide (key = js "R")); [|reflexivity].
    unfold bind, isTextInputFocused. rewrite Ha, He.
    destruct Htag as [-> | ->]; reflexivity.
  - intros H layerName expectedPlaintext. unfold runListener.
    now rewrite bool_decide_eq_false_2 by assumption.
  - intros Ha Hkey cid. unfold runListener.
    assert (E : bool_decide (key = js "r") || bool_decide (key = js "R") = true).
    { destruct Hkey as [-> | ->]; reflexivity. }
    rewrite E. unfold bind, isTextInputFocused.
    destruct Ha as [Ha | (n & e & Ha & He & Hi & Ht)].
    + now rewrite Ha.
    + rewrite Ha, He. now rewrite !bool_decide_eq_false_2 by assumption.
Qed.

(** * Properties of the theme and navigation code *)

Lemma setPage_same (b : Browser) : setPage (page b) b = b.
Proof. now destruct b. Qed.

Lemma isDark_toggled (l : list jsstring) :
  bool_decide (darkMode ∈ removeToken darkMode l) = false
  /\ bool_decide (darkMode ∈ l ++ [darkMode]) = true
  /\ bool_decide (darkMode ∈ addToken darkMode l) = true.
Proof.
  split; [|split].
  - apply bool_decide_eq_false_2. intros H. unfold removeToken in H.
    apply list_elem_of_In, filter_In in H as [_ H].
    rewrite bool_decide_eq_true_2 in H by reflexivity. discriminate.
  - apply bool_decide_eq_true_2, elem_of_app. right. apply list_elem_of_here.
  - apply bool_decide_eq_true_2. unfold addToken. case_bool_decide; [assumption|].
    apply elem_of_app. right. apply list_elem_of_here.
Qed.

Lemma themeIconOf_Some (p : Page) (t i : nat) :
  elementById p (js "themeToggle") = Some t -> themeIconOf p = Some i ->
  head (selectAll (elements p) t (js "theme-icon")) = Some i
  /\ is_Some (elements p !! i).
Proof.
  intros Ht Hi. unfold themeIconOf in Hi. rewrite Ht in Hi. split; [exact Hi|].
  destruct (selectAll (elements p) t (js "theme-icon")) as [|i' rest] eqn:Hsel;
    [discriminate|]. injection Hi as ->.
  assert (Hin : In i (selectAll (elements p) t (js "theme-icon")))
    by (rewrite Hsel; now left).
  apply selectAll_Some in Hin as (ei & Hei & _). eauto.
Qed.


(** On a page whose icon holds text only, [updateThemeIcon] changes the
    text of the icon and the label of the button: ids, tree, classes and
    the other attributes of the page stay, and so does every other
    element. *)
Lemma updateThemeIcon_leaf (b : Browser) (t i : nat) :
  elementById (page b) (js "themeToggle") = Some t ->
  themeIconOf (page b) = Some i ->
  hasNoChild (elements (page b)) i = true ->
  exists els,
    updateThemeIcon b = Normal (tt, setPage (setElements els (page b)) b)
    /\ (exists ei, els !! i = Some ei
                   /\ elTextContent ei = if isDark b then sunIcon else moonIcon)
    /\ (exists et, els !! t = Some et
                   /\ elAttributes et !! "aria-label"
                      = Some (if isDark b then js "Toggle light mode"
                              else js "Toggle dark mode"))
    /\ (forall n, n <> i -> n <> t -> els !! n = elements (page b) !! n)
    /\ map elId els = map elId (elements (page b))
    /\ map elParent els = map elParent (elements (page b))
    /\ map elClassList els = map elClassList (elements (page b))
    /\ map elConnected els = map elConnected (elements (page b))
    /\ (forall name, name <> "aria-label" ->
          map (fun e => elAttributes e !! name) els
          = map (fun e => elAttributes e !! name) (elements (page b))).
Proof.
  intros Ht Hi Hleaf.
  destruct (elementById_Some _ _ _ Ht) as (et & Het & _).
  destruct (themeIconOf_Some _ _ _ Ht Hi) as [Hhead [ei Hei]].
  assert (Hli : (i < length (elements (page b)))%nat) by (eapply lookup_lt_Some; eauto).
  assert (Hlt : (t < length (elements (page b)))%nat) by (eapply lookup_lt_Some; eauto).
  set (txt := if isDark b then sunIcon else moonIcon).
  set (lbl := if isDark b then js "Toggle light mode" else js "Toggle dark mode").
  set (els1 := <[i := setText txt ei]> (elements (page b))).
  assert (Hl1 : length els1 = length (elements (page b))) by apply length_insert.
  assert (Het1 : exists et1, els1 !! t = Some et1
                             /\ (i = t -> elTextContent et1 = txt)
                             /\ setText (elTextContent et) et1 = et).
  { unfold els1. destruct (decide (i = t)) as [->|Hne].
    - rewrite list_lookup_insert_eq by exact Hlt. exists (setText txt ei).
      assert (ei = et) by congruence. subst ei. split; [reflexivity|].
      split; [reflexivity | now destruct et].
    - rewrite list_lookup_insert_ne by exact Hne. exists et. split; [exact Het|].
      split; [intros E; congruence | now destruct et]. }
  destruct Het1 as (et1 & Het1 & Htxt1 & Hsame1).
  set (et2 := setAttributes (<["aria-label" := lbl]> (elAttributes et1)) et1).
  exists (<[t := et2]> els1). split.
  { unfold updateThemeIcon. unfold bindB at 1. unfold onPage at 1. unfold getElementById.
    rewrite Ht, setPage_same. cbn [truthy negb].
    unfold bindB at 1. unfold root_classList_contains.
    unfold bindB at 1. unfold onPage at 1. unfold querySelector, querySelectorAll.
    unfold bind at 1. unfold ret at 1.
    rewrite Hhead, setPage_same.
    unfold bindB. unfold onPage at 1.
    rewrite (set_textContent_leaf _ _ _ _ Hei Hleaf).
    unfold onPage. cbn [page setPage].
    erewrite setAttribute_Some by (cbn [elements setElements]; exact Het1).
    cbn [elements setElements page setPage]. fold (isDark b). fold txt lbl els1 et2.
    destruct b; reflexivity. }
  split.
  { destruct (decide (i = t)) as [->|Hne].
    - exists et2. rewrite list_lookup_insert_eq by (rewrite Hl1; exact Hlt).
      split; [reflexivity|]. unfold et2. cbn [elTextContent setAttributes]. now apply Htxt1.
    - exists (setText txt ei). rewrite list_lookup_insert_ne by congruence.
      unfold els1. rewrite list_lookup_insert_eq by exact Hli. auto. }
  split.
  { exists et2. rewrite list_lookup_insert_eq by (rewrite Hl1; exact Hlt).
    split; [reflexivity|]. unfold et2. cbn [elAttributes setAttributes].
    apply lookup_insert_eq. }
  split.
  { intros n Hni Hnt. rewrite list_lookup_insert_ne by congruence.
    unfold els1. now rewrite list_lookup_insert_ne by congruence. }
  assert (Hkeep : forall (C : Type) (g : Element -> C),
             (forall x y, g (setText x y) = g y) -> g et2 = g et1 ->
             map g (<[t := et2]> els1) = map g (elements (page b))).
  { intros C g Hg Hg2. rewrite (map_insert_same g _ _ et1) by assumption.
    apply (map_insert_same g _ _ ei); [exact Hei | apply Hg]. }
  split; [apply Hkeep; reflexivity|]. split; [apply Hkeep; reflexivity|].
  split; [apply Hkeep; reflexivity|]. split; [apply Hkeep; reflexivity|].
  intros name Hname. apply Hkeep; [reflexivity|].
  unfold et2. cbn [elAttributes setAttributes]. apply lookup_insert_ne. congruence.
Qed.

Lemma updateThemeIcon_no_button (b : Browser) :
  elementById (page b) (js "themeToggle") = None -> updateThemeIcon b = Normal (tt, b).
Proof.
  intros H. unfold updateThemeIcon, bindB, onPage, getElementById. rewrite H.
  cbn [truthy negb]. unfold retB. now rewrite setPage_same.
Qed.

Lemma updateThemeIcon_no_icon (b : Browser) (t : nat) :
  elementById (page b) (js "themeToggle") = Some t ->
  themeIconOf (page b) = None ->
  updateThemeIcon b = Throw.
Proof.
  intros Ht Hi. unfold updateThemeIcon. unfold bindB at 1. unfold onPage at 1.
  unfold getElementById. rewrite Ht, setPage_same. cbn [truthy negb].
  unfold bindB at 1. unfold root_classList_contains.
  unfold bindB at 1. unfold onPage at 1. unfold querySelector, querySelectorAll.
  unfold bind at 1. unfold ret at 1.
  unfold themeIconOf in Hi. rewrite Ht in Hi. rewrite Hi, setPage_same.
  reflexivity.
Qed.


Lemma isDark_setPage (q : Page) (b : Browser) : isDark (setPage q b) = isDark b.
Proof. reflexivity. Qed.

Lemma toggleDarkMode_unfold (b : Browser) :
  toggleDarkMode b
  = updateThemeIcon
      (setLocalStorage
         (<["theme" := if isDark b then js "light" else js "dark"]> (localStorage b))
         (setRootClassList
            (if isDark b then removeToken darkMode (rootClassList b)
             else rootClassList b ++ [darkMode]) b)).
Proof.
  unfold toggleDarkMode, bindB, root_classList_toggle, localStorage_setItem, isDark.
  destruct (bool_decide (darkMode ∈ rootClassList b)); reflexivity.
Qed.

Lemma isDark_after_toggle (b : Browser) (m : gmap string jsstring) :
  isDark (setLocalStorage m
            (setRootClassList
               (if isDark b then removeToken darkMode (rootClassList b)
                else rootClassList b ++ [darkMode]) b))
  = negb (isDark b).
Proof.
  destruct (isDark_toggled (rootClassList b)) as (H1 & H2 & _).
  unfold isDark at 1. cbn [rootClassList setLocalStorage setRootClassList].
  destruct (isDark b); cbn [negb]; assumption.
Qed.

(** X23: [toggleDarkMode] flips the class [dark-mode] of the root and stores the
    new theme under the key [theme], "dark" exactly when the class is now
    there; the icon of the theme button shows the new theme.  It touches
    no other key of the storage and no element but the theme button and
    its icon; without a theme button it still flips and stores.  The
    requirements are that a theme button, when there is one, has its
    icon, and that the icon holds text only (it has no child element). *)
Theorem toggleDarkMode_keeps_storage_in_step (b : Browser) :
  (forall t, elementById (page b) (js "themeToggle") = Some t ->
             is_Some (themeIconOf (page b))) ->
  (forall i, themeIconOf (page b) = Some i -> hasNoChild (elements (page b)) i = true) ->
  exists b',
    toggleDarkMode b = Normal (tt, b')
    /\ isDark b' = negb (isDark b)
    /\ localStorage b' !! "theme" = Some (if isDark b' then js "dark" else js "light")
    /\ (forall k, k <> "theme" -> localStorage b' !! k = localStorage b !! k)
    /\ (forall i, themeIconOf (page b) = Some i ->
          exists ei, elements (page b') !! i = Some ei
                     /\ elTextContent ei = if isDark b' then sunIcon else moonIcon)
    /\ (elementById (page b) (js "themeToggle") = None -> page b' = page b)
    /\ (forall t i n, elementById (page b) (js "themeToggle") = Some t ->
          themeIconOf (page b) = Some i -> n <> t -> n <> i ->
          elements (page b') !! n = elements (page b) !! n)
    /\ pathname b' = pathname b /\ siteListeners b' = siteListeners b.
Proof.
  intros Hicon Hleaf. rewrite toggleDarkMode_unfold.
  set (m := <["theme" := if isDark b then js "light" else js "dark"]> (localStorage b)).
  set (b1 := setLocalStorage m
               (setRootClassList
                  (if isDark b then removeToken darkMode (rootClassList b)
                   else rootClassList b ++ [darkMode]) b)).
  assert (Hd : isDark b1 = negb (isDark b)) by apply isDark_after_toggle.
  assert (Hstore : m !! "theme" = Some (if negb (isDark b) then js "dark" else js "light")).
  { unfold m. rewrite lookup_insert_eq. now destruct (isDark b). }
  assert (Hother : forall k, k <> "theme" -> m !! k = localStorage b !! k).
  { intros k Hk. unfold m. now rewrite lookup_insert_ne by congruence. }
  destruct (elementById (page b) (js "themeToggle")) as [t|] eqn:Ht.
  - destruct (Hicon t eq_refl) as [i Hi].
    destruct (updateThemeIcon_leaf b1 t i Ht Hi (Hleaf i Hi))
      as (els & Hrun & (ei & Hei & Htxt) & _ & Hframe & _).
    eexists. split; [exact Hrun|]. rewrite !isDark_setPage, Hd.
    cbn [localStorage page pathname siteListeners setPage elements setElements].
    split; [reflexivity|].
    split; [exact Hstore|]. split; [exact Hother|]. split.
    + intros i' Hi'. assert (i' = i) by congruence. subst i'.
      exists ei. split; [exact Hei|]. now rewrite Htxt, Hd.
    + split; [discriminate|]. split; [|split; reflexivity].
      intros t' i' n Ht' Hi' Hnt Hni.
      assert (t' = t) by congruence. assert (i' = i) by congruence. subst t' i'.
      now apply Hframe.
  - rewrite (updateThemeIcon_no_button b1 Ht). eexists. split; [reflexivity|].
    split; [exact Hd|]. rewrite Hd.
    split; [exact Hstore|]. split; [exact Hother|]. split.
    + intros i Hi. unfold themeIconOf in Hi. rewrite Ht in Hi. discriminate.
    + split; [reflexivity|]. split; [discriminate|]. split; reflexivity.
Qed.

(** X24: A theme button without an icon makes [updateThemeIcon] fail with the
    [TypeError] of [icon.textContent] on [null], and so [toggleDarkMode];
    [initializeDarkMode] fails on such a page exactly when the stored theme
    is "dark". *)
Theorem theme_button_without_icon (b : Browser) (t : nat) :
  elementById (page b) (js "themeToggle") = Some t ->
  themeIconOf (page b) = None ->
  updateThemeIcon b = Throw
  /\ toggleDarkMode b = Throw
  /\ (localStorage b !! "theme" = Some (js "dark") -> initializeDarkMode b = Throw)
  /\ (localStorage b !! "theme" <> Some (js "dark") ->
      exists b', initializeDarkMode b = Normal (tt, b') /\ isDark b' = isDark b).
Proof.
  intros Ht Hi. split; [now apply (updateThemeIcon_no_icon b t)|]. split.
  - rewrite toggleDarkMode_unfold. now apply (updateThemeIcon_no_icon _ t).
  - split.
    + intros Hs. unfold initializeDarkMode. unfold bindB at 1. unfold onPage at 1.
      unfold getElementById. rewrite Ht, setPage_same.
      unfold bindB at 1. unfold localStorage_getItem. rewrite Hs.
      rewrite bool_decide_eq_true_2 by reflexivity.
      unfold bindB at 1 2. unfold root_classList_add.
      now rewrite (updateThemeIcon_no_icon _ t).
    + intros Hs. unfold initializeDarkMode. unfold bindB at 1. unfold onPage at 1.
      unfold getElementById. rewrite Ht, setPage_same.
      unfold bindB at 1. unfold localStorage_getItem.
      rewrite bool_decide_eq_false_2 by exact Hs.
      eexists. split; [reflexivity|]. reflexivity.
Qed.




(** ** Navigation *)

Lemma splitOn_no_separator (sep : N) (t : jsstring) :
  ~ In sep t -> splitOn sep t = [t].
Proof.
  induction t as [|d t IH]; intros Hd; [reflexivity|]. cbn [splitOn].
  destruct (N.eqb_spec d sep) as [->|_]; [elim Hd; now left|].
  rewrite IH; [reflexivity|]. intros H. apply Hd. now right.
Qed.

Lemma splitOn_two (sep : N) (pre rest : jsstring) :
  exists x y l, splitOn sep (pre ++ sep :: rest) = x :: y :: l.
Proof.
  induction pre as [|c pre (x & y & l & IH)]; cbn [app splitOn].
  - rewrite N.eqb_refl. destruct (splitOn sep rest) as [|y l] eqn:E.
    + destruct rest as [|d rest]; cbn [splitOn] in E; [discriminate|].
      destruct (d =? sep); [discriminate|]. destruct (splitOn sep rest); discriminate.
    + eauto.
  - rewrite IH. destruct (c =? sep); eauto.
Qed.

Lemma splitOn_last_after (sep : N) (pre rest : jsstring) :
  last (splitOn sep (pre ++ sep :: rest)) = last (splitOn sep rest).
Proof.
  induction pre as [|c pre IH]; cbn [app splitOn].
  - rewrite N.eqb_refl. destruct (splitOn sep rest) as [|y l] eqn:E; [|reflexivity].
    destruct rest as [|d rest]; cbn [splitOn] in E; [discriminate|].
    destruct (d =? sep); [discriminate|]. destruct (splitOn sep rest); discriminate.
  - destruct (splitOn_two sep pre rest) as (x & y & l & E). rewrite E in IH |- *.
    destruct (c =? sep); exact IH.
Qed.

Lemma last_separator (sep : N) (s : jsstring) :
  ~ In sep s \/ exists pre seg, s = pre ++ sep :: seg /\ ~ In sep seg.
Proof.
  induction s as [|c s [Hno|(pre & seg & -> & Hno)]].
  - left. intros [].
  - destruct (N.eq_dec c sep) as [->|Hne].
    + right. exists [], s. auto.
    + left. intros [H|H]; [exact (Hne H) | exact (Hno H)].
  - right. exists (c :: pre), seg. auto.
Qed.

Lemma splitOn_last (sep : N) (s : jsstring) :
  exists seg, last (splitOn sep s) = Some seg
              /\ ~ In sep seg
              /\ (s = seg \/ exists pre, s = pre ++ sep :: seg).
Proof.
  destruct (last_separator sep s) as [Hno|(pre & seg & -> & Hno)].
  - exists s. rewrite splitOn_no_separator by exact Hno. auto.
  - exists seg. rewrite splitOn_last_after, splitOn_no_separator by exact Hno.
    split; [reflexivity|]. split; [exact Hno|]. right. now exists pre.
Qed.

(** X27: The page name of a path is what follows its last slash, the whole path
    when it has no slash, and [index.html] when that is empty; so the path
    "/" names [index.html], as the empty path does. *)
Theorem pageName_after_last_slash (path : jsstring) :
  (exists seg,
      ~ In 47 seg
      /\ (path = seg \/ exists pre, path = pre ++ 47 :: seg)
      /\ pageName path = match seg with [] => js "index.html" | _ => seg end)
  /\ (path = js "/" -> pageName path = js "index.html")
  /\ ~ In 47 (pageName path).
Proof.
  destruct (splitOn_last 47 path) as (seg & Hlast & Hno & Hshape).
  assert (Hname : pageName path = match seg with [] => js "index.html" | _ => seg end).
  { unfold pageName. rewrite Hlast. now destruct seg. }
  split; [exists seg; auto|]. split.
  - intros ->. reflexivity.
  - rewrite Hname. destruct seg; [|exact Hno].
    cbn. intuition discriminate.
Qed.

Lemma nav_condition (h path : jsstring) :
  bool_decide (pageName h = pageName path)
  || (bool_decide (pageName h = js "index.html") && bool_decide (path = js "/"))
  = bool_decide (pageName h = pageName path).
Proof.
  destruct (bool_decide (pageName h = pageName path)) eqn:E; [reflexivity|].
  cbn [orb]. destruct (bool_decide (path = js "/")) eqn:Ep; [|apply andb_false_r].
  apply bool_decide_eq_true in Ep. subst path.
  apply bool_decide_eq_false in E. rewrite andb_true_r.
  apply bool_decide_eq_false_2. exact E.
Qed.

Lemma nav_step (path : jsstring) (link : nat) (q : Page) (e : Element) :
  elements q !! link = Some e ->
  (classList_remove (Some link) activeClass;;;
   let* href := getAttribute (Some link) "href" in
   match href with
   | None => fun _ => Throw
   | Some h =>
       let linkPath := pageName h in
       let currentPageName := pageName path in
       if bool_decide (linkPath = currentPageName)
          || (bool_decide (linkPath = js "index.html") && bool_decide (path = js "/"))
       then classList_add (Some link) activeClass
       else ret tt
   end) q
  = match elAttributes e !! "href" with
    | Some h => Normal (tt, setElements (markLink path (elements q) link) q)
    | None => Throw
    end.
Proof.
  intros He.
  assert (Hlt : (link < length (elements q))%nat) by (eapply lookup_lt_Some; eauto).
  unfold bind at 1. unfold classList_remove. rewrite (writeElement_Some _ _ _ _ He).
  unfold bind at 1. unfold getAttribute.
  erewrite readElement_Some
    by (cbn [elements setElements]; apply list_lookup_insert_eq; exact Hlt).
  cbn [elAttributes setClassList]. unfold markLink, navMarked. rewrite He.
  destruct (elAttributes e !! "href") as [h|]; [|reflexivity].
  cbv zeta. rewrite nav_condition.
  destruct (bool_decide (pageName h = pageName path)).
  - unfold classList_add.
    erewrite writeElement_Some
      by (cbn [elements setElements]; apply list_lookup_insert_eq; exact Hlt).
    cbn [elements setElements elClassList setClassList].
    now rewrite list_insert_insert_eq.
  - reflexivity.
Qed.

Lemma markLink_keeps {C : Type} (g : Element -> C) (path : jsstring)
    (els : list Element) (link : nat) :
  (forall l e, g (setClassList l e) = g e) ->
  map g (markLink path els link) = map g els.
Proof.
  intros Hg. unfold markLink. destruct (els !! link) as [e|] eqn:H; [|reflexivity].
  apply (map_insert_same g _ _ e); [exact H|]. unfold navMarked.
  destruct (elAttributes e !! "href"); [|reflexivity].
  destruct (bool_decide _); apply Hg.
Qed.

Lemma nav_loop (path : jsstring) (links : list nat) (i : nat) (q : Page) :
  (forall l, In l links ->
     exists e, elements q !! l = Some e /\ is_Some (elAttributes e !! "href")) ->
  forEachFrom (fun link (_ : nat) =>
    classList_remove (Some link) activeClass;;;
    let* href := getAttribute (Some link) "href" in
    match href with
    | None => fun _ => Throw
    | Some h =>
        let linkPath := pageName h in
        let currentPageName := pageName path in
        if bool_decide (linkPath = currentPageName)
           || (bool_decide (linkPath = js "index.html") && bool_decide (path = js "/"))
        then classList_add (Some link) activeClass
        else ret tt
    end) links i q
  = Normal (tt, setElements (fold_left (markLink path) links (elements q)) q).
Proof.
  revert i q. induction links as [|link links IH]; intros i q Hvalid.
  - cbn. unfold ret. now rewrite setElements_same.
  - destruct (Hvalid link (or_introl eq_refl)) as (e & He & [h Hh]).
    cbn [forEachFrom fold_left].
    assert (Hstep := nav_step path link q e He). rewrite Hh in Hstep.
    rewrite (bind_Normal _ _ _ _ _ Hstep). rewrite IH.
    + cbn [elements setElements]. now rewrite setElements_twice.
    + intros l Hl. cbn [elements setElements].
      destruct (Hvalid l (or_intror Hl)) as (e' & He' & Hh').
      pose proof (lookup_of_map elAttributes (elements q) (markLink path (elements q) link) l
                    (markLink_keeps elAttributes path _ _ (fun _ _ => eq_refl))) as E.
      rewrite He' in E. destruct (markLink path (elements q) link !! l) as [e''|];
        [|discriminate]. exists e''. split; [reflexivity|].
      cbn in E. injection E as ->. exact Hh'.
Qed.

Lemma nav_loop_throws (path : jsstring) (links : list nat) (i : nat) (q : Page) :
  (forall l, In l links -> is_Some (elements q !! l)) ->
  (exists l e, In l links /\ elements q !! l = Some e /\ elAttributes e !! "href" = None) ->
  forEachFrom (fun link (_ : nat) =>
    classList_remove (Some link) activeClass;;;
    let* href := getAttribute (Some link) "href" in
    match href with
    | None => fun _ => Throw
    | Some h =>
        let linkPath := pageName h in
        let currentPageName := pageName path in
        if bool_decide (linkPath = currentPageName)
           || (bool_decide (linkPath = js "index.html") && bool_decide (path = js "/"))
        then classList_add (Some link) activeClass
        else ret tt
    end) links i q
  = Throw.
Proof.
  revert i q. induction links as [|link links IH]; intros i q Hvalid (l & e & Hin & He & Hno).
  - destruct Hin.
  - destruct (Hvalid link (or_introl eq_refl)) as [e0 He0].
    cbn [forEachFrom]. assert (Hstep := nav_step path link q e0 He0).
    destruct (elAttributes e0 !! "href") as [h|] eqn:Hh.
    + rewrite (bind_Normal _ _ _ _ _ Hstep). apply IH.
      * intros l' Hl'. cbn [elements setElements]. apply lookup_lt_is_Some.
        rewrite <- (length_map elId), (markLink_keeps elId) by (intros; reflexivity).
        rewrite length_map. apply lookup_lt_is_Some. apply Hvalid. now right.
      * destruct Hin as [->|Hin]; [congruence|].
        pose proof (lookup_of_map elAttributes (elements q)
                      (markLink path (elements q) link) l
                      (markLink_keeps elAttributes path _ _ (fun _ _ => eq_refl))) as E.
        rewrite He in E. cbn [elements setElements].
        destruct (markLink path (elements q) link !! l) as [e''|] eqn:Hm; [|discriminate].
        exists l, e''. split; [exact Hin|]. split; [exact Hm|].
        cbn in E. injection E as ->. exact Hno.
    + now apply bind_Throw.
Qed.

Lemma marks_lookup (path : jsstring) (links : list nat) (els : list Element) (n : nat) :
  List.NoDup links ->
  fold_left (markLink path) links els !! n
  = if bool_decide (n ∈ links) then navMarked path <$> els !! n else els !! n.
Proof.
  intros Hnd. revert els. induction Hnd as [|link links Hnotin Hnd IH]; intros els.
  - cbn. rewrite bool_decide_eq_false_2; [reflexivity|]. apply not_elem_of_nil.
  - cbn [fold_left]. rewrite IH.
    assert (Hm : forall k, markLink path els link !! k
                   = if decide (k = link) then navMarked path <$> els !! k else els !! k).
    { intros k. unfold markLink. destruct (els !! link) as [e|] eqn:He.
      - destruct (decide (k = link)) as [->|Hk].
        + rewrite list_lookup_insert_eq by (eapply lookup_lt_Some; eauto). now rewrite He.
        + now rewrite list_lookup_insert_ne by congruence.
      - destruct (decide (k = link)) as [->|Hk]; [now rewrite He | reflexivity]. }
    rewrite Hm. destruct (decide (n = link)) as [->|Hne].
    + rewrite (bool_decide_eq_false_2 (link ∈ links)) by (now rewrite list_elem_of_In).
      rewrite (bool_decide_eq_true_2 (link ∈ link :: links)) by apply list_elem_of_here.
      reflexivity.
    + apply (f_equal (fun c : bool => if c then _ else _)).
      apply bool_decide_ext. rewrite elem_of_cons. intuition congruence.
Qed.

(** X28: [updateActiveNavLink], when every nav link of the document has an
    [href]: afterwards a nav link of the document carries the class
    [active] exactly when the page name of its [href] is the page name of
    the current path (a mark left from before is removed); it keeps its
    other classes, and an element that is not a nav link of the document
    is not touched.  An element is of the document while it is connected:
    [document.querySelectorAll] does not find an element that an
    assignment of [textContent] has taken out. *)
Theorem updateActiveNavLink_marks (b : Browser) :
  (forall n e, elements (page b) !! n = Some e -> elConnected e = true ->
               hasClass navLinkClass e = true -> is_Some (elAttributes e !! "href")) ->
  exists q,
    updateActiveNavLink b = Normal (tt, setPage q b)
    /\ timers q = timers (page b) /\ listeners q = listeners (page b)
    /\ forall n e, elements (page b) !! n = Some e ->
         exists e',
           elements q !! n = Some e'
           /\ (elConnected e && hasClass navLinkClass e = false -> e' = e)
           /\ (elConnected e = true -> hasClass navLinkClass e = true ->
               forall h, elAttributes e !! "href" = Some h ->
                 hasClass activeClass e' = bool_decide (pageName h = pageName (pathname b))
                 /\ (forall cls, cls <> activeClass -> hasClass cls e' = hasClass cls e)
                 /\ setClassList (elClassList e) e' = e).
Proof.
  intros Hhref.
  assert (Hlinks : forall l, In l (navLinksOf (page b)) ->
                     exists e, elements (page b) !! l = Some e
                               /\ elConnected e = true
                               /\ hasClass navLinkClass e = true).
  { intros l Hl. unfold navLinksOf in Hl. apply filter_In in Hl as [_ Hl].
    destruct (elements (page b) !! l) as [e|]; [|discriminate].
    apply andb_true_iff in Hl as [Hcon Hnav]. eauto. }
  exists (setElements (fold_left (markLink (pathname b)) (navLinksOf (page b))
                         (elements (page b))) (page b)).
  split.
  { unfold updateActiveNavLink, bindB, location_pathname, onPage.
    rewrite (bind_Normal _ _ (page b) (page b) (navLinksOf (page b))) by reflexivity.
    unfold forEach. rewrite nav_loop; [reflexivity|].
    intros l Hl. destruct (Hlinks l Hl) as (e & He & Hcon & Hc). exists e.
    split; [exact He|]. now apply (Hhref l). }
  split; [reflexivity|]. split; [reflexivity|].
  intros n e He. cbn [elements setElements].
  rewrite marks_lookup by (unfold navLinksOf; apply List.NoDup_filter, List.seq_NoDup).
  assert (Hmem : bool_decide (n ∈ navLinksOf (page b))
                 = elConnected e && hasClass navLinkClass e).
  { destruct (elConnected e && hasClass navLinkClass e) eqn:Hc.
    - apply bool_decide_eq_true_2, list_elem_of_In. unfold navLinksOf.
      apply filter_In. split; [|now rewrite He].
      apply in_seq. split; [lia|]. cbn. eapply lookup_lt_Some; eauto.
    - apply bool_decide_eq_false_2. intros Hin. apply list_elem_of_In in Hin.
      destruct (Hlinks n Hin) as (e0 & He0 & Hcon0 & Hc0).
      assert (e0 = e) by congruence. subst e0. rewrite Hcon0, Hc0 in Hc. discriminate. }
  rewrite Hmem, He. destruct (elConnected e && hasClass navLinkClass e) eqn:Hc.
  - exists (navMarked (pathname b) e). split; [reflexivity|]. split; [discriminate|].
    intros _ _ h Hh. unfold navMarked. rewrite Hh.
    assert (Hrm : forall cls, cls <> activeClass ->
              bool_decide (cls ∈ removeToken activeClass (elClassList e))
              = hasClass cls e).
    { intros cls Hcls. unfold hasClass. apply bool_decide_ext. unfold removeToken. split.
      - intros Hin. apply list_elem_of_In, filter_In in Hin as [Hin _].
        now apply list_elem_of_In.
      - intros Hin. apply list_elem_of_In, filter_In.
        split; [now apply list_elem_of_In|].
        apply negb_true_iff, bool_decide_eq_false_2. congruence. }
    assert (Hgone : ~ activeClass ∈ removeToken activeClass (elClassList e)).
    { intros Hin. apply list_elem_of_In, filter_In in Hin as [_ Hin].
      rewrite bool_decide_eq_true_2 in Hin by reflexivity. discriminate. }
    destruct (bool_decide (pageName h = pageName (pathname b))).
    + split; [|split; [|now destruct e]].
      * unfold hasClass. cbn [elClassList setClassList]. apply bool_decide_eq_true_2.
        unfold addToken. rewrite bool_decide_eq_false_2 by exact Hgone.
        apply elem_of_app. right. apply list_elem_of_here.
      * intros cls Hcls. rewrite <- (Hrm cls Hcls). unfold hasClass.
        cbn [elClassList setClassList]. apply bool_decide_ext. unfold addToken.
        rewrite bool_decide_eq_false_2 by exact Hgone.
        rewrite elem_of_app, list_elem_of_singleton. intuition congruence.
    + split; [|split; [|now destruct e]].
      * unfold hasClass. cbn [elClassList setClassList].
        now apply bool_decide_eq_false_2.
      * intros cls Hcls. rewrite <- (Hrm cls Hcls). reflexivity.
  - exists e. split; [reflexivity|]. split; [reflexivity|].
    intros Hcon Hnav. rewrite Hcon, Hnav in Hc. discriminate.
Qed.

(** X29: A nav link of the document (a connected element of class
    [nav-link]) without [href] makes [updateActiveNavLink] fail with the
    [TypeError] of [href.split] on [null]. *)
Theorem updateActiveNavLink_needs_href (b : Browser) (n : nat) (e : Element) :
  elements (page b) !! n = Some e ->
  elConnected e = true ->
  hasClass navLinkClass e = true ->
  elAttributes e !! "href" = None ->
  updateActiveNavLink b = Throw.
Proof.
  intros He Hcon Hc Hno.
  unfold updateActiveNavLink, bindB, location_pathname, onPage.
  rewrite (bind_Normal _ _ (page b) (page b) (navLinksOf (page b))) by reflexivity.
  unfold forEach. rewrite nav_loop_throws; [reflexivity| |].
  - intros l Hl. unfold navLinksOf in Hl. apply filter_In in Hl as [_ Hl].
    destruct (elements (page b) !! l); [eauto | discriminate].
  - exists n, e. split; [|auto]. unfold navLinksOf. apply filter_In.
    split; [|now rewrite He, Hcon, Hc]. apply in_seq. split; [lia|]. cbn.
    eapply lookup_lt_Some; eauto.
Qed.

(** ** The handler of [DOMContentLoaded] *)






(** * The self-test of the codec *)

(** X9: The self-test that [baconian.js] runs when the page loads passes on
    every case table: eleven checks pass, none fails, and nothing is
    printed as a warning; its last line reports the two counts. *)
Theorem runTests_all_pass :
  passed runTests = 11%Z /\ failed runTests = 0%Z
  /\ Forall (fun entry => entryLevel entry = LevelLog) (output runTests)
  /\ last (output runTests)
     = Some (mkConsoleEntry LevelLog
               [js "%c=== Tests Complete: 11 passed, 0 failed ===";
                js "color: #27ae60; font-weight: bold;"]).
Proof.
  split; [vm_compute; reflexivity|]. split; [vm_compute; reflexivity|].
  split; [|vm_compute; reflexivity].
  vm_compute. repeat constructor.
Qed.

End Site.

(** * The claims on a concrete table and a concrete page *)

Lemma latin1Upper_keeps : upperKeepsNonAB latin1Upper.
Proof.
  intros cp Hcp. unfold latin1Upper, charA, charB.
  repeat match goal with
         | |- context [?a =? ?b] => destruct (N.eqb_spec a b)
         | |- context [?a <=? ?b] => destruct (N.leb_spec a b)
         end; cbn [andb negb];
    eexists; (split; [apply list_elem_of_here | lia]).
Defined.

Lemma decodeGroup_five_bit_letter_witness :
  toUpperCase latin1Upper (js "BAAAB") = [66; 65; 65; 65; 66]
  /\ Forall (fun c => c = charA \/ c = charB) [66; 65; 65; 65; 66]
  /\ decodeGroup latin1Upper (JSString (js "BAAAB")) = [82].
Proof.
  assert (HAB : Forall (fun c => c = charA \/ c = charB) [66; 65; 65; 65; 66]).
  { repeat constructor; (now left) || (now right). }
  split; [reflexivity|]. split; [exact HAB|].
  apply (proj1 (decodeGroup_five_bit_letter latin1Upper)
           (js "BAAAB") 66 65 65 65 66 eq_refl HAB).
  cbn. lia.
Defined.

Lemma decodeGroup_unknown_iff_invalid_witness :
  ~ invalidGroup (toUpperCase latin1Upper (js "BAAAB"))
  /\ exists c, 65 <= c <= 90 /\ decodeGroup latin1Upper (JSString (js "BAAAB")) = [c].
Proof.
  assert (H : ~ invalidGroup (toUpperCase latin1Upper (js "BAAAB"))).
  { change (toUpperCase latin1Upper (js "BAAAB")) with [66; 65; 65; 65; 66].
    unfold invalidGroup, charA, charB. intros [H|[(c & Hin & HA & HB)|H]].
    - now apply H.
    - apply list_elem_of_In in Hin. cbn in Hin.
      destruct Hin as [<-|[<-|[<-|[<-|[<-|[]]]]]]; congruence.
    - change (groupValue [66; 65; 65; 65; 66]) with 17%Z in H. lia. }
  split; [exact H|].
  exact (proj2 (decodeGroup_unknown_iff_invalid latin1Upper (js "BAAAB")) H).
Defined.

(** C3: the code departs from the claim on the group BBBBB.  It reads as
    31, past the 26 letters of the table in the header of [baconian.js],
    and [decodeGroup] answers the question mark on it; [isValidGroup],
    which has no check of the range, answers [true].  So [isValidGroup]
    is not the test that [decodeGroup] applies. *)
Lemma isValidGroup_accepts_undecodable :
  groupValue (toUpperCase latin1Upper (js "BBBBB")) = 31%Z
  /\ decodeGroup latin1Upper (JSString (js "BBBBB")) = unknown
  /\ isValidGroup latin1Upper (JSString (js "BBBBB")) = Normal true
  /\ ~ (isValidGroup latin1Upper (JSString (js "BBBBB")) = Normal true
        <-> decodeGroup latin1Upper (JSString (js "BBBBB")) <> unknown).
Proof.
  split; [reflexivity|]. split; [reflexivity|]. split; [reflexivity|].
  intros [H _]. apply H; reflexivity.
Qed.

Lemma isValidGroup_shape_only_witness :
  upperKeepsNonAB latin1Upper
  /\ (isValidGroup latin1Upper (JSString (js "BBBBB")) = Normal true
      <-> length (js "BBBBB") = 5%nat /\ Forall (fun c => isABAnyCase c = true) (js "BBBBB"))
  /\ (decodeGroup latin1Upper (JSString (js "BBBBB")) <> unknown
      <-> isValidGroup latin1Upper (JSString (js "BBBBB")) = Normal true
          /\ (groupValue (toUpperCase latin1Upper (js "BBBBB")) <= 25)%Z).
Proof.
  split; [exact latin1Upper_keeps|].
  exact (isValidGroup_shape_only latin1Upper (js "BBBBB") latin1Upper_keeps).
Defined.

Lemma decodeGroups_maps_and_joins_witness :
  isArray (JSString (js "BAAAB")) = false
  /\ decodeGroups latin1Upper (JSString (js "BAAAB")) = [].
Proof.
  split; [reflexivity|].
  exact (proj1 (proj2 (decodeGroups_maps_and_joins latin1Upper))
           (JSString (js "BAAAB")) eq_refl).
Defined.

Lemma decodeGroups_length_witness :
  [js "BAAAB"; js "AXAAA"] !! 1%nat = Some (js "AXAAA")
  /\ exists c, decodeGroup latin1Upper (JSString (js "AXAAA")) = [c]
               /\ (c = 63 \/ 65 <= c <= 90)
               /\ decodeGroups latin1Upper
                    (JSArray (map (fun g => Some (JSString g)) [js "BAAAB"; js "AXAAA"]))
                  !! 1%nat = Some c.
Proof.
  split; [reflexivity|].
  exact (proj2 (decodeGroups_length latin1Upper [js "BAAAB"; js "AXAAA"])
           1%nat (js "AXAAA") eq_refl).
Defined.

(** C6 fails as stated: with an expected answer that has no letter, the
    empty guess is reported Correct; the feedback is not cleared. *)
Lemma checkGuess_empty_guess_correct :
  normalizePlaintext latin1Upper (JSString []) = []
  /\ exists p' fe',
       checkGuess latin1Upper (js "layer4") (js "42") (samplePage []) = Normal (tt, p')
       /\ elements p' !! 6%nat = Some fe'
       /\ feedbackOf fe' = FeedbackCorrect
       /\ feedbackOf fe' <> FeedbackNone.
Proof.
  split; [reflexivity|].
  destruct (checkGuess_feedbackOf latin1Upper (samplePage []) (js "layer4") (js "42")
              5%nat 6%nat
              (sampleElement "INPUT" (Some "layer4Guess"%string) None [] None (Some [])))
    as (p' & fe' & Hrun & Hl & Hf); try reflexivity.
  exists p', fe'. split; [exact Hrun|]. split; [exact Hl|].
  change (feedbackOf fe' = FeedbackCorrect) in Hf. rewrite Hf. split; [reflexivity | discriminate].
Qed.

Lemma checkGuess_feedback_witness :
  elementById (samplePage (js "relay")) (js "layer4" ++ js "Guess") = Some 5%nat
  /\ elementById (samplePage (js "relay")) (js "layer4" ++ js "Feedback") = Some 6%nat
  /\ exists p' fe',
       checkGuess latin1Upper (js "layer4") (js "RELIABLE") (samplePage (js "relay"))
       = Normal (tt, p')
       /\ elements p' !! 6%nat = Some fe'
       /\ feedbackOf fe' = FeedbackIncorrect.
Proof.
  split; [reflexivity|]. split; [reflexivity|].
  exact (proj1 (checkGuess_feedback latin1Upper) (samplePage (js "relay"))
           (js "layer4") (js "RELIABLE") 5%nat 6%nat
           (sampleElement "INPUT" (Some "layer4Guess"%string) None [] None (Some (js "relay")))
           eq_refl eq_refl eq_refl).
Defined.

(** C7 fails as stated: the first chip of the sample page is Revealed, and
    [toggleChip] on it leaves it Hidden. *)
Lemma toggleChip_hides_revealed :
  isRevealed (samplePage []) 1 = true
  /\ exists p', toggleChip (Some 1%nat) (samplePage []) = Normal (tt, p')
                /\ isRevealed p' 1 = false.
Proof.
  split; [reflexivity|].
  destruct (toggleChip_flips (samplePage []) 1
              (sampleElement "BUTTON" None (Some 0%nat) ["chip-card"; "revealed"]%string
                 (Some "BAAAB"%string) None) eq_refl) as (p' & Hrun & Hflip & _).
  exists p'. split; [exact Hrun|]. rewrite Hflip. reflexivity.
Qed.

Lemma reveal_one_way_but_toggle_witness :
  elements (samplePage []) !! 3%nat
  = Some (sampleElement "BUTTON" None (Some 0%nat) ["chip-card"]%string
            (Some "AABAA"%string) None)
  /\ exists p', runTimerCallback (RevealCard 3) (samplePage []) = Normal (tt, p')
                /\ isRevealed p' 3 = true
                /\ forall c, isRevealed (samplePage []) c = true -> isRevealed p' c = true.
Proof.
  split; [reflexivity|].
  exact (proj1 (proj2 reveal_one_way_but_toggle) 3%nat (samplePage []) _ eq_refl).
Defined.

Lemma missing_target_is_noop_witness :
  (elementById (samplePage []) (js "layer5" ++ js "Guess") = None
   \/ elementById (samplePage []) (js "layer5" ++ js "Feedback") = None)
  /\ checkGuess latin1Upper (js "layer5") (js "SESSION") (samplePage [])
     = Normal (tt, samplePage [])
  /\ elementById (samplePage []) (js "layer5" ++ js "Chips") = None
  /\ revealAllChips (js "layer5" ++ js "Chips") (samplePage []) = Normal (tt, samplePage []).
Proof.
  pose proof (missing_target_is_noop latin1Upper (samplePage []) (js "layer5") (js "SESSION"))
    as (Hcheck & Hchips & _).
  split; [left; reflexivity|]. split; [apply Hcheck; left; reflexivity|].
  split; [reflexivity|]. exact (proj1 (Hchips eq_refl)).
Defined.

Lemma checkGuess_equality_before_empty_witness :
  elementById (samplePage (js " ")) (js "layer4" ++ js "Guess") = Some 5%nat
  /\ elementById (samplePage (js " ")) (js "layer4" ++ js "Feedback") = Some 6%nat
  /\ normalizePlaintext latin1Upper (JSString (js " ")) = []
  /\ exists p' fe',
       checkGuess latin1Upper (js "layer4") (js "RELIABLE") (samplePage (js " "))
       = Normal (tt, p')
       /\ elements p' !! 6%nat = Some fe'
       /\ feedbackOf fe' = FeedbackNone
       /\ (elClassList fe', elTextContent fe') = (feedbackHidden, []).
Proof.
  split; [reflexivity|]. split; [reflexivity|]. split; [reflexivity|].
  exact (checkGuess_equality_before_empty latin1Upper (samplePage (js " "))
           (js "layer4") (js "RELIABLE") 5%nat 6%nat
           (sampleElement "INPUT" (Some "layer4Guess"%string) None [] None (Some (js " ")))
           eq_refl eq_refl eq_refl eq_refl).
Defined.

(** ** The controller run on the sample page *)

Example getDecodedText_sample :
  getDecodedText latin1Upper (js "layer4Chips") (samplePage [])
  = Normal (js "RE", samplePage []).
Proof. reflexivity. Qed.

Example revealAllChips_sample :
  revealAllChips (js "layer4Chips") (samplePage [])
  = Normal (tt, setTimers [mkTimer (RevealCard 3) 60] (samplePage [])).
Proof. reflexivity. Qed.

Example initializePuzzle_sample :
  exists p',
    initializePuzzle latin1Upper (js "layer4") (js "RELIABLE") (samplePage []) = Normal (tt, p')
    /\ elTextContent <$> elements p' !! 2%nat = Some (js "R")
    /\ elTextContent <$> elements p' !! 4%nat = Some (js "E")
    /\ map regListener (listeners p')
       = [ChipClick 1; ChipKeydown 1; ChipClick 3; ChipKeydown 3;
          HintClick (js "layer4"); GuessInput (js "layer4")].
Proof. eexists. split; [reflexivity|]. repeat split; reflexivity. Qed.

Example showHint_sample :
  showHint (js "layer4") (samplePage []) = Normal (tt, samplePage []).
Proof. reflexivity. Qed.

(** Where a chip is the back face of the chip around it, the letter
    written into it takes its own back face out of the tree: when its turn
    comes it has no back face any more, and that element keeps the text it
    had.  A second call finds the same two chips and writes the same
    letter. *)
Example initializePuzzle_nested_chip :
  chipCardsOf nestedPage (js "layer4" ++ js "Chips") = [1; 2]%nat
  /\ backFaceOf (elements nestedPage) 1 = Some 2%nat
  /\ backFaceOf (elements nestedPage) 2 = Some 3%nat
  /\ backFacesHoldText nestedPage (js "layer4" ++ js "Chips") = false
  /\ exists p',
       initializePuzzle latin1Upper (js "layer4") (js "RELIABLE") nestedPage = Normal (tt, p')
       /\ elTextContent <$> elements p' !! 2%nat = Some (js "R")
       /\ elTextContent <$> elements p' !! 3%nat = Some []
       /\ elParent <$> elements p' !! 3%nat = Some None
       /\ elConnected <$> elements p' !! 3%nat = Some false
       /\ backFaceOf (elements p') 2 = None.
Proof.
  split; [reflexivity|]. split; [reflexivity|]. split; [reflexivity|].
  split; [reflexivity|].
  eexists. split; [reflexivity|]. repeat split; reflexivity.
Qed.

(** A nav link inside the icon of the theme button: restoring the dark
    theme writes the icon, which takes the link out of the document
    before [updateActiveNavLink] looks for the nav links, so the link is
    not marked. *)
Example onDOMContentLoaded_link_in_icon :
  exists b',
    onDOMContentLoaded
      (mkBrowser iconLinkPage [] {["theme" := js "dark"]} (js "/layer4.html") [])
    = Normal (tt, b')
    /\ elConnected <$> elements (page b') !! 2%nat = Some false
    /\ elClassList <$> elements (page b') !! 2%nat = Some [js "nav-link"]
    /\ navLinksOf (page b') = [].
Proof. eexists. split; [reflexivity|]. repeat split; reflexivity. Qed.

(** * The further properties on the concrete table and pages *)

(** ** The codec *)

Lemma decodeGroup_encodeIndex_witness :
  17 <= 25 /\ decodeGroup latin1Upper (JSString (encodeIndex 17)) = [82].
Proof.
  assert (H : 17 <= 25) by lia.
  split; [exact H|]. exact (decodeGroup_encodeIndex latin1Upper 17 H).
Defined.

Lemma encodeIndex_decodeGroup_witness :
  decodeGroup latin1Upper (JSString (js "baaab")) = [82]
  /\ 82 <> 63
  /\ encodeIndex (82 - 65) = toUpperCase latin1Upper (js "baaab")
  /\ (forall s', decodeGroup latin1Upper (JSString s') = [82] ->
        toUpperCase latin1Upper s' = toUpperCase latin1Upper (js "baaab")).
Proof.
  assert (Hne : 82 <> 63) by lia.
  split; [reflexivity|]. split; [exact Hne|].
  exact (proj2 (encodeIndex_decodeGroup latin1Upper (js "baaab") 82 eq_refl Hne)).
Defined.

Lemma decodeGroup_case_insensitive_witness :
  Forall (fun c => c < 128) (js "baaab")
  /\ decodeGroup latin1Upper (JSString (map asciiToUpper (js "baaab")))
     = decodeGroup latin1Upper (JSString (js "baaab")).
Proof.
  assert (H : Forall (fun c => c < 128) (js "baaab")).
  { change (js "baaab") with [98; 97; 97; 97; 98]. repeat constructor. }
  split; [exact H|]. exact (decodeGroup_case_insensitive latin1Upper (js "baaab") H).
Defined.

Lemma normalizePlaintext_idempotent_witness :
  typeofIsString JSNull = false /\ normalizePlaintext latin1Upper JSNull = [].
Proof.
  split; [reflexivity|].
  exact (proj2 (proj2 (normalizePlaintext_idempotent latin1Upper JSNull)) eq_refl).
Defined.

(** ** The controller *)

Lemma aria_pressed_mirrors_revealed_witness :
  elements (samplePage []) !! 3%nat
  = Some (sampleElement "BUTTON" None (Some 0%nat) ["chip-card"]%string
            (Some "AABAA"%string) None)
  /\ exists e',
       toggleChip (Some 3%nat) (samplePage [])
       = Normal (tt, setElements (<[3%nat := e']> (elements (samplePage []))) (samplePage []))
       /\ hasClass revealed e' = true
       /\ elAttributes e' !! "aria-pressed" = Some (js "true").
Proof.
  split; [reflexivity|].
  destruct (proj1 (aria_pressed_mirrors_revealed (samplePage []) 3 _ eq_refl))
    as (e' & Hrun & Hcls & Hattr & _).
  exists e'. split; [exact Hrun|]. split; [exact Hcls|].
  rewrite Hattr, Hcls. reflexivity.
Defined.

Lemma toggleChip_twice_witness :
  elements (samplePage []) !! 3%nat
  = Some (sampleElement "BUTTON" None (Some 0%nat) ["chip-card"]%string
            (Some "AABAA"%string) None)
  /\ exists p' p'',
       toggleChip (Some 3%nat) (samplePage []) = Normal (tt, p')
       /\ toggleChip (Some 3%nat) p' = Normal (tt, p'')
       /\ (forall c, isRevealed p'' c = isRevealed (samplePage []) c)
       /\ isRevealed p' 3 = negb (isRevealed (samplePage []) 3).
Proof.
  split; [reflexivity|]. exact (toggleChip_twice (samplePage []) 3 _ eq_refl).
Defined.

Lemma revealAllChips_schedule_witness :
  Forall (fun c => isRevealed revealedSamplePage c = true)
    (chipCardsOf revealedSamplePage (js "layer4Chips"))
  /\ chipCardsOf revealedSamplePage (js "layer4Chips") = [1; 3]%nat
  /\ revealAllChips (js "layer4Chips") revealedSamplePage = Normal (tt, revealedSamplePage).
Proof.
  assert (H : Forall (fun c => isRevealed revealedSamplePage c = true)
                (chipCardsOf revealedSamplePage (js "layer4Chips"))).
  { change (chipCardsOf revealedSamplePage (js "layer4Chips")) with [1; 3]%nat.
    repeat constructor. }
  split; [exact H|]. split; [reflexivity|].
  destruct (revealAllChips_schedule (js "layer4Chips") revealedSamplePage)
    as (ts & _ & _ & _ & Hall).
  exact (Hall H).
Defined.

Lemma revealAllChips_then_timers_witness :
  (forall t, In t (timers pendingSamplePage) ->
             is_Some (elements pendingSamplePage !! timerCard t))
  /\ exists p',
       bind (revealAllChips (js "layer4Chips")) (fun _ => runPendingTimers) pendingSamplePage
       = Normal (tt, p')
       /\ timers p' = []
       /\ isRevealed p' 3 = true.
Proof.
  assert (H : forall t, In t (timers pendingSamplePage) ->
                        is_Some (elements pendingSamplePage !! timerCard t)).
  { intros t [<-|[]]. eexists. reflexivity. }
  split; [exact H|].
  destruct (revealAllChips_then_timers (js "layer4Chips") pendingSamplePage H)
    as (p' & Hrun & Ht & _ & Hall & _).
  exists p'. split; [exact Hrun|]. split; [exact Ht|].
  apply Hall. right. left. reflexivity.
Defined.

Lemma revealAllChips_fires_in_order_witness :
  timers (samplePage []) = []
  /\ exists ts,
       revealAllChips (js "layer4Chips") (samplePage [])
       = Normal (tt, setTimers ts (samplePage []))
       /\ firingOrder ts = ts
       /\ map timerCard ts
          = List.filter (fun c => negb (isRevealed (samplePage []) c))
              (chipCardsOf (samplePage []) (js "layer4Chips")).
Proof.
  split; [reflexivity|].
  exact (revealAllChips_fires_in_order (js "layer4Chips") (samplePage []) eq_refl).
Defined.

Lemma showHint_first_chip_witness :
  head (chipCardsOf (samplePage []) (js "layer4" ++ js "Chips")) = Some 1%nat
  /\ head (chipCardsOf (samplePage []) (js "layer4" ++ js "Chips")) <> Some 3%nat
  /\ exists p',
       showHint (js "layer4") (samplePage []) = Normal (tt, p')
       /\ isRevealed p' 1 = true
       /\ elements p' !! 3%nat = elements (samplePage []) !! 3%nat.
Proof.
  assert (H : head (chipCardsOf (samplePage []) (js "layer4" ++ js "Chips")) <> Some 3%nat).
  { change (head (chipCardsOf (samplePage []) (js "layer4" ++ js "Chips"))) with (Some 1%nat).
    discriminate. }
  split; [reflexivity|]. split; [exact H|].
  destruct (showHint_first_chip (js "layer4") (samplePage []))
    as (p' & Hrun & Hfirst & Hrest & _).
  exists p'. split; [exact Hrun|]. split; [exact (Hfirst 1%nat eq_refl) | exact (Hrest 3%nat H)].
Defined.

Lemma checkGuess_frame_witness :
  elementById (samplePage (js "relay")) (js "layer4" ++ js "Guess") = Some 5%nat
  /\ elementById (samplePage (js "relay")) (js "layer4" ++ js "Feedback") = Some 6%nat
  /\ elementById (samplePage (js "relay")) (js "layer4" ++ js "Hint") = Some 7%nat
  /\ hasNoChild (elements (samplePage (js "relay"))) 6 = true
  /\ exists p',
       checkGuess latin1Upper (js "layer4") (js "RELIABLE") (samplePage (js "relay"))
       = Normal (tt, p')
       /\ elements p' !! 5%nat = elements (samplePage (js "relay")) !! 5%nat
       /\ (elDisplay <$> elements p' !! 7%nat) = Some (js "inline-block")
       /\ checkGuess latin1Upper (js "layer4") (js "RELIABLE") p' = Normal (tt, p').
Proof.
  split; [reflexivity|]. split; [reflexivity|]. split; [reflexivity|].
  split; [reflexivity|].
  destruct (checkGuess_frame latin1Upper (samplePage (js "relay")) (js "layer4") (js "RELIABLE")
              5%nat 6%nat
              (sampleElement "INPUT" (Some "layer4Guess"%string) None [] None
                 (Some (js "relay")))
              eq_refl eq_refl eq_refl eq_refl)
    as (p' & Hrun & _ & _ & _ & Hrest & Hhint & Hagain).
  exists p'. split; [exact Hrun|]. split.
  { apply Hrest; [discriminate|]. discriminate. }
  split; [|exact Hagain].
  rewrite (Hhint 7%nat _ eq_refl eq_refl). reflexivity.
Defined.

Lemma input_clears_feedback_witness :
  elementById (samplePage (js "relay")) (js "layer4" ++ js "Guess") = Some 5%nat
  /\ elementById (samplePage (js "relay")) (js "layer4" ++ js "Feedback") = Some 6%nat
  /\ exists p' p'' fe,
       checkGuess latin1Upper (js "layer4") (js "RELIABLE") (samplePage (js "relay"))
       = Normal (tt, p')
       /\ runListener latin1Upper (GuessInput (js "layer4")) (js "x") p' = Normal (tt, p'')
       /\ elements p'' !! 6%nat = Some fe
       /\ feedbackOf fe = FeedbackNone
       /\ (forall n, n <> 6%nat -> elements p'' !! n = elements p' !! n)
       /\ timers p'' = timers p' /\ listeners p'' = listeners p'.
Proof.
  split; [reflexivity|]. split; [reflexivity|].
  exact (input_clears_feedback latin1Upper (samplePage (js "relay")) (js "layer4")
           (js "RELIABLE") (js "x") 5%nat 6%nat
           (sampleElement "INPUT" (Some "layer4Guess"%string) None [] None
              (Some (js "relay")))
           eq_refl eq_refl eq_refl).
Defined.

Lemma keyboard_listeners_guarded_witness :
  js "x" <> js "r" /\ js "x" <> js "R"
  /\ runListener latin1Upper (RevealAllKeydown (js "layer4Chips")) (js "x") (samplePage [])
     = Normal (tt, samplePage [])
  /\ activeElement (samplePage []) = None
  /\ runListener latin1Upper (RevealAllKeydown (js "layer4Chips")) (js "R") (samplePage [])
     = revealAllChips (js "layer4Chips") (samplePage [])
  /\ (elTagName <$> elements (samplePage []) !! 7%nat) = Some (js "BUTTON")
  /\ runListener latin1Upper (RevealAllKeydown (js "layer4Chips")) (js "r")
       (setActiveElement (Some 7%nat) (samplePage []))
     = revealAllChips (js "layer4Chips") (setActiveElement (Some 7%nat) (samplePage [])).
Proof.
  assert (H1 : js "x" <> js "r") by discriminate.
  assert (H2 : js "x" <> js "R") by discriminate.
  pose proof (keyboard_listeners_guarded latin1Upper (samplePage [])) as H.
  pose proof (keyboard_listeners_guarded latin1Upper
                (setActiveElement (Some 7%nat) (samplePage [])) (js "r")) as Hb.
  assert (Hfocus : exists n e,
            activeElement (setActiveElement (Some 7%nat) (samplePage [])) = Some n
            /\ elements (setActiveElement (Some 7%nat) (samplePage [])) !! n = Some e
            /\ elTagName e <> js "INPUT" /\ elTagName e <> js "TEXTAREA").
  { exists 7%nat. eexists. split; [reflexivity|]. split; [reflexivity|].
    split; discriminate. }
  split; [exact H1|]. split; [exact H2|]. split.
  - exact (proj1 (proj2 (H (js "x"))) H1 H2 (js "layer4Chips")).
  - split; [reflexivity|]. split.
    + exact (proj2 (proj2 (proj2 (proj2 (H (js "R"))))) (or_introl eq_refl)
               (or_intror eq_refl) (js "layer4Chips")).
    + split; [reflexivity|].
      exact (proj2 (proj2 (proj2 (proj2 Hb))) (or_intror Hfocus) (or_introl eq_refl)
               (js "layer4Chips")).
Defined.

Lemma initializePuzzle_effect_witness :
  elementById (samplePage []) (js "layer4" ++ js "Chips") = Some 0%nat
  /\ backFacesHoldText (samplePage []) (js "layer4" ++ js "Chips") = true
  /\ exists p',
       initializePuzzle latin1Upper (js "layer4") (js "RELIABLE") (samplePage [])
       = Normal (tt, p')
       /\ timers p' = timers (samplePage [])
       /\ length (listeners p') = 6%nat
       /\ (forall c, isRevealed p' c = isRevealed (samplePage []) c).
Proof.
  split; [reflexivity|]. split; [reflexivity|].
  destruct (initializePuzzle_effect latin1Upper (samplePage []) (js "layer4") (js "RELIABLE")
              0%nat eq_refl eq_refl)
    as (p' & Hrun & Ht & _ & Hl & _ & _ & Hrev & _).
  exists p'. split; [exact Hrun|]. split; [exact Ht|]. split; [|exact Hrev].
  rewrite Hl. reflexivity.
Defined.

Lemma initializePuzzle_writes_letter_witness :
  elementById (samplePage []) (js "layer4" ++ js "Chips") = Some 0%nat
  /\ backFacesHoldText (samplePage []) (js "layer4" ++ js "Chips") = true
  /\ In 3%nat (chipCardsOf (samplePage []) (js "layer4" ++ js "Chips"))
  /\ backFaceOf (elements (samplePage [])) 3 = Some 4%nat
  /\ exists p' eb,
       initializePuzzle latin1Upper (js "layer4") (js "RELIABLE") (samplePage [])
       = Normal (tt, p')
       /\ elements p' !! 4%nat = Some eb
       /\ elTextContent eb = js "E".
Proof.
  assert (Hin : In 3%nat (chipCardsOf (samplePage []) (js "layer4" ++ js "Chips"))).
  { change (chipCardsOf (samplePage []) (js "layer4" ++ js "Chips")) with [1; 3]%nat.
    right. left. reflexivity. }
  assert (Hg : js "AABAA" <> []) by discriminate.
  assert (Hu : forall c, In c (chipCardsOf (samplePage []) (js "layer4" ++ js "Chips")) ->
                         backFaceOf (elements (samplePage [])) c = Some 4%nat -> c = 3%nat).
  { change (chipCardsOf (samplePage []) (js "layer4" ++ js "Chips")) with [1; 3]%nat.
    intros c [<-|[<-|[]]] Hb; [|reflexivity].
    change (backFaceOf (elements (samplePage [])) 1) with (Some 2%nat) in Hb.
    discriminate Hb. }
  split; [reflexivity|]. split; [reflexivity|]. split; [exact Hin|]. split; [reflexivity|].
  exact (initializePuzzle_writes_letter latin1Upper (samplePage []) (js "layer4")
           (js "RELIABLE") 0%nat 3%nat 4%nat
           (sampleElement "BUTTON" None (Some 0%nat) ["chip-card"]%string
              (Some "AABAA"%string) None)
           (js "AABAA") eq_refl eq_refl Hin eq_refl eq_refl Hg eq_refl Hu).
Defined.

Lemma initializePuzzle_twice_witness :
  elementById (samplePage []) (js "layer4" ++ js "Chips") = Some 0%nat
  /\ backFacesHoldText (samplePage []) (js "layer4" ++ js "Chips") = true
  /\ exists p' p'' added,
       initializePuzzle latin1Upper (js "layer4") (js "RELIABLE") (samplePage [])
       = Normal (tt, p')
       /\ initializePuzzle latin1Upper (js "layer4") (js "RELIABLE") p' = Normal (tt, p'')
       /\ listeners p' = listeners (samplePage []) ++ added
       /\ listeners p'' = listeners (samplePage []) ++ added ++ added
       /\ elements p'' = elements p'
       /\ timers p'' = timers (samplePage []).
Proof.
  split; [reflexivity|]. split; [reflexivity|].
  exact (initializePuzzle_twice latin1Upper (samplePage []) (js "layer4") (js "RELIABLE")
           0%nat eq_refl eq_refl).
Defined.

(** ** Theme and navigation *)

Lemma toggleDarkMode_keeps_storage_in_step_witness :
  (forall t,
      elementById (page (sampleBrowser true None "/index.html" ∅)) (js "themeToggle") = Some t ->
      is_Some (themeIconOf (page (sampleBrowser true None "/index.html" ∅))))
  /\ (forall i,
        themeIconOf (page (sampleBrowser true None "/index.html" ∅)) = Some i ->
        hasNoChild (elements (page (sampleBrowser true None "/index.html" ∅))) i = true)
  /\ exists b',
       toggleDarkMode (sampleBrowser true None "/index.html" ∅) = Normal (tt, b')
       /\ isDark b' = true
       /\ localStorage b' !! "theme" = Some (js "dark")
       /\ exists ei, elements (page b') !! 1%nat = Some ei /\ elTextContent ei = sunIcon.
Proof.
  assert (H : forall t,
             elementById (page (sampleBrowser true None "/index.html" ∅)) (js "themeToggle")
             = Some t ->
             is_Some (themeIconOf (page (sampleBrowser true None "/index.html" ∅)))).
  { intros t _. exists 1%nat. reflexivity. }
  assert (Hleaf : forall i,
             themeIconOf (page (sampleBrowser true None "/index.html" ∅)) = Some i ->
             hasNoChild (elements (page (sampleBrowser true None "/index.html" ∅))) i = true).
  { intros i Hi.
    change (themeIconOf (page (sampleBrowser true None "/index.html" ∅))) with (Some 1%nat) in Hi.
    injection Hi as <-. reflexivity. }
  split; [exact H|]. split; [exact Hleaf|].
  destruct (toggleDarkMode_keeps_storage_in_step (sampleBrowser true None "/index.html" ∅) H
              Hleaf)
    as (b' & Hrun & Hdark & Hstore & _ & Hicon & _).
  change (isDark b' = true) in Hdark.
  exists b'. split; [exact Hrun|]. split; [exact Hdark|].
  rewrite Hdark in Hstore, Hicon. split; [exact Hstore|].
  exact (Hicon 1%nat eq_refl).
Defined.

Lemma theme_button_without_icon_witness :
  elementById (page (sampleBrowser false None "/index.html" ∅)) (js "themeToggle") = Some 0%nat
  /\ themeIconOf (page (sampleBrowser false None "/index.html" ∅)) = None
  /\ updateThemeIcon (sampleBrowser false None "/index.html" ∅) = Throw
  /\ toggleDarkMode (sampleBrowser false None "/index.html" ∅) = Throw.
Proof.
  split; [reflexivity|]. split; [reflexivity|].
  destruct (theme_button_without_icon (sampleBrowser false None "/index.html" ∅) 0%nat
              eq_refl eq_refl) as (Hicon & Htoggle & _).
  split; [exact Hicon | exact Htoggle].
Defined.



Lemma pageName_after_last_slash_witness :
  js "/" = js "/" /\ pageName (js "/") = js "index.html".
Proof.
  split; [reflexivity|].
  exact (proj1 (proj2 (pageName_after_last_slash (js "/"))) eq_refl).
Defined.

Lemma updateActiveNavLink_marks_witness :
  (forall n e,
      elements (page (sampleBrowser true (Some "layer5.html"%string) "/site/layer4.html" ∅)) !! n
      = Some e ->
      elConnected e = true ->
      hasClass navLinkClass e = true -> is_Some (elAttributes e !! "href"))
  /\ exists q e2 e3,
       updateActiveNavLink (sampleBrowser true (Some "layer5.html"%string) "/site/layer4.html" ∅)
       = Normal (tt, setPage q
                       (sampleBrowser true (Some "layer5.html"%string) "/site/layer4.html" ∅))
       /\ elements q !! 2%nat = Some e2 /\ hasClass activeClass e2 = false
       /\ elements q !! 3%nat = Some e3 /\ hasClass activeClass e3 = true.
Proof.
  assert (H : forall n e,
             elements (page (sampleBrowser true (Some "layer5.html"%string)
                               "/site/layer4.html" ∅)) !! n = Some e ->
             elConnected e = true ->
             hasClass navLinkClass e = true -> is_Some (elAttributes e !! "href")).
  { intros [|[|[|[|[|n]]]]] e Hn _ Hc; cbn [page sampleBrowser sitePage elements lookup list_lookup] in Hn;
      try discriminate Hn; injection Hn as <-;
      try (vm_compute in Hc; discriminate Hc); eexists; reflexivity. }
  split; [exact H|].
  destruct (updateActiveNavLink_marks _ H) as (q & Hrun & _ & _ & Hall).
  destruct (Hall 2%nat _ eq_refl) as (e2 & Hl2 & _ & Hm2).
  destruct (Hall 3%nat _ eq_refl) as (e3 & Hl3 & _ & Hm3).
  exists q, e2, e3. split; [exact Hrun|].
  split; [exact Hl2|]. split; [exact (proj1 (Hm2 eq_refl eq_refl _ eq_refl))|].
  split; [exact Hl3|]. exact (proj1 (Hm3 eq_refl eq_refl _ eq_refl)).
Defined.

Lemma updateActiveNavLink_needs_href_witness :
  elements (page (sampleBrowser true None "/layer4.html" ∅)) !! 4%nat
  = Some (mkElement (js "A") None None [js "nav-link"] ∅ [] None [] true)
  /\ updateActiveNavLink (sampleBrowser true None "/layer4.html" ∅) = Throw.
Proof.
  split; [reflexivity|].
  exact (updateActiveNavLink_needs_href (sampleBrowser true None "/layer4.html" ∅) 4%nat
           (mkElement (js "A") None None [js "nav-link"] ∅ [] None [] true)
           eq_refl eq_refl eq_refl eq_refl).
Defined.

